(** * Checkpoint/restore support of the Linux OS layer (os_linux.cpp)

  A shallow embedding of the CRaC part of [os_linux.cpp]: the descriptor
  table [FdsInfo] and its alias probe, the registry of persistent
  descriptors, the restore parameter block ([CracRestoreParameters]), the
  engine adapter ([call_crengine], [checkpoint_restore]) and the VM
  operation [VM_Crac::doit], followed by the properties proved of them.
  Three functions of the file outside that part are embedded as well:
  [os::compare_file_modified_times], [get_stack_commited_bottom] and the
  engine path of [compute_crengine].

  Integers of the C++ code are [Z] with their wrap-around written out,
  indices of loops that start at zero are [nat], C strings are [string]
  (paths) or [list byte] (the contents of the shared-memory segment).  What
  the operating system answers is read from explicit models: [kernel] for the
  descriptor table and the open file descriptions behind it, [world] for
  everything else the operation asks during one attempt. *)

From Stdlib Require Import ZArith String Ascii List Bool Lia Sorted.
From Stdlib.Strings Require Import Byte.
Import ListNotations.
Local Open Scope Z_scope.

(** ** Integer types of the C++ code *)
Module CInt.

(** Two's complement reading of [x] on [w] bits. *)
Definition signed (w : Z) (x : Z) : Z :=
  let m := x mod 2 ^ w in
  if m <? 2 ^ (w - 1) then m else m - 2 ^ w.

Definition to_int (x : Z) : Z := signed 32 x.
Definition to_jlong (x : Z) : Z := signed 64 x.

(** [dev_t] and [ino_t] are unsigned 64-bit integers on Linux. *)
Definition to_u64 (x : Z) : Z := x mod 2 ^ 64.

Definition is_int (x : Z) : Prop := - 2 ^ 31 <= x < 2 ^ 31.
Definition is_jlong (x : Z) : Prop := - 2 ^ 63 <= x < 2 ^ 63.

Definition INT_MAX : Z := 2 ^ 31 - 1.

End CInt.

(** ** [struct stat] and the file type macros of <sys/stat.h> *)
Module Stat.

Record stat := mk_stat {
  st_dev : Z;
  st_ino : Z;
  st_nlink : Z;
  st_mode : Z;
  st_rdev : Z
}.

(** Values of the Linux ABI (octal 0170000, 0140000, ...). *)
Definition S_IFMT : Z := 61440.
Definition S_IFSOCK : Z := 49152.
Definition S_IFLNK : Z := 40960.
Definition S_IFREG : Z := 32768.
Definition S_IFBLK : Z := 24576.
Definition S_IFDIR : Z := 16384.
Definition S_IFCHR : Z := 8192.
Definition S_IFIFO : Z := 4096.

Definition S_ISCHR (mode : Z) : bool := Z.land mode S_IFMT =? S_IFCHR.
Definition S_ISSOCK (mode : Z) : bool := Z.land mode S_IFMT =? S_IFSOCK.

(** [major] and [minor] of <sys/sysmacros.h> (glibc's encoding of a 64-bit
    [dev_t]); both yield an [unsigned int]. *)
Definition major (dev : Z) : Z :=
  Z.lor (Z.land (Z.shiftr dev 32) 4294963200) (Z.land (Z.shiftr dev 8) 4095).
Definition minor (dev : Z) : Z :=
  Z.lor (Z.land (Z.shiftr dev 12) 4294967040) (Z.land dev 255).

(** [same_stat]: equal device and inode. *)
Definition same_stat (st1 st2 : stat) : bool :=
  (st_dev st1 =? st_dev st2) && (st_ino st1 =? st_ino st2).

End Stat.

(** ** The kernel's side of file descriptors

  A descriptor number refers to an open file description; descriptors made
  by [dup] share one description and therefore one set of status flags,
  descriptors made by separate [open] calls do not.  The flag FD_CLOEXEC
  belongs to the descriptor. *)
Module Kernel.
Import Stat.

Record ofd := mk_ofd {
  o_stat : stat;          (* what fstat reports *)
  o_flags : N;            (* file status flags, as F_GETFL reports them *)
  o_setfl : bool          (* whether F_SETFL is honoured (it is not for
                             O_PATH descriptions, for instance) *)
}.

Record kernel := mk_kernel {
  k_open_max : nat;                 (* sysconf(_SC_OPEN_MAX), the soft limit
                                       RLIMIT_NOFILE *)
  k_fd : nat -> option nat;         (* descriptor -> description, if open *)
  k_ofd : nat -> ofd;               (* the descriptions *)
  k_readlink : nat -> option string;(* readlink of /proc/self/fd/<n> *)
  k_cloexec : nat -> bool;          (* the descriptor flag FD_CLOEXEC *)
  k_stray_arg : Z                   (* what a variadic callee finds in the
                                       place of an argument not passed *)
}.

(** Commands of <fcntl.h> on Linux. *)
Definition F_DUPFD : Z := 0.
Definition F_GETFD : Z := 1.
Definition F_SETFD : Z := 2.
Definition F_GETFL : Z := 3.
Definition F_SETFL : Z := 4.
Definition F_DUPFD_CLOEXEC : Z := 1030.
Definition FD_CLOEXEC : Z := 1.
Definition O_NONBLOCK : Z := 2048.
(** O_APPEND | O_NONBLOCK | O_NDELAY | O_DIRECT | O_NOATIME: the bits
    F_SETFL may change. *)
Definition SETFL_MASK : Z := 1024 + 2048 + 16384 + 262144.

Definition fstat (k : kernel) (fd : nat) : option stat :=
  match k_fd k fd with
  | Some id => Some (o_stat (k_ofd k id))
  | None => None
  end.

Definition set_flags (k : kernel) (id : nat) (fl : N) : kernel :=
  mk_kernel (k_open_max k) (k_fd k)
    (fun x => if Nat.eqb x id
              then mk_ofd (o_stat (k_ofd k x)) fl (o_setfl (k_ofd k x))
              else k_ofd k x)
    (k_readlink k) (k_cloexec k) (k_stray_arg k).

Definition set_cloexec (k : kernel) (fd : nat) (b : bool) : kernel :=
  mk_kernel (k_open_max k) (k_fd k) (k_ofd k) (k_readlink k)
    (fun x => if Nat.eqb x fd then b else k_cloexec k x) (k_stray_arg k).

(** The lowest descriptor number that is not open, among the [n] numbers
    from [from] on. *)
Fixpoint lowest_free (fds : nat -> option nat) (from n : nat) : option nat :=
  match n with
  | O => None
  | S n' =>
      match fds from with
      | None => Some from
      | Some _ => lowest_free fds (S from) n'
      end
  end.

(** Descriptor [newfd] is opened on the description [id] of [fd]; its link
    in /proc/self/fd is that of [fd]. *)
Definition dup_to (k : kernel) (fd newfd id : nat) (cloexec : bool) : kernel :=
  mk_kernel (k_open_max k)
    (fun x => if Nat.eqb x newfd then Some id else k_fd k x)
    (k_ofd k)
    (fun x => if Nat.eqb x newfd then k_readlink k fd else k_readlink k x)
    (fun x => if Nat.eqb x newfd then cloexec else k_cloexec k x)
    (k_stray_arg k).

(** F_DUPFD and F_DUPFD_CLOEXEC: the lowest free number from [arg] on,
    taken as an [int]; EINVAL when [arg] is negative or not below the limit,
    EMFILE when no number below the limit is free. *)
Definition dupfd (k : kernel) (fd id : nat) (arg : Z) (cloexec : bool)
    : Z * kernel :=
  let from := CInt.to_int arg in
  if (from <? 0) || (Z.of_nat (k_open_max k) <=? from) then (-1, k)
  else
    match lowest_free (k_fd k) (Z.to_nat from) (k_open_max k - Z.to_nat from) with
    | None => (-1, k)
    | Some newfd => (Z.of_nat newfd, dup_to k fd newfd id cloexec)
    end.

(** [fcntl(fd, cmd, arg)] for the commands that act on the descriptor
    table, the descriptor flags and the status flags.  The other commands
    act on locks, leases, owners and signals, which are no part of the state
    kept here; the program never looks at what they return, for which -1
    stands. *)
Definition fcntl (k : kernel) (fd : nat) (cmd : Z) (arg : Z) : Z * kernel :=
  match k_fd k fd with
  | None => (-1, k)
  | Some id =>
      let d := k_ofd k id in
      if cmd =? F_GETFL then (Z.of_N (o_flags d), k)
      else if cmd =? F_SETFL then
        if o_setfl d
        then (0, set_flags k id
                   (Z.to_N (Z.lor (Z.land arg SETFL_MASK)
                                  (Z.land (Z.of_N (o_flags d))
                                          (Z.lnot SETFL_MASK)))))
        else (-1, k)
      else if cmd =? F_DUPFD then dupfd k fd id arg false
      else if cmd =? F_DUPFD_CLOEXEC then dupfd k fd id arg true
      else if cmd =? F_GETFD then ((if k_cloexec k fd then FD_CLOEXEC else 0), k)
      else if cmd =? F_SETFD
      then (0, set_cloexec k fd
                 (negb (Z.land (CInt.to_int arg) FD_CLOEXEC =? 0)))
      else (-1, k)
  end.

(** The status flags a descriptor shows, -1 when it is not open. *)
Definition flags_of (k : kernel) (fd : nat) : Z := fst (fcntl k fd F_GETFL 0).

End Kernel.

(** ** [class FdsInfo] *)
Module FdsInfo.
Import Stat Kernel.

(** [enum state_t]: values from [DUP_OF_0] on name the descriptor that a
    duplicate refers to. *)
Definition INVALID : Z := -3.
Definition CLOSED : Z := -2.
Definition ROOT : Z := -1.
Definition DUP_OF_0 : Z := 0.

(** [enum mark_t] *)
Definition M_ZIP_CACHE : Z := 1.
Definition M_CANT_RESTORE : Z := 2.
Definition M_CLASSPATH : Z := 4.
Definition M_PERSISTENT : Z := 8.

Record fdinfo := mk_fdinfo {
  stat_of : stat;
  state : Z;
  mark_of : Z;
  flags : Z
}.

(** [_fdinfos] with [_len] its length; [None] is the table that has not
    been initialised ([_fdinfos == NULL], [_len == -1]). *)
Definition t := option (list fdinfo).

Definition not_inited : t := None.

Definition inited (f : t) : bool :=
  match f with Some _ => true | None => false end.

Definition len (f : t) : Z :=
  match f with Some l => Z.of_nat (length l) | None => -1 end.

Definition default_fdinfo : fdinfo := mk_fdinfo (mk_stat 0 0 0 0 0) INVALID 0 0.

Definition at_ (l : list fdinfo) (i : nat) : fdinfo := nth i l default_fdinfo.

Definition entries (f : t) : list fdinfo :=
  match f with Some l => l | None => [] end.

(** [get_state(i, orstate)]; the call sites that leave [orstate] at its
    default [INVALID] all have [i < len()]. *)
Definition get_state (f : t) (i : nat) (orstate : Z) : Z :=
  if Z.of_nat i <? len f then state (at_ (entries f) i) else orstate.

Definition get_stat (f : t) (i : nat) : stat := stat_of (at_ (entries f) i).

Fixpoint update (l : list fdinfo) (i : nat) (g : fdinfo -> fdinfo) : list fdinfo :=
  match l, i with
  | [], _ => []
  | x :: l', O => g x :: l'
  | x :: l', S i' => x :: update l' i' g
  end.

Definition on_entries (f : t) (g : list fdinfo -> list fdinfo) : t :=
  match f with Some l => Some (g l) | None => None end.

Definition set_state (f : t) (i : nat) (newst : Z) : t :=
  on_entries f (fun l => update l i
    (fun x => mk_fdinfo (stat_of x) newst (mark_of x) (flags x))).

(** [mark(i, m)]: [_fdinfos[i].mark |= m]. *)
Definition mark (f : t) (i : nat) (m : Z) : t :=
  on_entries f (fun l => update l i
    (fun x => mk_fdinfo (stat_of x) (state x) (Z.lor (mark_of x) m) (flags x))).

(** [clear(i, m)]: [_fdinfos[i].mark &= ~m]. *)
Definition clear (f : t) (i : nat) (m : Z) : t :=
  on_entries f (fun l => update l i
    (fun x => mk_fdinfo (stat_of x) (state x)
                (Z.land (mark_of x) (Z.lnot m)) (flags x))).

(** [check(i, m)]: [0 != (_fdinfos[i].mark & m)]. *)
Definition check (f : t) (i : nat) (m : Z) : bool :=
  negb (Z.land (mark_of (at_ (entries f) i)) m =? 0).

(** *** Path tests used by [initialize] *)

Definition slash : ascii := Ascii.ascii_of_nat 47.

(** The part of [path] after its last '/' ([strrchr], then [sep + 1]). *)
Fixpoint basename_from (s cur : string) : string :=
  match s with
  | EmptyString => cur
  | String c s' =>
      if Ascii.eqb c slash then basename_from s' s' else basename_from s' cur
  end.

Definition isxdigit (c : ascii) : bool :=
  let n := nat_of_ascii c in
  ((48 <=? n) && (n <=? 57) || (97 <=? n) && (n <=? 102)
   || (65 <=? n) && (n <=? 70))%nat.

Definition NFS_PREF : string := ".nfs".
Definition NFS_PREF_LEN : nat := 4.
Definition NFS_FILEID_LEN : nat := 16.
Definition NFS_COUNTER_LEN : nat := 8.
Definition NFS_LEN : nat := NFS_PREF_LEN + NFS_FILEID_LEN + NFS_COUNTER_LEN.

(** [base[i]] is a hexadecimal digit; past the end of the string the
    terminating NUL is read, which is none. *)
Definition xdigit_at (base : string) (i : nat) : bool :=
  match String.get i base with
  | Some c => isxdigit c
  | None => false
  end.

Definition nfs_silly_rename (path : string) : bool :=
  let base := basename_from path path in
  if negb (String.prefix NFS_PREF base) then false
  else forallb (xdigit_at base) (seq NFS_PREF_LEN (NFS_LEN - NFS_PREF_LEN)).

(** [strstr(hay, needle) != NULL] *)
Fixpoint strstr (hay needle : string) : bool :=
  String.prefix needle hay ||
  match hay with
  | EmptyString => false
  | String _ hay' => strstr hay' needle
  end.

(** [readfdlink(fd, link, len)]: the value returned and the string left in
    [link], cut to the buffer. *)
Definition readfdlink (k : kernel) (fd : nat) (buflen : nat) : Z * string :=
  match k_readlink k fd with
  | None => (-1, EmptyString)
  | Some target =>
      let ret := Nat.min (String.length target) buflen in
      (Z.of_nat ret,
       String.substring 0 (if (ret <? buflen)%nat then ret else buflen - 1) target)
  end.

Definition PATH_MAX : nat := 4096.

(** *** The alias probe *)

(** [same_fd(fd1, fd2)].  The last call is [fcntl(fd1, flags1)]: the old
    flags are passed in the place of the command and no third argument is
    given. *)
Definition same_fd (f : t) (k : kernel) (fd1 fd2 : nat) : bool * kernel :=
  if negb (same_stat (get_stat f fd1) (get_stat f fd2)) then (false, k)
  else
    let '(flags1, k) := fcntl k fd1 F_GETFL 0 in
    let '(flags2, k) := fcntl k fd2 F_GETFL 0 in
    if negb (flags1 =? flags2) then (false, k)
    else
      let test_flag := O_NONBLOCK in
      let new_flags1 := Z.lxor flags1 test_flag in
      let '(_, k) := fcntl k fd1 F_SETFL new_flags1 in
      let '(r, k) := fcntl k fd1 F_GETFL 0 in
      if negb (r =? new_flags1) then (false, k)
      else
        let '(new_flags2, k) := fcntl k fd2 F_GETFL 0 in
        let are_same := new_flags1 =? new_flags2 in
        let '(_, k) := fcntl k fd1 flags1 (k_stray_arg k) in
        (are_same, k).

(** *** [initialize] *)

(** First loop: one [fstat] per descriptor below the limit.  A slot whose
    [fstat] fails keeps what the fresh array held, but for its state. *)
Definition scan_fd (k : kernel) (raw : nat -> fdinfo) (i : nat) : fdinfo :=
  match fstat k i with
  | None => mk_fdinfo (stat_of (raw i)) CLOSED (mark_of (raw i)) (flags (raw i))
  | Some s => mk_fdinfo s ROOT 0 (flags (raw i))
  end.

(** [last_fd + 1] after the first loop over [n] descriptors. *)
Fixpoint scan_len (k : kernel) (n : nat) : nat :=
  match n with
  | O => O
  | S n' => match fstat k n' with
            | Some _ => S n'
            | None => scan_len k n'
            end
  end.

Definition scan (k : kernel) (raw : nat -> fdinfo) : list fdinfo :=
  map (scan_fd k raw) (seq 0 (scan_len k (k_open_max k))).

(** The inner loop [for (j = 0; j < i; ++j)], from [j] on with [n]
    iterations left. *)
Fixpoint alias_loop (f : t) (k : kernel) (i j n : nat) : t * kernel :=
  match n with
  | O => (f, k)
  | S n' =>
      if get_state f j INVALID =? ROOT then
        let '(same, k') := same_fd f k i j in
        if same then (set_state f i (DUP_OF_0 + Z.of_nat j), k')
        else alias_loop f k' i (S j) n'
      else alias_loop f k i (S j) n'
  end.

(** The body of the second loop for descriptor [i]; [None] when the
    [guarantee] on [readfdlink] fails. *)
Definition classify_fd (f : t) (k : kernel) (i : nat) : option (t * kernel) :=
  let '(f, k) := alias_loop f k i 0 i in
  if get_state f i INVALID =? ROOT then
    let '(r, fdpath) := readfdlink k i PATH_MAX in
    if r =? -1 then None
    else if (st_nlink (get_stat f i) =? 0)
            || strstr fdpath "(deleted)"
            || nfs_silly_rename fdpath
         then Some (mark f i M_CANT_RESTORE, k)
         else Some (f, k)
  else Some (f, k).

Fixpoint classify_from (f : t) (k : kernel) (i n : nat) : option (t * kernel) :=
  match n with
  | O => Some (f, k)
  | S n' =>
      match classify_fd f k i with
      | None => None
      | Some (f', k') => classify_from f' k' (S i) n'
      end
  end.

(** [FdsInfo::initialize()] on a table not yet initialised; [raw] is the
    content of the array as allocated. *)
Definition initialize (k : kernel) (raw : nat -> fdinfo) : option (t * kernel) :=
  let l := scan k raw in
  classify_from (Some l) k 0 (length l).

End FdsInfo.

(** ** The registry of persistent descriptors *)
Module Registry.
Import Stat.

Record PersistentResourceDesc := mk_desc {
  _fd : Z;
  _st_dev : Z;
  _st_ino : Z
}.

(** The constructor casts its [int] arguments to [dev_t] and [ino_t]. *)
Definition desc (fd st_dev st_ino : Z) : PersistentResourceDesc :=
  mk_desc fd (CInt.to_u64 st_dev) (CInt.to_u64 st_ino).

(** [_persistent_resources]; [None] is the NULL pointer. *)
Definition t := option (list PersistentResourceDesc).

(** [GrowableArray] operations used on the registry. *)
Definition at_put (l : list PersistentResourceDesc) (i : nat)
    (x : PersistentResourceDesc) : list PersistentResourceDesc :=
  firstn i l ++ x :: skipn (S i) l.
Definition insert_before (l : list PersistentResourceDesc) (i : nat)
    (x : PersistentResourceDesc) : list PersistentResourceDesc :=
  firstn i l ++ x :: skipn i l.
Definition remove_at (l : list PersistentResourceDesc) (i : nat)
    : list PersistentResourceDesc :=
  firstn i l ++ skipn (S i) l.

(** The search loop of [register_persistent_fd] over the entries from
    index [i] on: the values of [dup] and [i] when it ends. *)
Fixpoint register_search (rest : list PersistentResourceDesc) (fd : Z) (i : nat)
    : option nat * nat :=
  match rest with
  | [] => (None, i)
  | pr :: rest' =>
      let pfd := _fd pr in
      if pfd =? fd then (Some i, i)
      else if fd <? pfd then (None, i)
      else register_search rest' fd (S i)
  end.

Definition register_persistent_fd (CRaCCheckpointTo : option string)
    (reg : t) (fd st_dev st_ino : Z) : t :=
  match CRaCCheckpointTo with
  | None => reg
  | Some _ =>
      let l := match reg with Some l => l | None => [] end in
      match register_search l fd 0 with
      | (Some dup, _) => Some (at_put l dup (desc fd st_dev st_ino))
      | (None, i) => Some (insert_before l i (desc fd st_dev st_ino))
      end
  end.

Definition matches (pr : PersistentResourceDesc) (fd st_dev st_ino : Z) : bool :=
  (_fd pr =? fd) && (_st_dev pr =? CInt.to_u64 st_dev)
  && (_st_ino pr =? CInt.to_u64 st_ino).

(** The search loop of [deregister_persistent_fd], run for at most [fuel]
    rounds: the index [i] it ends with, [None] when it is still running.
    The loop body has no statement that changes [i]. *)
Fixpoint deregister_search (fuel : nat) (l : list PersistentResourceDesc)
    (fd st_dev st_ino : Z) (i : nat) : option nat :=
  match fuel with
  | O => None
  | S fuel' =>
      match nth_error l i with
      | None => Some i                      (* i < length() fails *)
      | Some pr =>
          if matches pr fd st_dev st_ino then Some i     (* break *)
          else deregister_search fuel' l fd st_dev st_ino i
      end
  end.

(** [deregister_persistent_fd]: the registry it leaves, [None] when the
    call has not returned within [fuel] rounds of its loop. *)
Definition deregister_persistent_fd (fuel : nat)
    (CRaCCheckpointTo : option string) (reg : t) (fd st_dev st_ino : Z)
    : option t :=
  match CRaCCheckpointTo with
  | None => Some reg
  | Some _ =>
      match reg with
      | None => Some None
      | Some l =>
          match deregister_search fuel l fd st_dev st_ino 0 with
          | None => None
          | Some i =>
              if (i <? length l)%nat then Some (Some (remove_at l i))
              else Some (Some l)
          end
      end
  end.

(** The loop of [mark_persistent]; [None] when an entry has a negative
    descriptor number, which indexes before the table. *)
Fixpoint mark_entries (fds : FdsInfo.t) (l : list PersistentResourceDesc)
    : option FdsInfo.t :=
  match l with
  | [] => Some fds
  | pr :: l' =>
      let fd := _fd pr in
      if FdsInfo.len fds <=? fd then Some fds                 (* break *)
      else if fd <? 0 then None
      else
        let i := Z.to_nat fd in
        if negb (FdsInfo.get_state fds i FdsInfo.INVALID =? FdsInfo.ROOT)
        then mark_entries fds l'                              (* continue *)
        else
          let st := FdsInfo.get_stat fds i in
          if (st_dev st =? _st_dev pr) && (st_ino st =? _st_ino pr)
          then mark_entries (FdsInfo.mark fds i FdsInfo.M_PERSISTENT) l'
          else mark_entries fds l'
  end.

(** [mark_persistent(fds)]: the table and the registry afterwards. *)
Definition mark_persistent (fds : FdsInfo.t) (reg : t) : option (FdsInfo.t * t) :=
  match reg with
  | None => Some (fds, None)
  | Some l =>
      match mark_entries fds l with
      | Some fds' => Some (fds', None)
      | None => None
      end
  end.

End Registry.

(** ** The recorded restore time *)
Module RestoreClock.

(** The statics [_restore_start_time] and [_restore_start_counter]. *)
Record t := mk {
  _restore_start_time : Z;
  _restore_start_counter : Z
}.

(** Statics are zero when the process starts. *)
Definition initial : t := mk 0 0.

(** The two assignments made at a restore, in [VM_Crac::doit] and in
    [CracRestoreParameters::read_from]. *)
Definition record (time counter : Z) : t := mk time counter.

(** [os::Linux::restore_start_time()] *)
Definition restore_start_time (c : t) : Z :=
  if _restore_start_time c =? 0 then -1 else _restore_start_time c.

(** [os::Linux::uptime_since_restore()], [javaTimeNanos] being what the
    monotonic clock reads at the call. *)
Definition uptime_since_restore (c : t) (javaTimeNanos : Z) : Z :=
  if _restore_start_counter c =? 0 then -1
  else CInt.to_jlong (javaTimeNanos - _restore_start_counter c).

End RestoreClock.

(** ** The restore parameter block ([class CracRestoreParameters]) *)
Module RestoreParameters.

Definition is_nul (b : byte) : bool := Byte.eqb b x00.

Definition byte_of_Z (z : Z) : byte :=
  match Byte.of_N (Z.to_N (z mod 256)) with
  | Some b => b
  | None => x00
  end.

Definition Z_of_byte (b : byte) : Z := Z.of_N (Byte.to_N b).

(** The object representation of an integer of [n] bytes, least
    significant byte first, and the unsigned value of such bytes. *)
Fixpoint le_bytes (n : nat) (v : Z) : list byte :=
  match n with
  | O => []
  | S n' => byte_of_Z v :: le_bytes n' (v / 256)
  end.

Fixpoint le_value (bs : list byte) : Z :=
  match bs with
  | [] => 0
  | b :: bs' => Z_of_byte b + 256 * le_value bs'
  end.

(** [struct header]: two [jlong] and two [int], 24 bytes without padding. *)
Record header := mk_header {
  _restore_time : Z;
  _restore_counter : Z;
  _nprops : Z;
  _env_memory_size : Z
}.

Definition sizeof_header : nat := 24.

Definition header_bytes (h : header) : list byte :=
  le_bytes 8 (_restore_time h) ++ le_bytes 8 (_restore_counter h)
  ++ le_bytes 4 (_nprops h) ++ le_bytes 4 (_env_memory_size h).

(** [(header* )buf]: the fields read back from the first 24 bytes. *)
Definition header_of_bytes (buf : list byte) : header :=
  mk_header
    (CInt.to_jlong (le_value (firstn 8 buf)))
    (CInt.to_jlong (le_value (firstn 8 (skipn 8 buf))))
    (CInt.to_int (le_value (firstn 4 (skipn 16 buf))))
    (CInt.to_int (le_value (firstn 4 (skipn 20 buf)))).

(** [strlen] of the bytes [s] of a buffer: the offset of the first NUL,
    [None] when there is none before the buffer ends. *)
Fixpoint strlen (s : list byte) : option nat :=
  match s with
  | [] => None
  | b :: s' => if is_nul b then Some O else option_map S (strlen s')
  end.

(** The C string that starts at offset [off] of [buf]. *)
Definition cstr_at (buf : list byte) (off : nat) : option (list byte) :=
  match strlen (skipn off buf) with
  | Some n => Some (firstn n (skipn off buf))
  | None => None
  end.

(** *** The shared-memory segment behind a descriptor *)

Record shmfile := mk_shm {
  sh_data : list byte;    (* the content of the segment *)
  sh_pos : nat;           (* the file offset of the descriptor *)
  sh_limit : nat          (* the size the segment may grow to *)
}.

(** [write(fd, buf, count)]: as many of the [count] bytes as fit are
    written at the file offset; the number written is returned. *)
Definition write (f : shmfile) (buf : list byte) (count : Z) : Z * shmfile :=
  if count <? 0 then (-1, f)
  else
    let n := Nat.min (Z.to_nat count) (sh_limit f - sh_pos f)%nat in
    (Z.of_nat n,
     mk_shm (firstn (sh_pos f) (sh_data f) ++ firstn n buf
             ++ skipn (sh_pos f + n)%nat (sh_data f))
            (sh_pos f + n)%nat (sh_limit f)).

Definition write_check_error (f : shmfile) (buf : list byte) (count : Z)
    : bool * shmfile :=
  let '(wret, f') := write f buf count in
  if negb (wret =? count) then (false, f') else (true, f').

(** *** [write_to] *)

Record SystemProperty := mk_prop {
  key : list byte;
  value : list byte
}.

Fixpoint system_props_length_from (len : Z) (props : list SystemProperty) : Z :=
  match props with
  | [] => len
  | _ :: next => system_props_length_from (CInt.to_int (len + 1)) next
  end.

Definition system_props_length (props : list SystemProperty) : Z :=
  system_props_length_from 0 props.

Fixpoint env_vars_size_from (len : Z) (env : list (list byte)) : Z :=
  match env with
  | [] => len
  | e :: env' =>
      env_vars_size_from (CInt.to_int (len + (Z.of_nat (length e) + 1))) env'
  end.

Definition env_vars_size (env : list (list byte)) : Z := env_vars_size_from 0 env.

(** The text [key=value] of a property. *)
Definition prop_text (p : SystemProperty) : list byte :=
  key p ++ [x3d] ++ value p.

(** [snprintf(prop, size, "%s=%s", key, value)]: the length the text has,
    and the buffer with as much of it as fits and a NUL. *)
Definition snprintf_prop (size : nat) (p : SystemProperty) : Z * list byte :=
  let s := prop_text p in
  (CInt.to_int (Z.of_nat (length s)), firstn (size - 1)%nat s ++ [x00]).

(** The loop over the properties; [None] when the [guarantee] fails. *)
Fixpoint write_props (f : shmfile) (props : list SystemProperty)
    : option (bool * shmfile) :=
  match props with
  | [] => Some (true, f)
  | p :: next =>
      let '(len, prop) := snprintf_prop 4096 p in
      if (0 <? len) && (len <? 4096) then
        let '(ok, f') := write_check_error f prop (len + 1) in
        if negb ok then Some (false, f') else write_props f' next
      else None
  end.

(** The loop over [environ]. *)
Fixpoint write_env (f : shmfile) (env : list (list byte)) : bool * shmfile :=
  match env with
  | [] => (true, f)
  | e :: env' =>
      let '(ok, f') :=
        write_check_error f (e ++ [x00]) (CInt.to_int (Z.of_nat (length e) + 1)) in
      if negb ok then (false, f') else write_env f' env'
  end.

(** [CracRestoreParameters::write_to(fd, props, args, restore_time,
    restore_counter)] with [environ] made explicit. *)
Definition write_to (f : shmfile) (environ : list (list byte))
    (props : list SystemProperty) (args : list byte)
    (restore_time restore_counter : Z) : option (bool * shmfile) :=
  let hdr := mk_header restore_time restore_counter
               (system_props_length props) (env_vars_size environ) in
  let '(ok, f) := write_check_error f (header_bytes hdr) (Z.of_nat sizeof_header) in
  if negb ok then Some (false, f)
  else
    match write_props f props with
    | None => None
    | Some (false, f) => Some (false, f)
    | Some (true, f) =>
        let '(ok, f) := write_env f environ in
        if negb ok then Some (false, f)
        else Some (write_check_error f (args ++ [x00])
                     (CInt.to_int (Z.of_nat (length args) + 1)))
    end.

(** *** [read_from] *)

(** What the descriptor handed to [read_from] delivers: [fstat] fails,
    [read] fails, or the buffer of [st_size] bytes after the read. *)
Inductive shm_source :=
| FstatFails
| ReadFails
| Contents (buf : list byte).

(** The object: [_args] is an offset into [_raw_content]; the entries of
    [_properties] point into it too and are kept as the strings they
    designate. *)
Record t := mk_params {
  _raw_content : option (list byte);
  _properties : list (list byte);
  _args : option nat
}.

Definition empty : t := mk_params None [] None.

(** [args()], as the string the pointer designates. *)
Definition args (p : t) : option (list byte) :=
  match _raw_content p, _args p with
  | Some buf, Some off => cstr_at buf off
  | _, _ => None
  end.

Definition properties (p : t) : list (list byte) := _properties p.

(** The loop over [hdr->_nprops] strings, appending to [_properties]. *)
Fixpoint read_props (buf : list byte) (cursor : nat) (n : nat)
    (props : list (list byte)) : option (list (list byte) * nat) :=
  match n with
  | O => Some (props, cursor)
  | S n' =>
      match cstr_at buf cursor with
      | None => None
      | Some s => read_props buf (cursor + (length s + 1))%nat n' (props ++ [s])
      end
  end.

(** The loop [while (env_mem < env_end)] over the copied environment
    bytes: the strings given to [putenv], in order.  Every round moves on by
    one byte at least, so [fuel] no less than the number of bytes is never
    used up. *)
Fixpoint putenv_walk (fuel : nat) (env_mem : list byte) : option (list (list byte)) :=
  match env_mem with
  | [] => Some []
  | _ :: _ =>
      match fuel with
      | O => None
      | S fuel' =>
          match strlen env_mem with
          | None => None
          | Some n =>
              option_map (cons (firstn n env_mem))
                (putenv_walk fuel' (skipn (n + 1)%nat env_mem))
          end
      end
  end.

Record restored := mk_restored {
  r_params : t;                       (* the object afterwards *)
  r_clock : RestoreClock.t;           (* the restore time statics *)
  r_putenv : list (list byte)         (* the strings given to putenv *)
}.

(** [read_from] returns false, returns true, or reads outside the buffer
    (which the asserts of a debug build catch). *)
Inductive outcome :=
| ReadFalse
| ReadTrue (r : restored)
| ReadOverrun.

Definition read_from (self : t) (src : shm_source) : outcome :=
  match src with
  | FstatFails => ReadFalse
  | ReadFails => ReadFalse
  | Contents buf =>
      if (length buf <? sizeof_header)%nat then ReadOverrun
      else
        let hdr := header_of_bytes buf in
        let clock := RestoreClock.record (_restore_time hdr) (_restore_counter hdr) in
        match read_props buf sizeof_header (Z.to_nat (_nprops hdr)) (_properties self) with
        | None => ReadOverrun
        | Some (props, cursor) =>
            let size := _env_memory_size hdr in
            if (size <? 0) || (Z.of_nat (length buf) <? Z.of_nat cursor + size)
            then ReadOverrun
            else
              let env_mem := firstn (Z.to_nat size) (skipn cursor buf) in
              match putenv_walk (length env_mem) env_mem with
              | None => ReadOverrun
              | Some puts =>
                  ReadTrue (mk_restored
                    (mk_params (Some buf) props (Some (cursor + Z.to_nat size)%nat))
                    clock puts)
              end
        end
  end.

End RestoreParameters.

(** ** The checkpoint operation ([class VM_Crac] and its helpers) *)
Module Crac.
Import Stat Kernel.

(** Modelled from the spec: the enumerations of [jvm.h] that the code
    names are not part of the source at hand (the failure kinds GENERIC,
    FILE, SOCK and PIPE, and the result of a checkpoint); they are kept as
    enumerations, by the names the code uses. *)
Inductive cr_fail_type :=
| JVM_CR_FAIL
| JVM_CR_FAIL_FILE
| JVM_CR_FAIL_SOCK
| JVM_CR_FAIL_PIPE.

Inductive checkpoint_code :=
| JVM_CHECKPOINT_OK
| JVM_CHECKPOINT_ERROR
| JVM_CHECKPOINT_NONE.

(** [si_code] of a signal sent by [sigqueue] (Linux). *)
Definition SI_QUEUE : Z := -1.

Record CracFailDep := mk_fail {
  _type : cr_fail_type;
  _msg : string
}.

(** The flags of the command line the operation reads. *)
Record flags := mk_flags {
  CRaCCheckpointTo : option string;
  CRTrace : bool;
  CRPrintResourcesOnCheckpoint : bool;
  CRHeapDumpOnCheckpointException : bool;
  CRDoThrowCheckpointException : bool;
  CRAllowToSkipCheckpoint : bool;
  CRTraceStartupTime : bool
}.

(** What the operation is told by its surroundings during one attempt. *)
Record world := mk_world {
  w_flags : flags;
  w_sysclasspath : string;          (* Arguments::get_sysclasspath() *)
  w_appclasspath : string;          (* Arguments::get_appclasspath() *)
  w_ext_dirs : string;              (* Arguments::get_ext_dirs() *)
  w_stat : string -> option stat;   (* stat(path) *)
  w_dir : string -> option (list Z);(* d_ino of the entries of a directory;
                                       None when opendir fails *)
  w_raw : nat -> FdsInfo.fdinfo;    (* a fresh array, as allocated *)
  w_sock_details : string -> string;(* sock_details: the look-up of a socket
                                       in /proc/net *)
  w_mkdir_ok : bool;                (* mkdir of the target succeeds, or the
                                       directory exists *)
  w_current_op : option Z;          (* the socket of the attach operation
                                       in progress, if there is one *)
  w_perf_checkpoint : bool;         (* PerfMemoryLinux::checkpoint *)
  w_fork : Z;                       (* fork() as seen by the parent *)
  w_wait_eintr : nat;               (* waitpid calls cut short by EINTR *)
  w_waitpid : Z;                    (* what waitpid returns in the end *)
  w_status : Z;                     (* and the status it stores *)
  w_sig_eintr : nat;                (* sigwaitinfo calls cut short *)
  w_si_code : Z;                    (* siginfo of the restore signal *)
  w_si_int : Z;
  w_millis : Z;                     (* os::javaTimeMillis() after the wait *)
  w_nanos : Z;                      (* os::javaTimeNanos() after the wait *)
  w_shm : Z -> option RestoreParameters.shm_source
                                    (* shm_open of /crac_<id>, read only *)
}.

(** The static state of the process. *)
Record process := mk_process {
  p_kernel : kernel;
  _crengine : option string;
  p_clock : RestoreClock.t;         (* _restore_start_time and _counter *)
  _vm_inited_fds : FdsInfo.t;
  _persistent_resources : Registry.t;
  p_putenv : list (list byte)       (* the strings given to putenv *)
}.

Inductive ostream := Jcmd | Tty.

Record VM_Crac := mk_vm {
  _dry_run : bool;
  _ok : bool;
  _failures : list CracFailDep;
  _restore_parameters : RestoreParameters.t;
  _ostream : ostream;
  _attach_op : option Z
}.

(** [VM_Crac(dry_run, jcmd_stream)] *)
Definition new_VM_Crac (w : world) (dry_run : bool) (jcmd_stream : bool) : VM_Crac :=
  mk_vm dry_run false [] RestoreParameters.empty
    (if jcmd_stream then Jcmd else Tty)
    (if jcmd_stream then w_current_op w else None).

(** The reasons for which a descriptor is let through. *)
Inductive ok_reason :=
| Inherited           (* OK: inherited from process env *)
| RandomDevice        (* OK: always available, random or urandom *)
| InClasspath         (* OK: in classpath *)
| AssuredPersistent   (* OK: assured persistent *)
| JcmdSocket.         (* OK: jcmd socket *)

Inductive resource_line :=
| LineFd (fd : nat) (type : string) (details1 : string)
| LineOk (why : ok_reason)
| LineDetails2 (details : string)
| LineBad.

(** What the operation does that can be seen from outside, in order. *)
Inductive event :=
| EvResources (o : ostream) (l : resource_line)   (* print_resources *)
| EvTraceCr (o : ostream) (msg : string)          (* trace_cr *)
| EvHeapDump
| EvPerfCheckpoint
| EvReportOkToJcmd
| EvCallCrengine
| EvFork
| EvWaitpid
| EvSigwaitinfo
| EvStartupTime
| EvInvalidInfo
| EvShmOpen (id : Z)
| EvShmUnlink (id : Z)
| EvPerfRestore.

(** The kind of an event, and whether an event of some kind occurs in a
    trace. *)
Definition event_kind (e : event) : nat :=
  match e with
  | EvResources _ _ => 0
  | EvTraceCr _ _ => 1
  | EvHeapDump => 2
  | EvPerfCheckpoint => 3
  | EvReportOkToJcmd => 4
  | EvCallCrengine => 5
  | EvFork => 6
  | EvWaitpid => 7
  | EvSigwaitinfo => 8
  | EvStartupTime => 9
  | EvInvalidInfo => 10
  | EvShmOpen _ => 11
  | EvShmUnlink _ => 12
  | EvPerfRestore => 13
  end.

Definition occurs (kind : nat) (tr : list event) : bool :=
  existsb (fun e => Nat.eqb (event_kind e) kind) tr.

(** *** Marking passes *)

Definition table_len (fds : FdsInfo.t) : nat := Z.to_nat (FdsInfo.len fds).

(** [mark_classpath_entry(fds, cp)] *)
Definition mark_classpath_entry (w : world) (fds : FdsInfo.t) (cp : string)
    : FdsInfo.t :=
  match w_stat w cp with
  | None => fds
  | Some st =>
      fold_left
        (fun fds i =>
           if same_stat st (FdsInfo.get_stat fds i)
           then FdsInfo.mark fds i FdsInfo.M_CLASSPATH else fds)
        (seq 0 (table_len fds)) fds
  end.

(** [mark_all_in(fds, dirpath)] *)
Definition mark_all_in (w : world) (fds : FdsInfo.t) (dirpath : string)
    : FdsInfo.t :=
  match w_dir w dirpath with
  | None => fds
  | Some dents =>
      fold_left
        (fun fds d_ino =>
           fold_left
             (fun fds i =>
                if negb (FdsInfo.get_state fds i FdsInfo.INVALID =? FdsInfo.ROOT)
                then fds
                else if d_ino =? st_ino (FdsInfo.get_stat fds i)
                     then FdsInfo.mark fds i FdsInfo.M_CLASSPATH else fds)
             (seq 0 (table_len fds)) fds)
        dents fds
  end.

Definition colon : ascii := Ascii.ascii_of_nat 58.

(** [do_classpaths(fn, fds, classpath)]: [fn] on every component that is
    followed by a colon, [mark_classpath_entry] on the last one.  [cp] is
    the component read so far. *)
Fixpoint do_classpaths_from (w : world) (fn : FdsInfo.t -> string -> FdsInfo.t)
    (fds : FdsInfo.t) (cp : string) (rest : string) : FdsInfo.t :=
  match rest with
  | EmptyString => mark_classpath_entry w fds cp
  | String c rest' =>
      if Ascii.eqb c colon
      then do_classpaths_from w fn (fn fds cp) EmptyString rest'
      else do_classpaths_from w fn fds (cp ++ String c EmptyString) rest'
  end.

Definition do_classpaths (w : world) (fn : FdsInfo.t -> string -> FdsInfo.t)
    (fds : FdsInfo.t) (classpath : string) : FdsInfo.t :=
  do_classpaths_from w fn fds EmptyString classpath.

(** *** The decision on one descriptor *)

Definition stat2strtype (mode : Z) : string :=
  let m := Z.land mode S_IFMT in
  if m =? S_IFSOCK then "socket"
  else if m =? S_IFLNK then "symlink"
  else if m =? S_IFREG then "regular"
  else if m =? S_IFBLK then "block"
  else if m =? S_IFDIR then "directory"
  else if m =? S_IFCHR then "character"
  else if m =? S_IFIFO then "fifo"
  else "unknown".

Definition stat2stfail (mode : Z) : cr_fail_type :=
  let m := Z.land mode S_IFMT in
  if m =? S_IFSOCK then JVM_CR_FAIL_SOCK
  else if (m =? S_IFLNK) || (m =? S_IFREG) || (m =? S_IFBLK)
          || (m =? S_IFDIR) || (m =? S_IFCHR) then JVM_CR_FAIL_FILE
  else if m =? S_IFIFO then JVM_CR_FAIL_PIPE
  else JVM_CR_FAIL.

(** [is_socket_from_jcmd(sock)] *)
Definition is_socket_from_jcmd (self : VM_Crac) (sock : nat) : bool :=
  match _attach_op self with
  | None => false
  | Some sock_fd => Z.of_nat sock =? sock_fd
  end.

Inductive verdict :=
| Skipped                       (* a closed slot *)
| Allowed (why : ok_reason)
| Blocking (f : CracFailDep).

(** One round of the loop of [doit] over the table: what is decided for
    descriptor [i], and the lines [print_resources] is given. *)
Definition doit_fd (w : world) (self : VM_Crac) (p : process)
    (fds : FdsInfo.t) (i : nat) : verdict * list resource_line :=
  if FdsInfo.get_state fds i FdsInfo.INVALID =? FdsInfo.CLOSED then (Skipped, [])
  else
    let '(linkret, detailsbuf) := FdsInfo.readfdlink (p_kernel p) i 128 in
    let details := if 0 <? linkret then detailsbuf else EmptyString in
    let st := FdsInfo.get_stat fds i in
    let line1 := LineFd i (stat2strtype (st_mode st)) details in
    if negb (FdsInfo.get_state (_vm_inited_fds p) i FdsInfo.CLOSED =? FdsInfo.CLOSED)
    then (Allowed Inherited, [line1; LineOk Inherited])
    else
      let mjr := CInt.to_int (major (st_rdev st)) in
      let mnr := CInt.to_int (minor (st_rdev st)) in
      if S_ISCHR (st_mode st) && ((mjr =? 1) && ((mnr =? 8) || (mnr =? 9)))
      then (Allowed RandomDevice, [line1; LineOk RandomDevice])
      else if FdsInfo.check fds i FdsInfo.M_CLASSPATH
              && negb (FdsInfo.check fds i FdsInfo.M_CANT_RESTORE)
      then (Allowed InClasspath, [line1; LineOk InClasspath])
      else if FdsInfo.check fds i FdsInfo.M_PERSISTENT
      then (Allowed AssuredPersistent, [line1; LineOk AssuredPersistent])
      else if S_ISSOCK (st_mode st) && is_socket_from_jcmd self i
      then (Allowed JcmdSocket, [line1; LineOk JcmdSocket])
      else
        let details2 :=
          if S_ISSOCK (st_mode st) then w_sock_details w details else details in
        (Blocking (mk_fail (stat2stfail (Z.land (st_mode st) S_IFMT)) details2),
         line1 :: (if S_ISSOCK (st_mode st) then [LineDetails2 details2] else [])
         ++ [LineBad]).

(** The state of the loop: [ok], [_failures] and what was printed. *)
Record evaluation := mk_eval {
  e_ok : bool;
  e_failures : list CracFailDep;
  e_lines : list resource_line
}.

Definition doit_step (w : world) (self : VM_Crac) (p : process)
    (fds : FdsInfo.t) (e : evaluation) (i : nat) : evaluation :=
  match doit_fd w self p fds i with
  | (Blocking f, lines) =>
      mk_eval false (e_failures e ++ [f]) (e_lines e ++ lines)
  | (_, lines) => mk_eval (e_ok e) (e_failures e) (e_lines e ++ lines)
  end.

(** The loop [for (i = 0; i < fds.len(); ++i)], starting from
    [ok = !_dry_run]. *)
Definition doit_evaluate (w : world) (self : VM_Crac) (p : process)
    (fds : FdsInfo.t) : evaluation :=
  fold_left (doit_step w self p fds) (seq 0 (table_len fds))
    (mk_eval (negb (_dry_run self)) (_failures self) []).

(** [print_resources]: the lines reach the stream when the flag is set. *)
Definition print_resources (w : world) (self : VM_Crac)
    (lines : list resource_line) : list event :=
  if CRPrintResourcesOnCheckpoint (w_flags w)
  then map (EvResources (_ostream self)) lines else [].

(** [trace_cr] *)
Definition trace_cr (w : world) (self : VM_Crac) (msg : string) : list event :=
  if CRTrace (w_flags w) then [EvTraceCr (_ostream self) msg] else [].

(** *** The engine *)

Definition WIFEXITED (status : Z) : bool := Z.land status 127 =? 0.
Definition WEXITSTATUS (status : Z) : Z := Z.shiftr (Z.land status 65280) 8.

(** The loop [do ret = waitpid(...) while (ret == -1 && errno == EINTR)]:
    one call for every interruption, and the one that ends it. *)
Fixpoint eintr_loop (e : event) (eintr : nat) : list event :=
  match eintr with
  | O => [e]
  | S n => e :: eintr_loop e n
  end.

(** [call_crengine()], in the parent: the value returned and what was
    done.  The child replaces itself by the engine, or exits with status 1
    when it cannot; the parent sees either in [status]. *)
Definition call_crengine (w : world) (p : process) : Z * list event :=
  match _crengine p with
  | None => (-1, [])
  | Some _ =>
      let pid := w_fork w in
      if pid =? -1 then (-1, [EvFork])
      else
        let waits := eintr_loop EvWaitpid (w_wait_eintr w) in
        let ret := w_waitpid w in
        let status := w_status w in
        if (ret =? -1) || negb (WIFEXITED status) then (-1, EvFork :: waits)
        else ((if WEXITSTATUS status =? 0 then 0 else -1), EvFork :: waits)
  end.

(** [checkpoint_restore(&shmid)]: the code returned, [shmid] afterwards
    and what was done. *)
Definition checkpoint_restore (w : world) (p : process) (shmid : Z)
    : checkpoint_code * Z * list event :=
  let '(cres, evs) := call_crengine w p in
  let evs := EvCallCrengine :: evs in
  if cres <? 0 then (JVM_CHECKPOINT_ERROR, shmid, evs)
  else
    let evs := evs ++ eintr_loop EvSigwaitinfo (w_sig_eintr w) in
    let evs := if CRTraceStartupTime (w_flags w) then evs ++ [EvStartupTime] else evs in
    if negb (w_si_code w =? SI_QUEUE) || (w_si_int w <? 0)
    then (JVM_CHECKPOINT_ERROR, shmid, evs ++ [EvInvalidInfo])
    else
      let shmid := if 0 <? w_si_int w then w_si_int w else shmid in
      (JVM_CHECKPOINT_OK, shmid, evs).

(** *** [VM_Crac::doit] *)

Record result := mk_result {
  res_vm : VM_Crac;             (* the operation object afterwards *)
  res_process : process;        (* the statics afterwards *)
  res_trace : list event;       (* what was done, in order *)
  res_aborted : bool            (* the VM stopped on a failed guarantee or
                                   a read outside a buffer *)
}.

Definition with_kernel (p : process) (k : kernel) : process :=
  mk_process k (_crengine p) (p_clock p) (_vm_inited_fds p)
    (_persistent_resources p) (p_putenv p).

Definition with_registry (p : process) (r : Registry.t) : process :=
  mk_process (p_kernel p) (_crengine p) (p_clock p) (_vm_inited_fds p)
    r (p_putenv p).

Definition with_clock (p : process) (c : RestoreClock.t) : process :=
  mk_process (p_kernel p) (_crengine p) c (_vm_inited_fds p)
    (_persistent_resources p) (p_putenv p).

Definition with_putenv (p : process) (l : list (list byte)) : process :=
  mk_process (p_kernel p) (_crengine p) (p_clock p) (_vm_inited_fds p)
    (_persistent_resources p) (p_putenv p ++ l).

Definition with_failures (self : VM_Crac) (l : list CracFailDep) : VM_Crac :=
  mk_vm (_dry_run self) (_ok self) l (_restore_parameters self)
    (_ostream self) (_attach_op self).

Definition with_ok (self : VM_Crac) (b : bool) : VM_Crac :=
  mk_vm (_dry_run self) b (_failures self) (_restore_parameters self)
    (_ostream self) (_attach_op self).

Definition with_parameters (self : VM_Crac) (r : RestoreParameters.t) : VM_Crac :=
  mk_vm (_dry_run self) (_ok self) (_failures self) r
    (_ostream self) (_attach_op self).

(** [os::Linux::vm_create_start()]: the snapshot of the descriptors open
    when the VM starts; [None] when [initialize] stops on its guarantee. *)
Definition vm_create_start (w : world) (p : process) : option process :=
  match CRaCCheckpointTo (w_flags w) with
  | None => Some p
  | Some _ =>
      match FdsInfo.initialize (p_kernel p) (w_raw w) with
      | None => None
      | Some (fds, k) =>
          Some (mk_process k (_crengine p) (p_clock p) fds
                  (_persistent_resources p) (p_putenv p))
      end
  end.

(** [report_ok_to_jcmd_if_any()] *)
Definition report_ok_to_jcmd_if_any (self : VM_Crac) : VM_Crac * list event :=
  match _attach_op self with
  | None => (self, [])
  | Some _ =>
      (mk_vm (_dry_run self) (_ok self) (_failures self)
         (_restore_parameters self) Tty (_attach_op self),
       [EvReportOkToJcmd])
  end.

(** [read_shm(shmid)]: [None] when [read_from] leaves its buffer. *)
Definition read_shm (w : world) (self : VM_Crac) (p : process) (shmid : Z)
    : option (bool * VM_Crac * process) * list event :=
  let evs := [EvShmOpen shmid; EvShmUnlink shmid] in
  match w_shm w shmid with
  | None => (Some (false, self, p), evs)
  | Some src =>
      match RestoreParameters.read_from (_restore_parameters self) src with
      | RestoreParameters.ReadFalse => (Some (false, self, p), evs)
      | RestoreParameters.ReadOverrun => (None, evs)
      | RestoreParameters.ReadTrue r =>
          (Some (true,
                 with_parameters self (RestoreParameters.r_params r),
                 with_putenv (with_clock p (RestoreParameters.r_clock r))
                   (RestoreParameters.r_putenv r)),
           evs)
      end
  end.

(** The part of [doit] before the loop: the table is built and marked. *)
Definition doit_prepare (w : world) (p : process) : option (FdsInfo.t * process) :=
  match FdsInfo.initialize (p_kernel p) (w_raw w) with
  | None => None
  | Some (fds, k) =>
      let p := with_kernel p k in
      let fds := do_classpaths w (mark_classpath_entry w) fds (w_sysclasspath w) in
      let fds := do_classpaths w (mark_classpath_entry w) fds (w_appclasspath w) in
      let fds := do_classpaths w (mark_all_in w) fds (w_ext_dirs w) in
      match Registry.mark_persistent fds (_persistent_resources p) with
      | None => None
      | Some (fds, reg) => Some (fds, with_registry p reg)
      end
  end.

(** The part of [doit] after the loop, [ok] being its local variable. *)
Definition doit_finish (w : world) (self : VM_Crac) (p : process) (ok : bool)
    : result :=
  let fl := w_flags w in
  let tr := if negb ok && CRHeapDumpOnCheckpointException fl then [EvHeapDump] else [] in
  if negb ok && CRDoThrowCheckpointException fl then mk_result self p tr false
  else
    let tr := tr ++ [EvPerfCheckpoint] in
    if negb (w_perf_checkpoint w) then mk_result self p tr false
    else
      let shmid := 0 in
      let '(stop, self, shmid, tr) :=
        if CRAllowToSkipCheckpoint fl
        then (false, self, shmid, tr ++ trace_cr w self "Skip Checkpoint")
        else
          let tr := tr ++ trace_cr w self "Checkpoint ..." in
          let '(self, evs) := report_ok_to_jcmd_if_any self in
          let tr := tr ++ evs in
          let '(ret, shmid, evs) := checkpoint_restore w p shmid in
          match ret with
          | JVM_CHECKPOINT_ERROR => (true, self, shmid, tr ++ evs)
          | _ => (false, self, shmid, tr ++ evs)
          end in
      if stop then mk_result self p (tr ++ [EvPerfRestore]) false
      else
        let now := RestoreClock.record (w_millis w) (w_nanos w) in
        if shmid <=? 0
        then mk_result (with_ok self true) (with_clock p now)
               (tr ++ [EvPerfRestore]) false
        else
          match read_shm w self p shmid with
          | (None, evs) => mk_result self p (tr ++ evs) true
          | (Some (false, self, p), evs) =>
              mk_result (with_ok self true) (with_clock p now)
                (tr ++ evs ++ [EvPerfRestore]) false
          | (Some (true, self, p), evs) =>
              mk_result (with_ok self true) p (tr ++ evs ++ [EvPerfRestore]) false
          end.

(** [VM_Crac::doit()] *)
Definition doit (w : world) (self : VM_Crac) (p : process) : result :=
  match doit_prepare w p with
  | None => mk_result self p [] true
  | Some (fds, p) =>
      let e := doit_evaluate w self p fds in
      let self := with_failures self (e_failures e) in
      let r := doit_finish w self p (e_ok e) in
      mk_result (res_vm r) (res_process r)
        (print_resources w self (e_lines e) ++ res_trace r) (res_aborted r)
  end.

(** *** [os::Linux::checkpoint] *)

(** The five slots of the array [ret_cr] builds. *)
Record bundle := mk_bundle {
  b_ret : checkpoint_code;
  b_new_args : option (list byte);
  b_new_props : list (list byte);
  b_err_codes : list cr_fail_type;
  b_err_msgs : list string
}.

Definition checkpoint (w : world) (p : process) (dry_run : bool)
    (jcmd_stream : bool) : bundle * result :=
  let idle := mk_result (new_VM_Crac w dry_run jcmd_stream) p [] false in
  match CRaCCheckpointTo (w_flags w) with
  | None => (mk_bundle JVM_CHECKPOINT_NONE None [] [] [], idle)
  | Some _ =>
      if negb (w_mkdir_ok w)
      then (mk_bundle JVM_CHECKPOINT_NONE None [] [] [], idle)
      else
        let r := doit w (new_VM_Crac w dry_run jcmd_stream) p in
        let cr := res_vm r in
        if _ok cr
        then (mk_bundle JVM_CHECKPOINT_OK
                (RestoreParameters.args (_restore_parameters cr))
                (RestoreParameters.properties (_restore_parameters cr)) [] [], r)
        else (mk_bundle JVM_CHECKPOINT_ERROR None []
                (map _type (_failures cr)) (map _msg (_failures cr)), r)
  end.

End Crac.

(** ** Predicates used to state the properties *)
Module Props.
Import Stat Kernel.

(** What [fcntl] may have made of [k]: the open descriptors of [k] are
    open in [k'] on the same descriptions, with the same links; descriptors
    opened meanwhile refer to descriptions of [k]; status flags and
    descriptor flags may differ. *)
Definition kframe (k k' : kernel) : Prop :=
  (forall fd id, k_fd k fd = Some id -> k_fd k' fd = Some id) /\
  (forall fd id, k_fd k' fd = Some id -> exists fd0, k_fd k fd0 = Some id) /\
  (forall id, o_stat (k_ofd k' id) = o_stat (k_ofd k id)) /\
  (forall id, o_setfl (k_ofd k' id) = o_setfl (k_ofd k id)) /\
  (forall fd, k_fd k fd <> None -> k_readlink k' fd = k_readlink k fd) /\
  k_open_max k' = k_open_max k.

(** [m] is the lowest descriptor that refers to description [id]. *)
Definition lowest (k : kernel) (id : nat) (m : nat) : Prop :=
  k_fd k m = Some id /\ forall j, (j < m)%nat -> k_fd k j <> Some id.


(** What [initialize] has settled about descriptor [x] of table [l]; [k0]
    is the kernel state it started from and [kc] the state reached.  A
    descriptor that was closed at the start is CLOSED, unless it has been
    opened since and the probe took it for a duplicate; one that was open is
    canonical or a duplicate of a lower canonical descriptor of its
    description. *)
Definition classified (k0 kc : kernel) (l : list FdsInfo.fdinfo) (x : nat) : Prop :=
  (k_fd k0 x = None ->
     FdsInfo.state (FdsInfo.at_ l x) = FdsInfo.CLOSED \/
     exists j id, (j < x)%nat /\
       FdsInfo.state (FdsInfo.at_ l x) = FdsInfo.DUP_OF_0 + Z.of_nat j /\
       FdsInfo.state (FdsInfo.at_ l j) = FdsInfo.ROOT /\
       k_fd k0 j = Some id /\ k_fd kc x = Some id) /\
  (forall id, k_fd k0 x = Some id ->
     FdsInfo.state (FdsInfo.at_ l x) = FdsInfo.ROOT \/
     exists j, (j < x)%nat /\
       FdsInfo.state (FdsInfo.at_ l x) = FdsInfo.DUP_OF_0 + Z.of_nat j /\
       k_fd k0 j = Some id /\
       FdsInfo.state (FdsInfo.at_ l j) = FdsInfo.ROOT) /\
  (forall id, lowest k0 id x -> FdsInfo.state (FdsInfo.at_ l x) = FdsInfo.ROOT) /\
  (forall id m, k_fd k0 x = Some id -> o_setfl (k_ofd k0 id) = true ->
     lowest k0 id m -> m <> x ->
     FdsInfo.state (FdsInfo.at_ l x) = FdsInfo.DUP_OF_0 + Z.of_nat m) /\
  (forall id, k_fd k0 x = Some id -> o_setfl (k_ofd k0 id) = false ->
     FdsInfo.state (FdsInfo.at_ l x) = FdsInfo.ROOT).

(** The loop invariant of the second loop of [initialize] before
    descriptor [i], [l0] being the table after the first loop. *)
Definition classify_inv (k0 : kernel) (l0 : list FdsInfo.fdinfo)
    (i : nat) (l : list FdsInfo.fdinfo) (k : kernel) : Prop :=
  length l = length l0 /\
  kframe k0 k /\
  (forall x, FdsInfo.stat_of (FdsInfo.at_ l x) = FdsInfo.stat_of (FdsInfo.at_ l0 x)) /\
  (forall x, (i <= x)%nat ->
     FdsInfo.state (FdsInfo.at_ l x) = FdsInfo.state (FdsInfo.at_ l0 x)) /\
  (forall x, (x < i)%nat -> classified k0 k l x).


End Props.

(** ** Predicates on the restore parameter block *)
Module BlockProps.
Import RestoreParameters.


(** The packed form of a list of strings: each followed by its NUL. *)
Definition packed (l : list (list byte)) : list byte :=
  concat (map (fun s => s ++ [x00]) l).


End BlockProps.

(** ** The rules of the resource policy, in words *)
Module Policy.
Import Stat Crac.

(** Rule 1: the descriptor number was open in the snapshot taken when the
    VM started. *)
Definition in_baseline (p : process) (i : nat) : Prop :=
  FdsInfo.get_state (_vm_inited_fds p) i FdsInfo.CLOSED <> FdsInfo.CLOSED.

Definition has_type (st : stat) (type : Z) : Prop :=
  Z.land (st_mode st) S_IFMT = type.

(** Rule 2: a character device with major number 1 and minor number 8 or 9. *)
Definition random_device (st : stat) : Prop :=
  has_type st S_IFCHR /\ major (st_rdev st) = 1 /\
  (minor (st_rdev st) = 8 \/ minor (st_rdev st) = 9).

(** Rule 3: marked CLASSPATH and not marked CANT_RESTORE. *)
Definition restorable_classpath (fds : FdsInfo.t) (i : nat) : Prop :=
  FdsInfo.check fds i FdsInfo.M_CLASSPATH = true /\
  FdsInfo.check fds i FdsInfo.M_CANT_RESTORE = false.

(** Rule 4: marked PERSISTENT. *)
Definition persistent (fds : FdsInfo.t) (i : nat) : Prop :=
  FdsInfo.check fds i FdsInfo.M_PERSISTENT = true.

(** Rule 5: a socket, and the one of the attach operation. *)
Definition jcmd_socket (self : VM_Crac) (st : stat) (i : nat) : Prop :=
  has_type st S_IFSOCK /\ _attach_op self = Some (Z.of_nat i).

(** The failure kind that goes with a file type. *)
Definition kind_for (st : stat) (kind : cr_fail_type) : Prop :=
  (has_type st S_IFSOCK -> kind = JVM_CR_FAIL_SOCK) /\
  (has_type st S_IFLNK \/ has_type st S_IFREG \/ has_type st S_IFBLK \/
   has_type st S_IFDIR \/ has_type st S_IFCHR -> kind = JVM_CR_FAIL_FILE) /\
  (has_type st S_IFIFO -> kind = JVM_CR_FAIL_PIPE) /\
  (~ has_type st S_IFSOCK -> ~ has_type st S_IFLNK -> ~ has_type st S_IFREG ->
   ~ has_type st S_IFBLK -> ~ has_type st S_IFDIR -> ~ has_type st S_IFCHR ->
   ~ has_type st S_IFIFO -> kind = JVM_CR_FAIL).

(** The failure records of the descriptors [l], in order. *)
Definition blocked (w : world) (self : VM_Crac) (p : process)
    (fds : FdsInfo.t) (l : list nat) : list CracFailDep :=
  flat_map (fun i => match fst (doit_fd w self p fds i) with
                     | Blocking f => [f]
                     | _ => []
                     end) l.

(** The reading of the result of the evaluation as "no failure, or a dry
    run". *)
Definition ok_iff_clean_or_dry_run (w : world) (p : process)
    (fds : FdsInfo.t) (dry_run jcmd_stream : bool) : Prop :=
  let e := doit_evaluate w (new_VM_Crac w dry_run jcmd_stream) p fds in
  e_ok e = true <-> (e_failures e = [] \/ dry_run = true).

(** The engine was started: the process forked for it. *)
Definition engine_invoked (r : result) : Prop := In EvFork (res_trace r).

(** The wait for the restore signal was entered. *)
Definition signal_wait_entered (r : result) : Prop :=
  In EvSigwaitinfo (res_trace r).

(** The reading of the dry run as independent of the flags. *)
Definition dry_run_never_invokes (w : world) (p : process) : Prop :=
  forall jcmd_stream,
    let r := doit w (new_VM_Crac w true jcmd_stream) p in
    ~ engine_invoked r /\ ~ signal_wait_entered r.

(** A trace of the steps around the engine only: tracing, the heap dump,
    the checkpoint of the performance memory and the answer to jcmd. *)
Definition quiet (tr : list event) : Prop :=
  forall k, k <> 1%nat -> k <> 2%nat -> k <> 3%nat -> k <> 4%nat ->
    occurs k tr = false.

(** The engine did not come to a good end: no engine is configured, the
    fork fails, waiting for the child fails, the child ends otherwise than
    by exiting (a child that cannot execute the engine exits with status
    1), or it exits with a status other than zero. *)
Definition engine_failed (w : world) (p : process) : Prop :=
  _crengine p = None \/ w_fork w = -1 \/ w_waitpid w = -1 \/
  WIFEXITED (w_status w) = false \/ WEXITSTATUS (w_status w) <> 0.

End Policy.

(** ** Sample processes *)
Module Samples.
Import Stat Kernel.

Definition tty_stat : stat := mk_stat 25 3 1 (S_IFCHR + 400) 34816.
Definition file_stat : stat := mk_stat 2049 1234 1 (S_IFREG + 420) 0.

(** O_RDWR | O_LARGEFILE and O_RDONLY | O_LARGEFILE *)
Definition rdwr : N := 32770.
Definition rdonly : N := 32768.

Definition raw0 : nat -> FdsInfo.fdinfo := fun _ => FdsInfo.default_fdinfo.

(** Descriptors 0 and 2 are duplicates of one description of the terminal;
    descriptor 1 is closed; descriptor 3 is a file. *)
Definition k_dup : kernel :=
  mk_kernel 8
    (fun fd => match fd with
               | 0%nat => Some 0%nat
               | 2%nat => Some 0%nat
               | 3%nat => Some 1%nat
               | _ => None
               end)
    (fun id => match id with
               | 0%nat => mk_ofd tty_stat rdwr true
               | _ => mk_ofd file_stat rdonly true
               end)
    (fun fd => match fd with
               | 3%nat => Some "/tmp/data"%string
               | _ => Some "/dev/pts/0"%string
               end)
    (fun _ => false)
    0.


(** A process with the terminal on descriptors 0 to 2 since the VM started,
    /dev/urandom on 3, a jar of the class path on 5, a file of the
    application on 6, a socket on 7 and a pipe on 8. *)
Definition urandom_stat : stat := mk_stat 5 9 1 (S_IFCHR + 438) 265.
Definition jar_stat : stat := mk_stat 2049 77 1 (S_IFREG + 420) 0.
Definition sock_stat : stat := mk_stat 8 555 1 (S_IFSOCK + 511) 0.
Definition pipe_stat : stat := mk_stat 12 666 1 (S_IFIFO + 384) 0.

Definition k_app : kernel :=
  mk_kernel 16
    (fun fd => match fd with
               | 0%nat => Some 0%nat
               | 1%nat => Some 1%nat
               | 2%nat => Some 2%nat
               | 3%nat => Some 3%nat
               | 5%nat => Some 5%nat
               | 6%nat => Some 6%nat
               | 7%nat => Some 7%nat
               | 8%nat => Some 8%nat
               | _ => None
               end)
    (fun id => match id with
               | 0%nat | 1%nat | 2%nat => mk_ofd tty_stat rdwr true
               | 3%nat => mk_ofd urandom_stat rdonly true
               | 5%nat => mk_ofd jar_stat rdonly true
               | 6%nat => mk_ofd file_stat rdonly true
               | 7%nat => mk_ofd sock_stat rdwr true
               | _ => mk_ofd pipe_stat rdonly true
               end)
    (fun fd => match fd with
               | 3%nat => Some "/dev/urandom"%string
               | 5%nat => Some "/app/app.jar"%string
               | 6%nat => Some "/tmp/data"%string
               | 7%nat => Some "socket:[555]"%string
               | 8%nat => Some "pipe:[666]"%string
               | _ => Some "/dev/pts/0"%string
               end)
    (fun _ => false)
    0.

(** The snapshot of the start: descriptors 0 to 2. *)
Definition baseline : FdsInfo.t :=
  Some [FdsInfo.mk_fdinfo tty_stat FdsInfo.ROOT 0 0;
        FdsInfo.mk_fdinfo tty_stat FdsInfo.ROOT 0 0;
        FdsInfo.mk_fdinfo tty_stat FdsInfo.ROOT 0 0].

Definition p_app : Crac.process :=
  Crac.mk_process k_app (Some "/jdk/lib/criu"%string) RestoreClock.initial
    baseline None [].

Definition flags_of_mode (throw skip : bool) : Crac.flags :=
  Crac.mk_flags (Some "cr"%string) false false false throw skip false.

(** An attempt in which the engine exits with status 0 and the restore
    signal comes queued with the value [si_int]. *)
Definition w_app (throw skip : bool) (status si_int : Z) : Crac.world :=
  Crac.mk_world (flags_of_mode throw skip)
    "/jdk/lib/modules" "/app/app.jar" EmptyString
    (fun path => if String.eqb path "/app/app.jar" then Some jar_stat else None)
    (fun _ => None)
    raw0
    (fun details => details)
    true None true
    4242 0 4242 status
    0 Crac.SI_QUEUE si_int
    1700000000000 5000
    (fun _ => None).

(** A process that has nothing open but the terminal of the start. *)
Definition k_stdio : kernel :=
  mk_kernel 16
    (fun fd => match fd with
               | 0%nat => Some 0%nat
               | 1%nat => Some 1%nat
               | 2%nat => Some 2%nat
               | _ => None
               end)
    (fun _ => mk_ofd tty_stat rdwr true)
    (fun _ => Some "/dev/pts/0"%string)
    (fun _ => false)
    0.

Definition p_stdio : Crac.process :=
  Crac.mk_process k_stdio (Some "/jdk/lib/criu"%string) RestoreClock.initial
    baseline None [].

Definition fds_stdio : FdsInfo.t :=
  match Crac.doit_prepare (w_app true false 0 0) p_stdio with
  | Some (fds, _) => fds
  | None => None
  end.

(** The table of that process when the loop of [doit] starts. *)
Definition fds_app : FdsInfo.t :=
  match Crac.doit_prepare (w_app true false 0 0) p_app with
  | Some (fds, _) => fds
  | None => None
  end.

(** A restore parameter block: one property [k=v], the environment
    [a=b] and [c], the argument string [zz]. *)
Definition seg0 : RestoreParameters.shmfile := RestoreParameters.mk_shm [] 0 4096.
Definition props0 : list RestoreParameters.SystemProperty :=
  [RestoreParameters.mk_prop [x6b] [x76]].
Definition environ0 : list (list byte) := [[x61; x3d; x62]; [x63]].
Definition args0 : list byte := [x7a; x7a].

(** The segment a restoring process leaves for the process of number 4242,
    and an attempt whose restore signal carries that number. *)
Definition block0 : RestoreParameters.shm_source :=
  match RestoreParameters.write_to seg0 environ0 props0 args0 1700000000123 6000 with
  | Some (_, f) => RestoreParameters.Contents (RestoreParameters.sh_data f)
  | None => RestoreParameters.ReadFails
  end.

Definition w_block : Crac.world :=
  Crac.mk_world (flags_of_mode true false)
    "/jdk/lib/modules" "/app/app.jar" EmptyString
    (fun path => if String.eqb path "/app/app.jar" then Some jar_stat else None)
    (fun _ => None)
    raw0
    (fun details => details)
    true None true
    4242 0 4242 0
    0 Crac.SI_QUEUE 4242
    1700000000000 5000
    (fun id => if id =? 4242 then Some block0 else None).

End Samples.

(** ** Further predicates: the registry *)
Module RegistryProps.
Import Registry.

(** The entries come by increasing descriptor number, none twice. *)
Definition increasing (l : list PersistentResourceDesc) : Prop :=
  StronglySorted (fun a b => _fd a < _fd b) l.



Definition size (reg : Registry.t) : nat :=
  match reg with
  | None => O
  | Some l => length l
  end.

(** The list [register_persistent_fd] makes of [l], by recursion on [l]. *)
Fixpoint place (l : list PersistentResourceDesc) (d : PersistentResourceDesc)
    : list PersistentResourceDesc :=
  match l with
  | [] => [d]
  | pr :: l' =>
      if _fd pr =? _fd d then d :: l'
      else if _fd d <? _fd pr then d :: pr :: l'
      else pr :: place l' d
  end.

(** Whether the registry asks for descriptor [i] with the stat result [st]. *)
Definition asks_for (l : list PersistentResourceDesc) (i : nat) (st : Stat.stat)
    : bool :=
  existsb (fun pr => (_fd pr =? Z.of_nat i)
                     && (Stat.st_dev st =? _st_dev pr)
                     && (Stat.st_ino st =? _st_ino pr)) l.

(** An entry as the constructor makes it from its [int] arguments. *)
Definition made_from_ints (pr : PersistentResourceDesc) : Prop :=
  exists st_dev st_ino,
    CInt.is_int st_dev /\ CInt.is_int st_ino /\
    _st_dev pr = CInt.to_u64 st_dev /\ _st_ino pr = CInt.to_u64 st_ino.

End RegistryProps.

(** ** Further predicates: the descriptor table *)
Module InitProps.
Import Stat Kernel FdsInfo.

(** The test [initialize] makes on a ROOT descriptor before it marks it
    [M_CANT_RESTORE]; [st] is the stat result kept in the table. *)
Definition cant_restore (k : kernel) (st : stat) (i : nat) : bool :=
  let fdpath := snd (readfdlink k i PATH_MAX) in
  (st_nlink st =? 0) || strstr fdpath "(deleted)" || nfs_silly_rename fdpath.

(** The marks before descriptor [i] of the second loop of [initialize];
    [l0] is the table after the first loop. *)
Definition marks_inv (k0 : kernel) (l0 : list fdinfo) (i : nat)
    (l : list fdinfo) : Prop :=
  (forall x, (i <= x)%nat -> mark_of (at_ l x) = mark_of (at_ l0 x)) /\
  (forall x, (x < i)%nat ->
     mark_of (at_ l x)
     = if (state (at_ l x) =? ROOT) && cant_restore k0 (stat_of (at_ l x)) x
       then Z.lor (mark_of (at_ l0 x)) M_CANT_RESTORE
       else mark_of (at_ l0 x)).

End InitProps.

(** ** Further predicates: strings and marking passes *)
Module PathProps.
Import Stat FdsInfo.

(** The character [c] occurs in [s]. *)
Fixpoint contains (c : ascii) (s : string) : bool :=
  match s with
  | EmptyString => false
  | String c' s' => Ascii.eqb c' c || contains c s'
  end.

(** Every character of [s] is a hexadecimal digit. *)
Fixpoint all_xdigits (s : string) : bool :=
  match s with
  | EmptyString => true
  | String c s' => isxdigit c && all_xdigits s'
  end.

(** Table [l'] has the slots of [l], up to their marks. *)
Definition same_shape (l l' : list fdinfo) : Prop :=
  length l' = length l /\
  forall x, stat_of (at_ l' x) = stat_of (at_ l x) /\
            state (at_ l' x) = state (at_ l x).

End PathProps.

(** ** Further predicates: the restore parameter block *)
Module BlockSize.
Import RestoreParameters BlockProps.

(** The bytes [write_to] has to write: the header, every property and
    every environment string with its NUL, and the arguments with theirs. *)
Definition block_size (environ : list (list byte))
    (props : list SystemProperty) (args : list byte) : nat :=
  sizeof_header + length (packed (map prop_text props))
  + length (packed environ) + (length args + 1).

End BlockSize.

(** ** The order of the steps of an attempt *)
Module Protocol.
Import Crac.

(** The place of a step in [VM_Crac::doit]. *)
Definition phase (e : event) : nat :=
  match e with
  | EvResources _ _ => 0
  | EvHeapDump => 1
  | EvPerfCheckpoint => 2
  | EvTraceCr _ _ => 3
  | EvReportOkToJcmd => 4
  | EvCallCrengine => 5
  | EvFork => 6
  | EvWaitpid => 7
  | EvSigwaitinfo => 8
  | EvStartupTime => 9
  | EvInvalidInfo => 10
  | EvShmOpen _ => 11
  | EvShmUnlink _ => 12
  | EvPerfRestore => 13
  end.

(** The steps made in a loop: a line of the resource listing, and the calls
    of [waitpid] and [sigwaitinfo] that are repeated when interrupted. *)
Definition repeatable (e : event) : bool :=
  match e with
  | EvResources _ _ | EvWaitpid | EvSigwaitinfo => true
  | _ => false
  end.

(** Step [b] may come after step [a]. *)
Definition follows (a b : event) : Prop :=
  (phase a < phase b)%nat \/ (phase a = phase b /\ repeatable a = true).

Definition in_order (tr : list event) : Prop := StronglySorted follows tr.

(** A trace in order whose steps have their places from [lo] to below
    [hi]. *)
Definition seg (lo hi : nat) (tr : list event) : Prop :=
  in_order tr /\ Forall (fun e => (lo <= phase e < hi)%nat) tr.

End Protocol.

(** ** Further sample data *)
Module MoreSamples.

(** A table of two ROOT slots, and a registry that asks for the second. *)
Definition two_roots : list FdsInfo.fdinfo :=
  [FdsInfo.mk_fdinfo (Stat.mk_stat 1 10 1 0 0) FdsInfo.ROOT 0 0;
   FdsInfo.mk_fdinfo (Stat.mk_stat 1 11 1 0 0) FdsInfo.ROOT 0 0].

Definition one_entry : list Registry.PersistentResourceDesc :=
  [Registry.desc 1 1 11].

(** Descriptors 0 and 1 are the read end of one pipe, whose status flags
    are O_RDONLY alone; descriptor 2 is closed and descriptor 3 is a file.
    The array that [initialize] allocates holds, in every slot, a stat result
    like that of the pipe. *)
Definition k_pipe : Kernel.kernel :=
  Kernel.mk_kernel 8
    (fun fd => match fd with
               | 0%nat => Some 0%nat
               | 1%nat => Some 0%nat
               | 3%nat => Some 1%nat
               | _ => None
               end)
    (fun id => match id with
               | 0%nat => Kernel.mk_ofd Samples.pipe_stat 0 true
               | _ => Kernel.mk_ofd Samples.file_stat Samples.rdonly true
               end)
    (fun fd => match fd with
               | 3%nat => Some "/tmp/data"%string
               | _ => Some "pipe:[666]"%string
               end)
    (fun _ => false)
    0.

Definition raw_stale : nat -> FdsInfo.fdinfo :=
  fun _ => FdsInfo.mk_fdinfo Samples.pipe_stat FdsInfo.INVALID 0 0.

End MoreSamples.

(** ** [os::compare_file_modified_times] *)
Module FileTimes.

(** [struct timespec]: [time_t] and [long] are 64-bit integers. *)
Record timespec := mk_timespec {
  tv_sec : Z;
  tv_nsec : Z
}.

(** [get_mtime(filename)]: the field [st_mtim] of what [stat] gives;
    [mtime] answers for the file system. *)
Definition get_mtime (mtime : string -> timespec) (filename : string) : timespec :=
  mtime filename.

(** The differences are computed on 64 bits and converted to [int]. *)
Definition compare_file_modified_times (mtime : string -> timespec)
    (file1 file2 : string) : Z :=
  let filetime1 := get_mtime mtime file1 in
  let filetime2 := get_mtime mtime file2 in
  let diff := CInt.to_int (CInt.to_jlong (tv_sec filetime1 - tv_sec filetime2)) in
  if diff =? 0
  then CInt.to_int (CInt.to_jlong (tv_nsec filetime1 - tv_nsec filetime2))
  else diff.

(** [file1] was modified before [file2]. *)
Definition older (mtime : string -> timespec) (file1 file2 : string) : Prop :=
  tv_sec (mtime file1) < tv_sec (mtime file2) \/
  (tv_sec (mtime file1) = tv_sec (mtime file2) /\
   tv_nsec (mtime file1) < tv_nsec (mtime file2)).

End FileTimes.

(** ** [get_stack_commited_bottom] *)
Module StackBottom.

(** What [mincore] answers for one page: 0, or -1 with [errno] ENOMEM
    (the page is not mapped) or EAGAIN. *)
Inductive mincore_result :=
| InCore
| Enomem
| Eagain.

(** [unsigned] and [address] arithmetic. *)
Definition u32 (x : Z) : Z := x mod 2 ^ 32.
Definition uptr (x : Z) : Z := x mod 2 ^ 64.

(** The loop [while (imin < imax)]: [nbot] and [mincore_return_value] when
    it ends, [None] when it has not ended within [fuel] rounds.  [mincore]
    is given the number of the call and the address. *)
Fixpoint search (fuel : nat) (mincore : nat -> Z -> mincore_result)
    (ntop page_sz : Z) (imin imax nbot mincore_return_value : Z) (calls : nat)
    : option (Z * Z) :=
  match fuel with
  | O => None
  | S fuel' =>
      if imin <? imax then
        let imid := u32 (imax + imin) / 2 in
        let nbot := uptr (ntop - uptr (imid * page_sz)) in
        match mincore calls nbot with
        | InCore =>
            search fuel' mincore ntop page_sz (u32 (imid + 1)) imax nbot 0 (S calls)
        | Enomem =>
            search fuel' mincore ntop page_sz imin imid nbot (-1) (S calls)
        | Eagain =>
            search fuel' mincore ntop page_sz imin imax nbot (-1) (S calls)
        end
      else Some (nbot, mincore_return_value)
  end.

Definition get_stack_commited_bottom (fuel : nat)
    (mincore : nat -> Z -> mincore_result) (page_sz : Z) (bottom size : Z)
    : option Z :=
  let nbot := bottom in
  let ntop := uptr (bottom + size) in
  let pages := u32 (size / page_sz) in
  match search fuel mincore ntop page_sz 1 (u32 (pages + 1)) nbot 0 0 with
  | None => None
  | Some (nbot, mincore_return_value) =>
      let nbot := uptr (nbot + page_sz) in
      Some (if mincore_return_value =? -1 then uptr (nbot + page_sz) else nbot)
  end.

(** The pages of the stack are counted from its top: page [i] starts at
    [ntop - i * page_sz].  The first [m] of them are mapped, the others are
    not, and [mincore] never answers EAGAIN. *)
Definition mapped_from_top (mincore : nat -> Z -> mincore_result)
    (ntop page_sz pages m : Z) : Prop :=
  forall calls i, 1 <= i <= pages ->
    mincore calls (ntop - i * page_sz) = if i <=? m then InCore else Enomem.

End StackBottom.

(** ** The path of the engine ([cr_util_path], [compute_crengine]) *)
Module Engine.

(** [after_elem = strrchr(path, '/'); *after_elem = 0]: the path cut at
    its last slash, [None] when it holds none ([strrchr] gives NULL, which is
    written through). *)
Fixpoint cut_last_slash (path : string) : option string :=
  match path with
  | EmptyString => None
  | String c rest =>
      match cut_last_slash rest with
      | Some r => Some (String c r)
      | None => if Ascii.eqb c FdsInfo.slash then Some EmptyString else None
      end
  end.

(** [cr_util_path(path, len)]: [jvm_path] is what [os::jvm_path] writes;
    the path left in the buffer and the value returned. *)
Definition cr_util_path (jvm_path : string) : option (string * Z) :=
  match cut_last_slash jvm_path with
  | None => None
  | Some p1 =>
      match cut_last_slash p1 with
      | None => None
      | Some p2 => Some (p2, CInt.to_int (Z.of_nat (String.length p2)))
      end
  end.

(** [CREngine[0] == '/'] *)
Definition is_absolute (engine : string) : bool :=
  match engine with
  | String c _ => Ascii.eqb c FdsInfo.slash
  | EmptyString => false
  end.

(** [compute_crengine()]: the value returned and [_crengine] afterwards.
    [JVM_MAXPATHLEN], of jvm_md.h, is the size of the buffer [path];
    [stat_ok] tells whether [stat] succeeds on a path.  [None] is the
    behaviour the language leaves undefined: [cr_util_path] finds no slash,
    or one of the two [strcat] calls writes past the buffer. *)
Definition compute_crengine (JVM_MAXPATHLEN : nat) (CREngine : option string)
    (jvm_path : string) (stat_ok : string -> bool) (_crengine : option string)
    : option (bool * option string) :=
  match CREngine with
  | None => Some (true, _crengine)
  | Some engine =>
      if is_absolute engine then Some (true, Some engine)
      else
        match cr_util_path jvm_path with
        | None => None
        | Some (path, pathlen) =>
            if pathlen <? 0 then None
            else
              (* strcat(path + pathlen, "/"); strcat(path + pathlen, CREngine) *)
              let kept := String.substring 0 (Z.to_nat pathlen) path in
              if (JVM_MAXPATHLEN
                  <? String.length kept + 1 + String.length engine + 1)%nat
              then None
              else
                let path :=
                  (kept ++ String FdsInfo.slash EmptyString ++ engine)%string in
                if stat_ok path then Some (true, Some path)
                else Some (false, _crengine)
        end
  end.

End Engine.

(** * Properties *)

(** ** The descriptor table *)
Section FdsTable.
Import Stat Kernel FdsInfo Props.

Lemma update_length l i g : length (update l i g) = length l.
Proof.
  revert i; induction l as [|x l IH]; intros [|i]; simpl; auto.
Qed.

Lemma at_update_eq l i g :
  (i < length l)%nat -> at_ (update l i g) i = g (at_ l i).
Proof.
  unfold at_. revert i; induction l as [|x l IH]; intros [|i] H; simpl in *;
    try lia; auto. apply IH; lia.
Qed.

Lemma at_update_neq l i j g : i <> j -> at_ (update l i g) j = at_ l j.
Proof.
  unfold at_. revert i j; induction l as [|x l IH]; intros [|i] [|j] H; simpl;
    auto; try congruence.
Qed.

Lemma get_state_in l i o :
  (i < length l)%nat -> get_state (Some l) i o = state (at_ l i).
Proof.
  intros H. unfold get_state; simpl.
  destruct (Z.ltb_spec (Z.of_nat i) (Z.of_nat (length l))); auto; lia.
Qed.

Lemma get_state_out l i o :
  (length l <= i)%nat -> get_state (Some l) i o = o.
Proof.
  intros H. unfold get_state; simpl.
  destruct (Z.ltb_spec (Z.of_nat i) (Z.of_nat (length l))); auto; lia.
Qed.

Lemma get_state_set_state_eq l i s o :
  (i < length l)%nat -> get_state (set_state (Some l) i s) i o = s.
Proof.
  intros H. simpl. rewrite get_state_in by (rewrite update_length; auto).
  rewrite at_update_eq by auto. reflexivity.
Qed.

Lemma get_state_set_state_neq l i j s o :
  i <> j -> get_state (set_state (Some l) i s) j o = get_state (Some l) j o.
Proof.
  intros H. unfold get_state; simpl. rewrite update_length.
  rewrite at_update_neq by auto. reflexivity.
Qed.

Lemma get_state_mark l i j m o :
  get_state (mark (Some l) i m) j o = get_state (Some l) j o.
Proof.
  unfold get_state; simpl. rewrite update_length.
  destruct (Z.ltb_spec (Z.of_nat j) (Z.of_nat (length l))); auto.
  destruct (Nat.eq_dec i j) as [->|Hn].
  - rewrite at_update_eq by lia. reflexivity.
  - rewrite at_update_neq by auto. reflexivity.
Qed.

Lemma get_stat_set_state l i j s :
  get_stat (set_state (Some l) i s) j = get_stat (Some l) j.
Proof.
  unfold get_stat; simpl.
  destruct (Nat.eq_dec i j) as [->|Hn].
  - destruct (Nat.lt_ge_cases j (length l)).
    + rewrite at_update_eq by lia. reflexivity.
    + unfold at_. rewrite !nth_overflow; auto. rewrite update_length; auto.
  - rewrite at_update_neq by auto. reflexivity.
Qed.

Lemma get_stat_mark l i j m :
  get_stat (mark (Some l) i m) j = get_stat (Some l) j.
Proof.
  unfold get_stat; simpl.
  destruct (Nat.eq_dec i j) as [->|Hn].
  - destruct (Nat.lt_ge_cases j (length l)).
    + rewrite at_update_eq by lia. reflexivity.
    + unfold at_. rewrite !nth_overflow; auto. rewrite update_length; auto.
  - rewrite at_update_neq by auto. reflexivity.
Qed.

End FdsTable.

(** ** The kernel model and the alias probe *)
Section Probe.
Import Stat Kernel FdsInfo Props.

Lemma kframe_refl k : kframe k k.
Proof.
  split; [auto|]. split; [eauto|]. repeat split; auto.
Qed.

Lemma kframe_trans k1 k2 k3 : kframe k1 k2 -> kframe k2 k3 -> kframe k1 k3.
Proof.
  intros (A1 & B1 & C1 & D1 & E1 & F1) (A2 & B2 & C2 & D2 & E2 & F2).
  split; [intros fd id H; apply A2, A1, H|].
  split.
  { intros fd id H. destruct (B2 fd id H) as (fd0 & H0). apply (B1 fd0 id H0). }
  split; [intros; congruence|]. split; [intros; congruence|].
  split; [|congruence].
  intros fd H. rewrite E2, E1; auto.
  destruct (k_fd k1 fd) as [id|] eqn:E; [|congruence].
  rewrite (A1 _ _ E). discriminate.
Qed.

Lemma kframe_set_flags k id fl : kframe k (set_flags k id fl).
Proof.
  split; [auto|]. split; [simpl; eauto|].
  repeat split; simpl; auto; intros x; destruct (Nat.eqb x id); auto.
Qed.

Lemma kframe_set_cloexec k fd b : kframe k (set_cloexec k fd b).
Proof.
  split; [auto|]. split; [simpl; eauto|]. repeat split; auto.
Qed.

Lemma lowest_free_spec fds n : forall from x,
  lowest_free fds from n = Some x ->
  fds x = None /\ (from <= x < from + n)%nat.
Proof.
  induction n as [|n IH]; intros from x H; simpl in H; [discriminate|].
  destruct (fds from) eqn:E.
  - apply IH in H. destruct H as [H1 H2]. split; [exact H1|lia].
  - inversion H; subst. split; [exact E|lia].
Qed.

(** A descriptor opened on a free number adds to the table and takes
    nothing from it. *)
Lemma kframe_dup_to k fd newfd id c :
  k_fd k fd = Some id -> k_fd k newfd = None ->
  kframe k (dup_to k fd newfd id c).
Proof.
  intros Hfd Hfree. split.
  { intros x i H. simpl. destruct (Nat.eqb_spec x newfd); [congruence|exact H]. }
  split.
  { intros x i H. simpl in H. destruct (Nat.eqb_spec x newfd).
    - inversion H; subst. eauto.
    - eauto. }
  split; [auto|]. split; [auto|]. split; [|reflexivity].
  intros x H. simpl. destruct (Nat.eqb_spec x newfd); [congruence|reflexivity].
Qed.

Lemma dupfd_frame k fd id arg c :
  k_fd k fd = Some id -> kframe k (snd (dupfd k fd id arg c)).
Proof.
  intros Hfd. unfold dupfd. cbv zeta.
  destruct (_ || _); [apply kframe_refl|].
  destruct (lowest_free _ _ _) as [n|] eqn:E; [|apply kframe_refl].
  apply lowest_free_spec in E. destruct E as [E _].
  apply kframe_dup_to; assumption.
Qed.

Lemma fcntl_frame k fd cmd arg : kframe k (snd (fcntl k fd cmd arg)).
Proof.
  unfold fcntl. destruct (k_fd k fd) as [id|] eqn:Hfd; simpl; [|apply kframe_refl].
  destruct (cmd =? F_GETFL); simpl; [apply kframe_refl|].
  destruct (cmd =? F_SETFL); simpl.
  { destruct (o_setfl _); simpl; [apply kframe_set_flags|apply kframe_refl]. }
  destruct (cmd =? F_DUPFD); [apply dupfd_frame; exact Hfd|].
  destruct (cmd =? F_DUPFD_CLOEXEC); [apply dupfd_frame; exact Hfd|].
  destruct (cmd =? F_GETFD); simpl; [apply kframe_refl|].
  destruct (cmd =? F_SETFD); simpl; [apply kframe_set_cloexec|apply kframe_refl].
Qed.

(** No command but F_SETFL changes the status flags of an open
    descriptor. *)
Lemma dupfd_flags k fd id arg c fd' :
  k_fd k fd = Some id -> k_fd k fd' <> None ->
  flags_of (snd (dupfd k fd id arg c)) fd' = flags_of k fd'.
Proof.
  intros Hfd Ho. unfold dupfd. cbv zeta.
  destruct (_ || _); [reflexivity|].
  destruct (lowest_free _ _ _) as [n|] eqn:E; [|reflexivity].
  apply lowest_free_spec in E. destruct E as [E _].
  unfold flags_of, fcntl. simpl.
  destruct (Nat.eqb_spec fd' n); [congruence|].
  destruct (k_fd k fd'); reflexivity.
Qed.

Lemma fcntl_keeps_flags k fd cmd arg fd' :
  cmd <> F_SETFL -> k_fd k fd' <> None ->
  flags_of (snd (fcntl k fd cmd arg)) fd' = flags_of k fd'.
Proof.
  intros Hc Ho. unfold fcntl at 1.
  destruct (k_fd k fd) as [id|] eqn:Hfd; [|reflexivity]. cbv zeta.
  destruct (cmd =? F_GETFL); [reflexivity|].
  destruct (Z.eqb_spec cmd F_SETFL); [contradiction|].
  destruct (cmd =? F_DUPFD); [apply dupfd_flags; assumption|].
  destruct (cmd =? F_DUPFD_CLOEXEC); [apply dupfd_flags; assumption|].
  destruct (cmd =? F_GETFD); [reflexivity|].
  destruct (cmd =? F_SETFD); [|reflexivity].
  unfold flags_of, fcntl. simpl. destruct (k_fd k fd'); reflexivity.
Qed.

Lemma fcntl_getfl k fd a : fcntl k fd F_GETFL a = (flags_of k fd, k).
Proof.
  unfold flags_of, fcntl. destruct (k_fd k fd); reflexivity.
Qed.

Lemma flags_of_closed k fd : k_fd k fd = None -> flags_of k fd = -1.
Proof. unfold flags_of, fcntl. intros ->. reflexivity. Qed.

Lemma flags_of_open k fd id :
  k_fd k fd = Some id -> flags_of k fd = Z.of_N (o_flags (k_ofd k id)).
Proof. unfold flags_of, fcntl. intros ->. reflexivity. Qed.

Lemma flags_of_nonneg k fd id : k_fd k fd = Some id -> 0 <= flags_of k fd.
Proof. intros H. rewrite (flags_of_open _ _ _ H). lia. Qed.

(** The probe, with the flag reads named. *)
Lemma same_fd_eq f k fd1 fd2 :
  same_fd f k fd1 fd2 =
  if negb (same_stat (get_stat f fd1) (get_stat f fd2)) then (false, k)
  else if negb (flags_of k fd1 =? flags_of k fd2) then (false, k)
  else
    let new_flags1 := Z.lxor (flags_of k fd1) O_NONBLOCK in
    let k1 := snd (fcntl k fd1 F_SETFL new_flags1) in
    if negb (flags_of k1 fd1 =? new_flags1) then (false, k1)
    else (new_flags1 =? flags_of k1 fd2,
          snd (fcntl k1 fd1 (flags_of k fd1) (k_stray_arg k1))).
Proof.
  unfold same_fd. destruct (negb (same_stat _ _)); auto.
  rewrite !fcntl_getfl. destruct (negb (_ =? _)); auto.
  destruct (fcntl k fd1 F_SETFL _) as [r1 k1] eqn:E1. cbv zeta. simpl snd.
  rewrite !fcntl_getfl. destruct (negb (_ =? _)); auto.
  destruct (fcntl k1 fd1 _ _) as [r2 k2]. reflexivity.
Qed.

Lemma same_fd_frame f k fd1 fd2 : kframe k (snd (same_fd f k fd1 fd2)).
Proof.
  rewrite same_fd_eq.
  destruct (negb (same_stat _ _)); [apply kframe_refl|].
  destruct (negb (_ =? _)); [apply kframe_refl|]. cbv zeta.
  destruct (negb (_ =? _)); simpl.
  - apply fcntl_frame.
  - eapply kframe_trans; apply fcntl_frame.
Qed.

Lemma lxor_nonblock_neq a : Z.lxor a O_NONBLOCK <> a.
Proof.
  intros H.
  assert (E : Z.lxor a (Z.lxor a O_NONBLOCK) = 0) by (rewrite H; apply Z.lxor_nilpotent).
  rewrite <- Z.lxor_assoc, Z.lxor_nilpotent, Z.lxor_0_l in E. discriminate E.
Qed.

Lemma lxor_nonblock_nonneg a : 0 <= a -> 0 <= Z.lxor a O_NONBLOCK.
Proof. intros H. apply Z.lxor_nonneg. unfold O_NONBLOCK. split; intros; lia. Qed.

(** What F_SETFL stores when only O_NONBLOCK is changed. *)
Lemma setfl_toggle a :
  Z.lor (Z.land (Z.lxor a O_NONBLOCK) SETFL_MASK) (Z.land a (Z.lnot SETFL_MASK))
  = Z.lxor a O_NONBLOCK.
Proof.
  apply Z.bits_inj'. intros n Hn.
  rewrite Z.lor_spec, !Z.land_spec, Z.lxor_spec, Z.lnot_spec by auto.
  change O_NONBLOCK with (2 ^ 11). rewrite Z.pow2_bits_eqb by lia.
  destruct (Z.eqb_spec 11 n) as [<-|Hne].
  - destruct (Z.testbit a 11); reflexivity.
  - rewrite xorb_false_r. destruct (Z.testbit a n), (Z.testbit SETFL_MASK n); reflexivity.
Qed.

Lemma flags_of_set_flags_same k fd id fl :
  k_fd k fd = Some id -> flags_of (set_flags k id fl) fd = Z.of_N fl.
Proof.
  intros H. unfold flags_of, fcntl; simpl. rewrite H; simpl.
  rewrite Nat.eqb_refl. reflexivity.
Qed.

Lemma flags_of_set_flags_other k fd id fl :
  k_fd k fd <> Some id -> flags_of (set_flags k id fl) fd = flags_of k fd.
Proof.
  intros H. unfold flags_of, fcntl; simpl.
  destruct (k_fd k fd) as [id'|]; simpl; auto.
  destruct (Nat.eqb_spec id' id); [congruence|reflexivity].
Qed.

Lemma fcntl_closed k fd cmd arg : k_fd k fd = None -> fcntl k fd cmd arg = (-1, k).
Proof. unfold fcntl. intros ->. reflexivity. Qed.

Lemma fcntl_setfl_refused k fd id arg :
  k_fd k fd = Some id -> o_setfl (k_ofd k id) = false ->
  snd (fcntl k fd F_SETFL arg) = k.
Proof. unfold fcntl. intros -> H. simpl. rewrite H. reflexivity. Qed.

Lemma fcntl_setfl_honoured k fd id arg :
  k_fd k fd = Some id -> o_setfl (k_ofd k id) = true ->
  snd (fcntl k fd F_SETFL arg) =
  set_flags k id (Z.to_N (Z.lor (Z.land arg SETFL_MASK)
                                (Z.land (Z.of_N (o_flags (k_ofd k id)))
                                        (Z.lnot SETFL_MASK)))).
Proof. unfold fcntl. intros -> H. simpl. rewrite H. reflexivity. Qed.

(** The probe answers yes only for two descriptors of one description. *)
Lemma same_fd_sound f k fd1 fd2 :
  fst (same_fd f k fd1 fd2) = true ->
  exists id, k_fd k fd1 = Some id /\ k_fd k fd2 = Some id.
Proof.
  rewrite same_fd_eq.
  destruct (negb (same_stat _ _)); [discriminate|].
  destruct (Z.eqb_spec (flags_of k fd1) (flags_of k fd2)) as [Ef|]; [|discriminate].
  cbv zeta. simpl negb. cbv iota.
  destruct (k_fd k fd1) as [id|] eqn:E1.
  2:{ rewrite (fcntl_closed _ _ _ _ E1). simpl snd.
      rewrite (flags_of_closed _ _ E1). discriminate. }
  pose proof (flags_of_nonneg _ _ _ E1) as Hpos.
  destruct (o_setfl (k_ofd k id)) eqn:Es.
  2:{ rewrite (fcntl_setfl_refused _ _ _ _ E1 Es).
      destruct (Z.eqb_spec (flags_of k fd1) (Z.lxor (flags_of k fd1) O_NONBLOCK)) as [E|];
        [|discriminate].
      symmetry in E. apply lxor_nonblock_neq in E. contradiction. }
  rewrite (fcntl_setfl_honoured _ _ _ _ E1 Es).
  destruct (negb _); [discriminate|]. simpl fst.
  intros H. apply Z.eqb_eq in H.
  destruct (k_fd k fd2) as [id2|] eqn:E2.
  - destruct (Nat.eq_dec id2 id) as [->|Hne]; [eauto|].
    rewrite flags_of_set_flags_other in H by congruence.
    rewrite <- Ef in H. apply lxor_nonblock_neq in H. contradiction.
  - rewrite flags_of_set_flags_other in H by congruence.
    rewrite <- Ef in H. apply lxor_nonblock_neq in H. contradiction.
Qed.

(** It answers yes for two descriptors of one description that honours
    F_SETFL, once their cached stat results agree. *)
Lemma same_fd_complete f k fd1 fd2 id :
  k_fd k fd1 = Some id -> k_fd k fd2 = Some id ->
  o_setfl (k_ofd k id) = true ->
  same_stat (get_stat f fd1) (get_stat f fd2) = true ->
  fst (same_fd f k fd1 fd2) = true.
Proof.
  intros E1 E2 Es Est. rewrite same_fd_eq, Est. simpl negb. cbv iota zeta.
  rewrite (fcntl_setfl_honoured _ _ _ _ E1 Es).
  rewrite (flags_of_open _ _ _ E1), (flags_of_open _ _ _ E2), Z.eqb_refl.
  simpl negb. cbv iota.
  rewrite setfl_toggle.
  rewrite (flags_of_set_flags_same _ _ _ _ E1), (flags_of_set_flags_same _ _ _ _ E2).
  rewrite Z2N.id by (apply lxor_nonblock_nonneg; lia).
  rewrite !Z.eqb_refl. reflexivity.
Qed.

End Probe.

(** ** [FdsInfo::initialize] *)
Section Initialize.
Import Stat Kernel FdsInfo Props.

Lemma scan_length k raw : length (scan k raw) = scan_len k (k_open_max k).
Proof. unfold scan. rewrite length_map, length_seq. reflexivity. Qed.

Lemma scan_at k raw i :
  (i < length (scan k raw))%nat -> at_ (scan k raw) i = scan_fd k raw i.
Proof.
  intros H. rewrite scan_length in H. unfold at_, scan.
  rewrite (nth_indep _ _ (scan_fd k raw 0)) by (rewrite length_map, length_seq; auto).
  rewrite map_nth, seq_nth by auto. reflexivity.
Qed.

Lemma scan_len_le k n : (scan_len k n <= n)%nat.
Proof.
  induction n; simpl; auto. destruct (fstat k n); lia.
Qed.

(** Nothing at or above [_len] is open, below the limit. *)
Lemma scan_len_covers k n x :
  (scan_len k n <= x < n)%nat -> k_fd k x = None.
Proof.
  induction n; simpl; intros H; [lia|].
  unfold fstat in *. destruct (k_fd k n) eqn:E; [lia|].
  destruct (Nat.eq_dec x n) as [->|]; auto. apply IHn. lia.
Qed.

(** The last slot of the table is an open descriptor. *)
Lemma scan_len_last k n :
  (0 < scan_len k n)%nat -> k_fd k (scan_len k n - 1) <> None.
Proof.
  induction n; simpl; [lia|].
  unfold fstat in *. destruct (k_fd k n) eqn:E.
  - intros _. replace (S n - 1)%nat with n by lia. congruence.
  - auto.
Qed.

Lemma scan_state_closed k raw i :
  (i < length (scan k raw))%nat -> k_fd k i = None ->
  state (at_ (scan k raw) i) = CLOSED.
Proof.
  intros H E. rewrite scan_at by auto. unfold scan_fd, fstat. rewrite E. reflexivity.
Qed.

Lemma scan_state_open k raw i id :
  (i < length (scan k raw))%nat -> k_fd k i = Some id ->
  state (at_ (scan k raw) i) = ROOT /\
  stat_of (at_ (scan k raw) i) = o_stat (k_ofd k id).
Proof.
  intros H E. rewrite scan_at by auto. unfold scan_fd, fstat. rewrite E. auto.
Qed.

Lemma same_stat_refl s : same_stat s s = true.
Proof. unfold same_stat. rewrite !Z.eqb_refl. reflexivity. Qed.

Lemma lowest_le k id m x : lowest k id m -> k_fd k x = Some id -> (m <= x)%nat.
Proof.
  intros [_ H] E. destruct (Nat.le_gt_cases m x); auto.
  exfalso. apply (H x); auto.
Qed.

(** The inner loop stops at the first canonical descriptor the probe
    accepts, and changes the table there only. *)
Lemma alias_loop_spec n : forall l k i j f' k',
  alias_loop (Some l) k i j n = (f', k') ->
  kframe k k' /\
  ((f' = Some l /\
    forall x, (j <= x < j + n)%nat -> get_state (Some l) x INVALID = ROOT ->
      exists k1, kframe k k1 /\ fst (same_fd (Some l) k1 i x) = false)
   \/
   exists y, (j <= y < j + n)%nat /\ get_state (Some l) y INVALID = ROOT /\
     (exists k1, kframe k k1 /\ same_fd (Some l) k1 i y = (true, k')) /\
     f' = set_state (Some l) i (DUP_OF_0 + Z.of_nat y) /\
     forall x, (j <= x < y)%nat -> get_state (Some l) x INVALID = ROOT ->
       exists k1, kframe k k1 /\ fst (same_fd (Some l) k1 i x) = false).
Proof.
  induction n as [|n IH]; intros l k i j f' k' H; simpl in H.
  - inversion H; subst. split; [apply kframe_refl|]. left. split; auto.
    intros x Hx. lia.
  - destruct (Z.eqb_spec (get_state (Some l) j INVALID) ROOT) as [Er|Er].
    + destruct (same_fd (Some l) k i j) as [same k1] eqn:Es.
      pose proof (same_fd_frame (Some l) k i j) as Hf. rewrite Es in Hf. simpl in Hf.
      destruct same.
      * inversion H; subst. split; auto. right. exists j.
        split; [lia|]. split; [auto|]. split.
        { exists k. split; [apply kframe_refl|exact Es]. }
        split; [auto|]. intros x Hx. lia.
      * assert (Hj : exists k2, kframe k k2 /\ fst (same_fd (Some l) k2 i j) = false).
        { exists k. split; [apply kframe_refl|]. rewrite Es. reflexivity. }
        apply IH in H.
        destruct H as [Hk [[-> Hnone]|(y & Hy & Hr & (k2 & Hk2 & Ht) & -> & Hbefore)]].
        -- split; [eapply kframe_trans; eauto|]. left. split; auto.
           intros x Hx Hxr. destruct (Nat.eq_dec x j) as [->|]; [auto|].
           destruct (Hnone x) as (k2 & Hk2 & Hk2f); auto; try lia.
           exists k2. split; auto. eapply kframe_trans; eauto.
        -- split; [eapply kframe_trans; eauto|]. right. exists y.
           split; [lia|]. split; [auto|]. split.
           { exists k2. split; auto. eapply kframe_trans; eauto. }
           split; [auto|].
           intros x Hx Hxr. destruct (Nat.eq_dec x j) as [->|]; [auto|].
           destruct (Hbefore x) as (k3 & Hk3 & Hk3f); auto; try lia.
           exists k3. split; auto. eapply kframe_trans; eauto.
    + apply IH in H.
      destruct H as [Hk [[-> Hnone]|(y & Hy & Hr & Hex & -> & Hbefore)]].
      * split; auto. left. split; auto.
        intros x Hx Hxr. destruct (Nat.eq_dec x j) as [->|]; [contradiction|].
        apply Hnone; auto; lia.
      * split; auto. right. exists y.
        split; [lia|]. split; [auto|]. split; [auto|]. split; [auto|].
        intros x Hx Hxr. destruct (Nat.eq_dec x j) as [->|]; [contradiction|].
        apply Hbefore; auto; lia.
Qed.

Lemma classified_ext k0 kc l l' x :
  (forall y, (y <= x)%nat -> state (at_ l' y) = state (at_ l y)) ->
  classified k0 kc l x -> classified k0 kc l' x.
Proof.
  intros He (C1 & C2 & C3 & C4 & C5).
  assert (Hx : state (at_ l' x) = state (at_ l x)) by (apply He; lia).
  unfold classified. rewrite Hx.
  split; [|split; [|split; [|split]]]; auto.
  - intros E. destruct (C1 E) as [|(j & id & Hj & Hs & Hr & Hk & Hc)]; auto.
    right. exists j, id. rewrite (He j) by lia. auto.
  - intros id E. destruct (C2 id E) as [|(j & Hj & Hs & Hk & Hr)]; auto.
    right. exists j. rewrite (He j) by lia. auto.
Qed.

(** What is settled stays settled while the kernel state moves on. *)
Lemma classified_frame k0 kc kc' l x :
  kframe kc kc' -> classified k0 kc l x -> classified k0 kc' l x.
Proof.
  intros (Hfd & _) (C1 & C2 & C3 & C4 & C5).
  split; [|split; [|split; [|split]]]; auto.
  intros E. destruct (C1 E) as [|(j & id & Hj & Hs & Hr & Hk & Hc)]; auto.
  right. exists j, id. auto 6.
Qed.

Lemma dup_state_not_root (y : nat) : DUP_OF_0 + Z.of_nat y <> ROOT.
Proof. unfold DUP_OF_0, ROOT. lia. Qed.

Lemma dup_state_not_closed (y : nat) : DUP_OF_0 + Z.of_nat y <> CLOSED.
Proof. unfold DUP_OF_0, CLOSED. lia. Qed.

(** The probe says yes for two descriptors of one description that
    honours F_SETFL, and only for such. *)
Lemma same_fd_true f k fd1 fd2 :
  fst (same_fd f k fd1 fd2) = true ->
  exists id, k_fd k fd1 = Some id /\ k_fd k fd2 = Some id /\
             o_setfl (k_ofd k id) = true.
Proof.
  intros H. destruct (same_fd_sound _ _ _ _ H) as (id & E1 & E2).
  exists id. split; [exact E1|]. split; [exact E2|].
  rewrite same_fd_eq in H.
  destruct (negb (same_stat (get_stat f fd1) (get_stat f fd2))); [discriminate|].
  destruct (negb (flags_of k fd1 =? flags_of k fd2)); [discriminate|].
  cbv zeta in H.
  destruct (o_setfl (k_ofd k id)) eqn:Es; [reflexivity|].
  rewrite (fcntl_setfl_refused _ _ _ _ E1 Es) in H.
  destruct (Z.eqb_spec (flags_of k fd1) (Z.lxor (flags_of k fd1) O_NONBLOCK))
    as [E|]; [|discriminate].
  symmetry in E. apply lxor_nonblock_neq in E. contradiction.
Qed.

Section Step.
Variables (k0 : kernel) (raw : nat -> fdinfo).
Variables (i : nat) (l : list fdinfo) (k : kernel).
Hypothesis Hinv : classify_inv k0 (scan k0 raw) i l k.
Hypothesis Hi : (i < length (scan k0 raw))%nat.

Lemma step_stat x id :
  (x < length (scan k0 raw))%nat -> k_fd k0 x = Some id ->
  get_stat (Some l) x = o_stat (k_ofd k0 id).
Proof.
  intros Hx E. destruct Hinv as (_ & _ & Hstat & _).
  unfold get_stat; simpl. rewrite Hstat.
  apply (scan_state_open k0 raw x id Hx E).
Qed.

(** A canonical slot is a descriptor that was open at the start. *)
Lemma step_root_open x :
  (x < length (scan k0 raw))%nat -> state (at_ l x) = ROOT -> k_fd k0 x <> None.
Proof.
  intros Hx Hr E. destruct Hinv as (_ & _ & _ & Hrest & Hdone).
  destruct (Nat.lt_ge_cases x i) as [Hlt|Hge].
  - destruct (Hdone x Hlt) as (C1 & _).
    destruct (C1 E) as [Hc|(j & id & _ & Hd & _)].
    + rewrite Hc in Hr. discriminate.
    + rewrite Hd in Hr. revert Hr. apply dup_state_not_root.
  - rewrite Hrest in Hr by exact Hge.
    rewrite (scan_state_closed k0 raw x Hx E) in Hr. discriminate.
Qed.

(** When the probe says yes, the canonical descriptor it was given was
    open at the start, on the description the probed one now has. *)
Lemma step_sound k1 y :
  kframe k k1 -> (y < length (scan k0 raw))%nat -> state (at_ l y) = ROOT ->
  fst (same_fd (Some l) k1 i y) = true ->
  exists id, k_fd k1 i = Some id /\ k_fd k0 y = Some id /\
             o_setfl (k_ofd k0 id) = true.
Proof.
  intros Hk Hy Hr Ht. destruct Hinv as (_ & Hk0 & _).
  destruct (kframe_trans _ _ _ Hk0 Hk) as (Hfd & _ & _ & Hset & _).
  apply same_fd_true in Ht. destruct Ht as (id & E1 & E2 & Es).
  exists id. split; [exact E1|].
  destruct (k_fd k0 y) as [idy|] eqn:Ey.
  - rewrite (Hfd _ _ Ey) in E2. inversion E2; subst idy.
    split; [reflexivity|]. rewrite <- Hset. exact Es.
  - exfalso. apply (step_root_open y Hy Hr). exact Ey.
Qed.

Lemma step_complete k1 m id :
  kframe k k1 -> (m < length (scan k0 raw))%nat ->
  k_fd k0 i = Some id -> k_fd k0 m = Some id ->
  o_setfl (k_ofd k0 id) = true ->
  fst (same_fd (Some l) k1 i m) = true.
Proof.
  intros Hk Hm Ei Em Hs. pose proof Hinv as (_ & Hk0 & _).
  destruct (kframe_trans _ _ _ Hk0 Hk) as (Hfd & _ & _ & Hset & _).
  apply same_fd_complete with (id := id).
  - apply Hfd; auto.
  - apply Hfd; auto.
  - rewrite Hset; auto.
  - rewrite (step_stat i id Hi Ei), (step_stat m id Hm Em). apply same_stat_refl.
Qed.

Lemma step_root_before m id :
  (m < i)%nat -> lowest k0 id m -> get_state (Some l) m INVALID = ROOT.
Proof.
  intros Hm Hl. destruct Hinv as (Hlen & _ & _ & _ & Hdone).
  rewrite get_state_in by lia.
  destruct (Hdone m Hm) as (_ & _ & C3 & _). eapply C3; eauto.
Qed.

(** The inner loop settles descriptor [i]. *)
Lemma alias_loop_settles f1 k1 :
  alias_loop (Some l) k i 0 i = (f1, k1) ->
  kframe k k1 /\
  exists l1, f1 = Some l1 /\ length l1 = length l /\
    (forall x, stat_of (at_ l1 x) = stat_of (at_ l x)) /\
    (forall x, x <> i -> state (at_ l1 x) = state (at_ l x)) /\
    (state (at_ l1 i) = state (at_ l i) \/
     exists y, state (at_ l1 i) = DUP_OF_0 + Z.of_nat y) /\
    classified k0 k1 l1 i.
Proof.
  intros Ea. apply alias_loop_spec in Ea.
  pose proof Hinv as (Hlen & Hk0 & Hstat & Hrest & Hdone).
  destruct Ea as [Hk [[-> Hnone]|(y & Hy & Hr & (k2 & Hk2 & Ht) & -> & Hbefore)]];
    (split; [exact Hk|]).
  - exists l. split; [reflexivity|]. split; [reflexivity|].
    split; [auto|]. split; [auto|]. split; [left; reflexivity|].
    split; [|split; [|split; [|split]]].
    + intros E. left. rewrite Hrest by lia. apply scan_state_closed; auto.
    + intros id E. left. rewrite Hrest by lia.
      apply (scan_state_open k0 raw i id Hi E).
    + intros id [E _]. rewrite Hrest by lia.
      apply (scan_state_open k0 raw i id Hi E).
    + intros id m E Hs Hl Hne. exfalso.
      assert (Hm : (m < i)%nat) by (pose proof (lowest_le _ _ _ _ Hl E); lia).
      destruct (Hnone m) as (k3 & Hk3 & Hf); [lia|eapply step_root_before; eauto|].
      destruct Hl as [Em _].
      assert (Ht3 : fst (same_fd (Some l) k3 i m) = true)
        by (apply (step_complete k3 m id); auto; lia).
      congruence.
    + intros id E _. rewrite Hrest by lia.
      apply (scan_state_open k0 raw i id Hi E).
  - assert (Hyr : state (at_ l y) = ROOT) by (rewrite get_state_in in Hr; auto; lia).
    assert (Ht' : fst (same_fd (Some l) k2 i y) = true) by (rewrite Ht; reflexivity).
    destruct (step_sound k2 y Hk2 ltac:(lia) Hyr Ht') as (id & Ei2 & Ey & Hset).
    assert (Hk21 : kframe k2 k1).
    { pose proof (same_fd_frame (Some l) k2 i y) as Hf. rewrite Ht in Hf. exact Hf. }
    assert (Ei1 : k_fd k1 i = Some id) by (destruct Hk21 as (Hfd & _); auto).
    assert (Hopen : forall id', k_fd k0 i = Some id' -> id' = id).
    { intros id' E. destruct (kframe_trans _ _ _ Hk0 Hk2) as (Hfd & _).
      rewrite (Hfd _ _ E) in Ei2. congruence. }
    exists (update l i (fun x => mk_fdinfo (stat_of x) (DUP_OF_0 + Z.of_nat y)
                                  (mark_of x) (flags x))).
    split; [reflexivity|]. split; [apply update_length|].
    split.
    { intros x. change (get_stat (set_state (Some l) i (DUP_OF_0 + Z.of_nat y)) x
                        = get_stat (Some l) x). apply get_stat_set_state. }
    split.
    { intros x Hx. rewrite at_update_neq; auto. }
    assert (Hsi : forall g, state (at_ (update l i
               (fun x => mk_fdinfo (stat_of x) g (mark_of x) (flags x))) i) = g).
    { intros g. rewrite at_update_eq by lia. reflexivity. }
    split; [right; exists y; apply Hsi|].
    unfold classified. rewrite Hsi.
    split; [|split; [|split; [|split]]].
    + intros E. right. exists y, id. split; [lia|]. split; [reflexivity|].
      split; [rewrite at_update_neq by lia; exact Hyr|]. auto.
    + intros id' E. apply Hopen in E. subst id'. right. exists y.
      split; [lia|]. split; [auto|]. split; [exact Ey|].
      rewrite at_update_neq by lia. auto.
    + intros id' [E Hl]. exfalso. pose proof (Hopen _ E). subst id'.
      apply (Hl y); [lia|exact Ey].
    + intros id' m E Hs Hl Hne.
      pose proof (Hopen _ E). subst id'.
      pose proof (lowest_le _ _ _ _ Hl Ey) as Hmy.
      destruct (Nat.eq_dec m y) as [->|Hmy']; [reflexivity|].
      exfalso.
      destruct (Hbefore m) as (k3 & Hk3 & Hf); [lia|eapply step_root_before; eauto; lia|].
      destruct Hl as [Em _].
      assert (Ht3 : fst (same_fd (Some l) k3 i m) = true)
        by (apply (step_complete k3 m id); auto; lia).
      congruence.
    + intros id' E Hs. pose proof (Hopen _ E). subst id'. congruence.
Qed.

Lemma classify_fd_step f' k' :
  classify_fd (Some l) k i = Some (f', k') ->
  exists l', f' = Some l' /\ classify_inv k0 (scan k0 raw) (S i) l' k'.
Proof.
  unfold classify_fd. destruct (alias_loop (Some l) k i 0 i) as [f1 k1] eqn:Ea.
  apply alias_loop_settles in Ea.
  destruct Ea as (Hk & l1 & -> & Hlen1 & Hstat1 & Hst1 & _ & Hcl).
  pose proof Hinv as (Hlen & Hk0 & Hstat & Hrest & Hdone).
  assert (Hbase : classify_inv k0 (scan k0 raw) (S i) l1 k1).
  { split; [congruence|]. split; [eapply kframe_trans; eauto|].
    split; [intros x; rewrite Hstat1; auto|].
    split; [intros x Hx; rewrite Hst1 by lia; apply Hrest; lia|].
    intros x Hx. destruct (Nat.eq_dec x i) as [->|Hne]; auto.
    apply classified_frame with (kc := k); [exact Hk|].
    apply classified_ext with (l := l); [|apply Hdone; lia].
    intros y Hy. apply Hst1. lia. }
  intros H.
  destruct (get_state (Some l1) i INVALID =? ROOT).
  - destruct (readfdlink k1 i PATH_MAX) as [r fdpath].
    destruct (r =? -1); [discriminate|].
    destruct (_ || _ || _); inversion H; subst; [|eauto].
    eexists; split; [reflexivity|].
    destruct Hbase as (B1 & B2 & B3 & B4 & B5).
    assert (Hs : forall x, state (at_ (update l1 i (fun x0 => mk_fdinfo (stat_of x0)
                 (state x0) (Z.lor (mark_of x0) M_CANT_RESTORE) (flags x0))) x)
                 = state (at_ l1 x)).
    { intros x. destruct (Nat.eq_dec i x) as [->|Hn].
      - rewrite at_update_eq by lia. reflexivity.
      - rewrite at_update_neq by auto. reflexivity. }
    split; [rewrite update_length; auto|]. split; [auto|].
    split.
    { intros x. rewrite <- B3.
      change (get_stat (mark (Some l1) i M_CANT_RESTORE) x = get_stat (Some l1) x).
      apply get_stat_mark. }
    split; [intros x Hx; rewrite Hs; auto|].
    intros x Hx. apply classified_ext with (l := l1); auto.
  - inversion H; subst. eauto.
Qed.

End Step.

(** The invariant holds before the second loop starts. *)
Lemma classify_inv_init k0 raw :
  classify_inv k0 (scan k0 raw) 0 (scan k0 raw) k0.
Proof.
  split; [reflexivity|]. split; [apply kframe_refl|].
  split; [reflexivity|]. split; [reflexivity|]. intros x Hx. lia.
Qed.

Lemma classify_from_inv k0 raw n : forall i l k f' k',
  classify_inv k0 (scan k0 raw) i l k ->
  (i + n = length (scan k0 raw))%nat ->
  classify_from (Some l) k i n = Some (f', k') ->
  exists l', f' = Some l' /\
    classify_inv k0 (scan k0 raw) (length (scan k0 raw)) l' k'.
Proof.
  induction n as [|n IH]; intros i l k f' k' Hinv Hn H; simpl in H.
  - inversion H; subst. exists l. split; auto.
    replace (length (scan k0 raw)) with i by lia. auto.
  - destruct (classify_fd (Some l) k i) as [[f1 k1]|] eqn:E; [|discriminate].
    apply (classify_fd_step k0 raw i l k Hinv) in E; [|lia].
    destruct E as (l1 & -> & Hinv1).
    apply (IH (S i) l1 k1); auto. lia.
Qed.

Lemma initialize_inv k raw f k' :
  initialize k raw = Some (f, k') ->
  exists l, f = Some l /\
    classify_inv k (scan k raw) (length (scan k raw)) l k'.
Proof.
  unfold initialize. intros H.
  apply (classify_from_inv k raw (length (scan k raw)) 0 (scan k raw) k f k');
    auto using classify_inv_init.
Qed.

End Initialize.

(** ** Alias classes of the descriptor table *)
Section AliasClasses.
Import Stat Kernel FdsInfo Props Samples.



(** The case that the last conjuncts allow for: the read end of a pipe has
    the status flags 0, which the last [fcntl] of the probe passes as the
    command, F_DUPFD.  Descriptor 2, closed at the start, is then open on the
    pipe, and with a stale stat result like the pipe's in its slot it is
    taken for a duplicate of descriptor 0. *)
Lemma initialize_aliases_a_descriptor_it_opened :
  exists f k', initialize MoreSamples.k_pipe MoreSamples.raw_stale = Some (f, k') /\
    k_fd MoreSamples.k_pipe 2 = None /\ k_fd k' 2 = Some 0%nat /\
    map (fun i => get_state f i INVALID) [0; 1; 2; 3]%nat
    = [ROOT; DUP_OF_0 + 0; DUP_OF_0 + 0; ROOT].
Proof.
  destruct (initialize MoreSamples.k_pipe MoreSamples.raw_stale)
    as [[f k']|] eqn:E.
  2:{ vm_compute in E. discriminate E. }
  exists f, k'. split; [reflexivity|]. split; [reflexivity|].
  vm_compute in E. inversion E. split; reflexivity.
Qed.


End AliasClasses.

(** ** The status flags after the alias probe *)
Section ProbeFlags.
Import Stat Kernel FdsInfo Props Samples.

(** C5 (what the code does).  When the probe reports two descriptors as
    the same, the O_NONBLOCK bit it flipped on the first one is still
    flipped when it returns: its last [fcntl] passes the old flags as the
    command, which is not F_SETFL. *)
Theorem same_fd_leaves_nonblock_toggled f k fd1 fd2 k' :
  same_fd f k fd1 fd2 = (true, k') ->
  flags_of k fd1 <> F_SETFL ->
  flags_of k' fd1 = Z.lxor (flags_of k fd1) O_NONBLOCK /\
  flags_of k' fd1 <> flags_of k fd1.
Proof.
  intros H Hcmd.
  assert (Ht : fst (same_fd f k fd1 fd2) = true) by (rewrite H; reflexivity).
  destruct (same_fd_sound _ _ _ _ Ht) as (id & Eo & _).
  rewrite same_fd_eq in H.
  destruct (negb (same_stat _ _)); [inversion H|].
  destruct (negb (_ =? _)); [inversion H|]. cbv zeta in H.
  destruct (Z.eqb_spec (flags_of (snd (fcntl k fd1 F_SETFL (Z.lxor (flags_of k fd1) O_NONBLOCK))) fd1)
                       (Z.lxor (flags_of k fd1) O_NONBLOCK)) as [E|]; [|inversion H].
  simpl negb in H. cbv iota in H. inversion H as [[Hsame Hk]]. clear H Hsame.
  set (k1 := snd (fcntl k fd1 F_SETFL (Z.lxor (flags_of k fd1) O_NONBLOCK))) in *.
  assert (Ho1 : k_fd k1 fd1 <> None).
  { destruct (fcntl_frame k fd1 F_SETFL (Z.lxor (flags_of k fd1) O_NONBLOCK))
      as (Hfd & _).
    fold k1 in Hfd. rewrite (Hfd _ _ Eo). discriminate. }
  rewrite (fcntl_keeps_flags k1 fd1 (flags_of k fd1) (k_stray_arg k1) fd1 Hcmd Ho1).
  split; [exact E|]. rewrite E. apply lxor_nonblock_neq.
Qed.

Lemma same_fd_leaves_nonblock_toggled_witness :
  exists f k1 k2,
    initialize k_dup raw0 = Some (f, k1) /\
    same_fd (Some (scan k_dup raw0)) k_dup 2 0 = (true, k2) /\
    flags_of k_dup 2 = 32770 /\ flags_of k2 2 = 34818.
Proof.
  destruct (initialize k_dup raw0) as [[f k1]|] eqn:E.
  2:{ vm_compute in E. discriminate E. }
  destruct (same_fd (Some (scan k_dup raw0)) k_dup 2 0) as [b k2] eqn:Es.
  assert (Hb : b = true).
  { change b with (fst (b, k2)). rewrite <- Es. vm_compute. reflexivity. }
  subst b. exists f, k1, k2. split; [reflexivity|]. split; [reflexivity|].
  assert (Hcmd : flags_of k_dup 2 <> F_SETFL) by (vm_compute; discriminate).
  destruct (same_fd_leaves_nonblock_toggled _ _ _ _ _ Es Hcmd) as [Ha _].
  split; [reflexivity|]. rewrite Ha. reflexivity.
Defined.

(** The whole of [initialize] on the same process: the terminal shared by
    descriptors 0 and 2 is left in non-blocking mode. *)
Lemma initialize_leaves_nonblock_set :
  exists f k', initialize k_dup raw0 = Some (f, k') /\
    flags_of k_dup 0 = 32770 /\ flags_of k' 0 = 34818.
Proof.
  destruct (initialize k_dup raw0) as [[f k']|] eqn:E.
  2:{ vm_compute in E. discriminate E. }
  exists f, k'. split; [reflexivity|]. split; [reflexivity|].
  vm_compute in E. inversion E. reflexivity.
Qed.

End ProbeFlags.

(** ** The registry of persistent descriptors *)
Section RegistryFacts.
Import Registry.

(** While the entry at [i] does not match, the loop of
    [deregister_persistent_fd] stays at [i]. *)
Lemma deregister_search_stuck fuel l fd st_dev st_ino i pr :
  nth_error l i = Some pr -> matches pr fd st_dev st_ino = false ->
  deregister_search fuel l fd st_dev st_ino i = None.
Proof.
  intros Hn Hm. induction fuel as [|fuel IH]; simpl; auto.
  rewrite Hn, Hm. exact IH.
Qed.

(** It ends at once when the registry is empty or its first entry matches. *)
Lemma deregister_search_first fuel l fd st_dev st_ino :
  (match l with [] => True | pr :: _ => matches pr fd st_dev st_ino = true end) ->
  deregister_search (S fuel) l fd st_dev st_ino 0 = Some 0%nat.
Proof.
  destruct l as [|pr l]; simpl; auto. intros ->. reflexivity.
Qed.

(** C9 (what the code does).  With descriptors 3 and 5 registered, the call
    that deregisters descriptor 5 never leaves its search loop, however many
    rounds it is given: the entry that matches sits at index 1, the loop
    looks at index 0 for ever, and nothing is removed. *)
Theorem deregister_second_entry_never_returns :
  forall fuel,
    deregister_persistent_fd fuel (Some "cr"%string)
      (Some [desc 3 1 10; desc 5 1 11]) 5 1 11 = None.
Proof.
  intros fuel. unfold deregister_persistent_fd.
  rewrite (deregister_search_stuck fuel _ 5 1 11 0 (desc 3 1 10)); reflexivity.
Qed.

End RegistryFacts.

(** ** Restore time queries *)
Section RestoreTime.
Import RestoreClock.

Lemma to_jlong_in_range x : CInt.is_jlong x -> CInt.to_jlong x = x.
Proof.
  unfold CInt.is_jlong, CInt.to_jlong, CInt.signed. intros H.
  change (2 ^ (64 - 1)) with (2 ^ 63).
  destruct (Z_lt_le_dec x 0).
  - replace (x mod 2 ^ 64) with (x + 2 ^ 64).
    + destruct (Z.ltb_spec (x + 2 ^ 64) (2 ^ 63)); lia.
    + apply Z.mod_unique with (q := -1); lia.
  - rewrite Z.mod_small by lia.
    destruct (Z.ltb_spec x (2 ^ 63)); lia.
Qed.

(** C10.  Before any restore is recorded both queries answer -1; once a
    restore is recorded with a time and a counter other than zero,
    [restore_start_time] answers the recorded time and
    [uptime_since_restore] the monotonic clock minus the recorded counter. *)
Theorem restore_time_queries (time counter now : Z) :
  time <> 0 -> counter <> 0 -> CInt.is_jlong (now - counter) ->
  restore_start_time initial = -1 /\
  uptime_since_restore initial now = -1 /\
  restore_start_time (record time counter) = time /\
  uptime_since_restore (record time counter) now = now - counter.
Proof.
  intros Ht Hc Hr. unfold restore_start_time, uptime_since_restore; simpl.
  destruct (Z.eqb_spec time 0); [contradiction|].
  destruct (Z.eqb_spec counter 0); [contradiction|].
  rewrite to_jlong_in_range by auto. auto.
Qed.

Lemma restore_time_queries_witness :
  restore_start_time initial = -1 /\
  uptime_since_restore initial 5000 = -1 /\
  restore_start_time (record 1700000000000 4000) = 1700000000000 /\
  uptime_since_restore (record 1700000000000 4000) 5000 = 1000.
Proof.
  apply (restore_time_queries 1700000000000 4000 5000).
  - discriminate.
  - discriminate.
  - unfold CInt.is_jlong. lia.
Defined.

End RestoreTime.

(** ** The restore parameter block *)
Section Block.
Import RestoreParameters BlockProps.




Lemma le_bytes_length n : forall v, length (le_bytes n v) = n.
Proof. induction n; intros v; simpl; auto. Qed.



Lemma to_int_in_range x : CInt.is_int x -> CInt.to_int x = x.
Proof.
  unfold CInt.is_int, CInt.to_int, CInt.signed. intros H.
  change (2 ^ (32 - 1)) with (2 ^ 31).
  destruct (Z_lt_le_dec x 0).
  - replace (x mod 2 ^ 32) with (x + 2 ^ 32).
    + destruct (Z.ltb_spec (x + 2 ^ 32) (2 ^ 31)); lia.
    + apply Z.mod_unique with (q := -1); lia.
  - rewrite Z.mod_small by lia.
    destruct (Z.ltb_spec x (2 ^ 31)); lia.
Qed.



Lemma header_bytes_length h : length (header_bytes h) = sizeof_header.
Proof. unfold header_bytes. rewrite !length_app, !le_bytes_length. reflexivity. Qed.


(** *** C strings in a buffer *)






Lemma packed_cons s l : packed (s :: l) = s ++ x00 :: packed l.
Proof. unfold packed. simpl. rewrite <- app_assoc. reflexivity. Qed.

Lemma packed_length_cons s l :
  length (packed (s :: l)) = (length s + 1 + length (packed l))%nat.
Proof. rewrite packed_cons, length_app. simpl. lia. Qed.




(** *** The write side *)






Lemma packed_entries_fit env :
  Z.of_nat (length (packed env)) < 2 ^ 31 ->
  Forall (fun e => Z.of_nat (length e) + 1 < 2 ^ 31) env.
Proof.
  induction env as [|e env IH]; intros H; constructor;
    rewrite packed_length_cons in H.
  - lia.
  - apply IH. lia.
Qed.

End Block.

(** ** Round trip of the restore parameter block *)
Section BlockRoundTrip.
Import RestoreParameters BlockProps.





End BlockRoundTrip.

(** ** The resource policy *)
Section ResourcePolicy.
Import Stat Kernel Crac Policy.

(** Device numbers are unsigned 32-bit values. *)
Lemma masked_pair_u32 x m1 y m2 :
  0 <= m1 < 2 ^ 32 -> 0 <= m2 < 2 ^ 32 ->
  0 <= Z.lor (Z.land x m1) (Z.land y m2) < 2 ^ 32.
Proof.
  intros H1 H2. set (r := Z.lor (Z.land x m1) (Z.land y m2)).
  assert (Hm : forall m n, 0 <= m < 2 ^ 32 -> 32 <= n -> Z.testbit m n = false).
  { intros m n Hm Hn. destruct (Z.eq_dec m 0) as [->|]; [apply Z.testbit_0_l|].
    apply Z.bits_above_log2; [lia|].
    assert (Hlog : Z.log2 m < 32).
    { destruct (Z.log2_lt_pow2 m 32) as [Hl _]; [lia|]. apply Hl. lia. }
    lia. }
  assert (E : r mod 2 ^ 32 = r).
  { apply Z.bits_inj'. intros n Hn. rewrite Z.testbit_mod_pow2 by lia.
    destruct (Z.ltb_spec n 32); [reflexivity|]. simpl. unfold r.
    rewrite Z.lor_spec, !Z.land_spec, (Hm m1), (Hm m2) by auto.
    rewrite !andb_false_r. reflexivity. }
  rewrite <- E. apply Z.mod_pos_bound. lia.
Qed.

Lemma major_u32 dev : 0 <= major dev < 2 ^ 32.
Proof. apply masked_pair_u32; lia. Qed.

Lemma minor_u32 dev : 0 <= minor dev < 2 ^ 32.
Proof. apply masked_pair_u32; lia. Qed.

(** Converting such a value to [int] keeps the small ones apart. *)
Lemma to_int_u32_eqb x c :
  0 <= x < 2 ^ 32 -> 0 <= c < 2 ^ 31 -> (CInt.to_int x =? c) = (x =? c).
Proof.
  intros Hx Hc. unfold CInt.to_int, CInt.signed.
  rewrite Z.mod_small by lia. change (2 ^ (32 - 1)) with (2 ^ 31).
  destruct (Z.ltb_spec x (2 ^ 31)); [reflexivity|].
  destruct (Z.eqb_spec (x - 2 ^ 32) c), (Z.eqb_spec x c); auto; lia.
Qed.

Lemma random_device_test st :
  S_ISCHR (st_mode st)
  && ((CInt.to_int (major (st_rdev st)) =? 1)
      && ((CInt.to_int (minor (st_rdev st)) =? 8)
          || (CInt.to_int (minor (st_rdev st)) =? 9))) = true
  <-> random_device st.
Proof.
  unfold random_device, has_type, S_ISCHR.
  rewrite !to_int_u32_eqb by (auto using major_u32, minor_u32; lia).
  rewrite !andb_true_iff, orb_true_iff, !Z.eqb_eq. tauto.
Qed.

Lemma jcmd_socket_test self st i :
  S_ISSOCK (st_mode st) && is_socket_from_jcmd self i = true
  <-> jcmd_socket self st i.
Proof.
  unfold jcmd_socket, has_type, S_ISSOCK, is_socket_from_jcmd.
  rewrite andb_true_iff, Z.eqb_eq. destruct (_attach_op self) as [s|].
  - rewrite Z.eqb_eq. split; intros [H1 H2]; split; auto; congruence.
  - split; intros [H1 H2]; discriminate.
Qed.

(** The kind [stat2stfail] gives is the one that goes with the type. *)
Lemma stat2stfail_kind st :
  kind_for st (stat2stfail (Z.land (st_mode st) S_IFMT)).
Proof.
  unfold kind_for, has_type, stat2stfail.
  rewrite <- Z.land_assoc, Z.land_diag.
  set (m := Z.land (st_mode st) S_IFMT).
  unfold S_IFSOCK, S_IFLNK, S_IFREG, S_IFBLK, S_IFDIR, S_IFCHR, S_IFIFO.
  destruct (Z.eqb_spec m 49152), (Z.eqb_spec m 40960), (Z.eqb_spec m 32768),
    (Z.eqb_spec m 24576), (Z.eqb_spec m 16384), (Z.eqb_spec m 8192),
    (Z.eqb_spec m 4096); simpl; repeat split; intros; try reflexivity;
    try lia; try tauto; try (exfalso; intuition lia).
Qed.

Lemma not_true_false b : b <> true <-> b = false.
Proof. destruct b; split; congruence. Qed.

Ltac rules_done :=
  simpl; repeat split; intros; try tauto; try (exfalso; tauto);
  try (exfalso; intuition congruence).

(** The rules are tried in their order, on every slot that is not closed. *)
Lemma doit_fd_rules w self p fds i :
  FdsInfo.get_state fds i FdsInfo.INVALID <> FdsInfo.CLOSED ->
  let st := FdsInfo.get_stat fds i in
  let v := fst (doit_fd w self p fds i) in
  (in_baseline p i -> v = Allowed Inherited) /\
  (~ in_baseline p i -> random_device st -> v = Allowed RandomDevice) /\
  (~ in_baseline p i -> ~ random_device st -> restorable_classpath fds i ->
   v = Allowed InClasspath) /\
  (~ in_baseline p i -> ~ random_device st -> ~ restorable_classpath fds i ->
   persistent fds i -> v = Allowed AssuredPersistent) /\
  (~ in_baseline p i -> ~ random_device st -> ~ restorable_classpath fds i ->
   ~ persistent fds i -> jcmd_socket self st i -> v = Allowed JcmdSocket) /\
  (~ in_baseline p i -> ~ random_device st -> ~ restorable_classpath fds i ->
   ~ persistent fds i -> ~ jcmd_socket self st i ->
   exists f, v = Blocking f /\ kind_for st (_type f)).
Proof.
  intros Hopen st v. unfold v, doit_fd.
  destruct (Z.eqb_spec (FdsInfo.get_state fds i FdsInfo.INVALID) FdsInfo.CLOSED);
    [contradiction|].
  destruct (FdsInfo.readfdlink (p_kernel p) i 128) as [linkret detailsbuf].
  fold st.
  pose proof (random_device_test st) as Hrd.
  pose proof (jcmd_socket_test self st i) as Hjs.
  unfold in_baseline, restorable_classpath, persistent.
  destruct (Z.eqb_spec (FdsInfo.get_state (_vm_inited_fds p) i FdsInfo.CLOSED)
              FdsInfo.CLOSED) as [Eb|Eb]; simpl negb; cbv iota.
  2:{ rules_done. }
  destruct (S_ISCHR (st_mode st) && _) eqn:Er.
  { rules_done. }
  assert (Hnr : ~ random_device st) by (rewrite <- Hrd; congruence).
  destruct (FdsInfo.check fds i FdsInfo.M_CLASSPATH) eqn:Ec;
    destruct (FdsInfo.check fds i FdsInfo.M_CANT_RESTORE) eqn:Ex; simpl andb; cbv iota;
    try solve [rules_done].
  all: destruct (FdsInfo.check fds i FdsInfo.M_PERSISTENT) eqn:Ep;
    try solve [rules_done].
  all: destruct (S_ISSOCK (st_mode st) && is_socket_from_jcmd self i) eqn:Ej;
    try solve [rules_done].
  all: simpl; repeat split; intros; try (exfalso; tauto);
    try (exfalso; intuition congruence);
    eexists; (split; [reflexivity|]); apply stat2stfail_kind.
Qed.

(** The failure list after the loop: the records of the blocked
    descriptors after those it started with, in the order of the table. *)
Lemma doit_steps_failures w self p fds l : forall e,
  e_failures (fold_left (doit_step w self p fds) l e)
  = e_failures e ++ blocked w self p fds l.
Proof.
  induction l as [|i l IH]; intros e; simpl.
  - rewrite app_nil_r. reflexivity.
  - rewrite IH. unfold doit_step.
    destruct (doit_fd w self p fds i) as [[| |f] lines]; simpl;
      rewrite <- ?app_assoc; reflexivity.
Qed.

Lemma doit_steps_ok w self p fds l : forall e,
  e_ok (fold_left (doit_step w self p fds) l e)
  = e_ok e && match blocked w self p fds l with [] => true | _ => false end.
Proof.
  induction l as [|i l IH]; intros e; simpl.
  - rewrite andb_true_r. reflexivity.
  - rewrite IH. unfold doit_step.
    destruct (doit_fd w self p fds i) as [[| |f] lines]; simpl;
      rewrite ?andb_false_r; reflexivity.
Qed.

Lemma doit_evaluate_failures w self p fds :
  e_failures (doit_evaluate w self p fds)
  = _failures self ++ blocked w self p fds (seq 0 (table_len fds)).
Proof. unfold doit_evaluate. rewrite doit_steps_failures. reflexivity. Qed.

Lemma doit_evaluate_ok w self p fds :
  e_ok (doit_evaluate w self p fds)
  = negb (_dry_run self)
    && match blocked w self p fds (seq 0 (table_len fds)) with
       | [] => true | _ => false end.
Proof. unfold doit_evaluate. rewrite doit_steps_ok. reflexivity. Qed.

Lemma blocked_in w self p fds l i f :
  In i l -> fst (doit_fd w self p fds i) = Blocking f ->
  In f (blocked w self p fds l).
Proof.
  intros Hi Hf. unfold blocked. apply in_flat_map. exists i. split; auto.
  rewrite Hf. left. reflexivity.
Qed.

Lemma in_table_of_state fds i :
  FdsInfo.get_state fds i FdsInfo.INVALID <> FdsInfo.INVALID ->
  In i (seq 0 (table_len fds)).
Proof.
  unfold FdsInfo.get_state, table_len. intros H.
  destruct (Z.ltb_spec (Z.of_nat i) (FdsInfo.len fds)); [|contradiction].
  apply in_seq. lia.
Qed.

End ResourcePolicy.

(** ** The decision on a descriptor and the result of the evaluation *)
Section PolicyClaims.
Import Stat Kernel Crac Policy Samples.

(** C1.  For a descriptor that is open and canonical the rules are tried
    in this order: open in the snapshot of the start; a character device with
    major 1 and minor 8 or 9; marked CLASSPATH and not CANT_RESTORE; marked
    PERSISTENT; a socket that is the one of the attach operation; each lets
    the descriptor through.  Otherwise the descriptor blocks: a failure
    record is appended whose kind goes with the file type (socket: SOCK;
    symlink, regular, block, directory, character: FILE; FIFO: PIPE; anything
    else: the generic kind), and the evaluation is not ok. *)
Theorem descriptor_policy w self p fds i :
  FdsInfo.get_state fds i FdsInfo.INVALID = FdsInfo.ROOT ->
  let st := FdsInfo.get_stat fds i in
  let v := fst (doit_fd w self p fds i) in
  let e := doit_evaluate w self p fds in
  (in_baseline p i -> v = Allowed Inherited) /\
  (~ in_baseline p i -> random_device st -> v = Allowed RandomDevice) /\
  (~ in_baseline p i -> ~ random_device st -> restorable_classpath fds i ->
   v = Allowed InClasspath) /\
  (~ in_baseline p i -> ~ random_device st -> ~ restorable_classpath fds i ->
   persistent fds i -> v = Allowed AssuredPersistent) /\
  (~ in_baseline p i -> ~ random_device st -> ~ restorable_classpath fds i ->
   ~ persistent fds i -> jcmd_socket self st i -> v = Allowed JcmdSocket) /\
  (~ in_baseline p i -> ~ random_device st -> ~ restorable_classpath fds i ->
   ~ persistent fds i -> ~ jcmd_socket self st i ->
   exists f, v = Blocking f /\ kind_for st (_type f) /\
     In f (e_failures e) /\ e_ok e = false).
Proof.
  intros Hroot st v e.
  assert (Hopen : FdsInfo.get_state fds i FdsInfo.INVALID <> FdsInfo.CLOSED)
    by (rewrite Hroot; discriminate).
  destruct (doit_fd_rules w self p fds i Hopen) as (R1 & R2 & R3 & R4 & R5 & R6).
  repeat (split; [assumption|]).
  intros N1 N2 N3 N4 N5. destruct (R6 N1 N2 N3 N4 N5) as (f & Hv & Hk).
  assert (Hin : In f (blocked w self p fds (seq 0 (table_len fds)))).
  { apply blocked_in with (i := i); auto. apply in_table_of_state.
    rewrite Hroot. discriminate. }
  exists f. split; [exact Hv|]. split; [exact Hk|]. split.
  - unfold e. rewrite doit_evaluate_failures. apply in_or_app. right. exact Hin.
  - unfold e. rewrite doit_evaluate_ok.
    destruct (blocked w self p fds (seq 0 (table_len fds))); [contradiction|].
    apply andb_false_r.
Qed.

(** The file of the application on descriptor 6 blocks, as a FILE. *)
Lemma descriptor_policy_witness :
  exists f,
    fst (doit_fd (w_app true false 0 0) (new_VM_Crac (w_app true false 0 0) false false)
           p_app fds_app 6) = Blocking f /\
    _type f = JVM_CR_FAIL_FILE.
Proof.
  assert (Hroot : FdsInfo.get_state fds_app 6 FdsInfo.INVALID = FdsInfo.ROOT)
    by (vm_compute; reflexivity).
  destruct (descriptor_policy (w_app true false 0 0)
              (new_VM_Crac (w_app true false 0 0) false false) p_app fds_app 6 Hroot)
    as (_ & _ & _ & _ & _ & R6).
  destruct R6 as (f & Hv & (_ & Hfile & _) & _).
  - unfold in_baseline. vm_compute. intros H; apply H; reflexivity.
  - unfold random_device, has_type. intros (H & _). vm_compute in H. discriminate H.
  - unfold restorable_classpath. intros (H & _). vm_compute in H. discriminate H.
  - unfold persistent. intros H. vm_compute in H. discriminate H.
  - unfold jcmd_socket. intros (_ & H). vm_compute in H. discriminate H.
  - exists f. split; [exact Hv|]. apply Hfile. right. left. vm_compute. reflexivity.
Defined.

(** The other descriptors of that process. *)
Lemma sample_verdicts :
  let w := w_app true false 0 0 in
  map (fun i => fst (doit_fd w (new_VM_Crac w false false) p_app fds_app i))
      [0; 3; 4; 5; 6; 7; 8]%nat
  = [Allowed Inherited; Allowed RandomDevice; Skipped; Allowed InClasspath;
     Blocking (mk_fail JVM_CR_FAIL_FILE "/tmp/data");
     Blocking (mk_fail JVM_CR_FAIL_SOCK "socket:[555]");
     Blocking (mk_fail JVM_CR_FAIL_PIPE "pipe:[666]")].
Proof. vm_compute. reflexivity. Qed.

(** C3 (as amended).  The evaluation is ok exactly when it produced no
    failure record and the operation is not a dry run; the records are those
    of the blocked descriptors, so that a table without any yields an empty
    failure list, in a dry run too; a dry run is never ok. *)
Theorem evaluation_ok_iff w p fds dry_run jcmd_stream :
  let self := new_VM_Crac w dry_run jcmd_stream in
  let e := doit_evaluate w self p fds in
  (e_ok e = true <-> e_failures e = [] /\ dry_run = false) /\
  e_failures e = blocked w self p fds (seq 0 (table_len fds)) /\
  ((forall i f, fst (doit_fd w self p fds i) <> Blocking f) -> e_failures e = []) /\
  (dry_run = true -> e_ok e = false).
Proof.
  intros self e. unfold e.
  rewrite doit_evaluate_ok, doit_evaluate_failures. simpl _failures. simpl _dry_run.
  simpl app. split; [|split; [reflexivity|split]].
  - destruct (blocked w self p fds (seq 0 (table_len fds))), dry_run; simpl;
      split; intros; try discriminate; intuition discriminate.
  - intros Hnone. unfold blocked.
    induction (seq 0 (table_len fds)) as [|i l IH]; simpl; auto.
    rewrite IH, app_nil_r.
    destruct (fst (doit_fd w self p fds i)) as [| |f] eqn:E; auto.
    exfalso. apply (Hnone i f). exact E.
  - intros ->. reflexivity.
Qed.

(** A dry run of a process that has only the descriptors of the start open
    produces no failure record and is not ok. *)
Lemma dry_run_without_failures_is_not_ok :
  ~ ok_iff_clean_or_dry_run (w_app true false 0 0) p_stdio fds_stdio true false.
Proof.
  unfold ok_iff_clean_or_dry_run. intros [_ H].
  assert (E : e_ok (doit_evaluate (w_app true false 0 0)
                (new_VM_Crac (w_app true false 0 0) true false) p_stdio fds_stdio) = true)
    by (apply H; right; reflexivity).
  vm_compute in E. discriminate E.
Qed.

(** The whole of that dry run: [checkpoint] answers with the error code and
    empty lists of failures, and nothing was done. *)
Lemma clean_dry_run_reports_error :
  let c := checkpoint (w_app true false 0 0) p_stdio true false in
  fst c = mk_bundle JVM_CHECKPOINT_ERROR None [] [] [] /\
  res_trace (snd c) = [] /\ _ok (res_vm (snd c)) = false.
Proof. vm_compute. auto. Qed.

End PolicyClaims.

(** ** The course of [VM_Crac::doit] *)
Section Orchestrator.
Import Stat Kernel Crac Policy.

Lemma occurs_app k a b : occurs k (a ++ b) = occurs k a || occurs k b.
Proof. unfold occurs. apply existsb_app. Qed.

Lemma in_occurs e tr : In e tr -> occurs (event_kind e) tr = true.
Proof.
  intros H. unfold occurs. apply existsb_exists. exists e. split; auto.
  apply Nat.eqb_refl.
Qed.

Lemma occurs_in k tr : occurs k tr = true -> exists e, In e tr /\ event_kind e = k.
Proof.
  unfold occurs. intros H. apply existsb_exists in H. destruct H as (e & Hin & Hk).
  exists e. split; auto. apply Nat.eqb_eq. exact Hk.
Qed.

Lemma occurs_cons k e tr :
  occurs k (e :: tr) = Nat.eqb (event_kind e) k || occurs k tr.
Proof. reflexivity. Qed.

Lemma occurs_single k e : event_kind e <> k -> occurs k [e] = false.
Proof.
  intros H. rewrite occurs_cons. destruct (Nat.eqb_spec (event_kind e) k);
    [contradiction|reflexivity].
Qed.

Lemma occurs_print_resources w self lines k :
  k <> 0%nat -> occurs k (print_resources w self lines) = false.
Proof.
  intros Hk. unfold print_resources. destruct (CRPrintResourcesOnCheckpoint _); auto.
  induction lines as [|l lines IH]; auto.
  cbn [map]. rewrite occurs_cons, IH. simpl event_kind.
  destruct (Nat.eqb_spec 0 k); [congruence|reflexivity].
Qed.

Lemma occurs_trace_cr w self msg k :
  k <> 1%nat -> occurs k (trace_cr w self msg) = false.
Proof.
  intros Hk. unfold trace_cr. destruct (CRTrace _); auto.
  apply occurs_single. simpl. congruence.
Qed.

Lemma occurs_eintr_loop e n k :
  occurs k (eintr_loop e n) = Nat.eqb (event_kind e) k.
Proof.
  induction n as [|n IH]; cbn [eintr_loop]; rewrite occurs_cons.
  - apply orb_false_r.
  - rewrite IH. apply orb_diag.
Qed.

Lemma occurs_report_ok self k :
  k <> 4%nat -> occurs k (snd (report_ok_to_jcmd_if_any self)) = false.
Proof.
  intros Hk. unfold report_ok_to_jcmd_if_any.
  destruct (_attach_op self); cbn [snd]; auto.
  apply occurs_single. simpl. congruence.
Qed.

Lemma report_ok_keeps self :
  let self' := fst (report_ok_to_jcmd_if_any self) in
  _ok self' = _ok self /\ _failures self' = _failures self /\
  _restore_parameters self' = _restore_parameters self /\
  _dry_run self' = _dry_run self.
Proof. unfold report_ok_to_jcmd_if_any. destruct (_attach_op self); simpl; auto. Qed.

(** The engine adapter answers -1 exactly when the engine failed, and 0
    otherwise; it forks and waits and does nothing else. *)
Lemma call_crengine_failed w p :
  engine_failed w p -> fst (call_crengine w p) = -1.
Proof.
  unfold engine_failed, call_crengine.
  intros H. destruct (_crengine p); [|reflexivity].
  destruct (Z.eqb_spec (w_fork w) (-1)); [reflexivity|].
  destruct (Z.eqb_spec (w_waitpid w) (-1)); [reflexivity|].
  destruct (WIFEXITED (w_status w)); [|reflexivity]. simpl.
  destruct (Z.eqb_spec (WEXITSTATUS (w_status w)) 0); [|reflexivity].
  exfalso. destruct H as [H|[H|[H|[H|H]]]]; congruence.
Qed.



Lemma occurs_call_crengine w p k :
  k <> 6%nat -> k <> 7%nat -> occurs k (snd (call_crengine w p)) = false.
Proof.
  intros H6 H7. unfold call_crengine. destruct (_crengine p); [|reflexivity].
  assert (Hf : occurs k [EvFork] = false).
  { apply occurs_single. simpl. congruence. }
  assert (Hw : occurs k (EvFork :: eintr_loop EvWaitpid (w_wait_eintr w)) = false).
  { rewrite occurs_cons, occurs_eintr_loop. simpl event_kind.
    destruct (Nat.eqb_spec 6 k), (Nat.eqb_spec 7 k); auto; congruence. }
  destruct (w_fork w =? -1); [exact Hf|].
  destruct (_ || _); simpl; exact Hw.
Qed.

(** When the engine failed, [checkpoint_restore] returns the error before
    any wait for the signal. *)
Lemma checkpoint_restore_engine_failed w p shmid :
  engine_failed w p ->
  checkpoint_restore w p shmid
  = (JVM_CHECKPOINT_ERROR, shmid, EvCallCrengine :: snd (call_crengine w p)).
Proof.
  intros H. unfold checkpoint_restore.
  pose proof (call_crengine_failed w p H) as Hc.
  destruct (call_crengine w p) as [cres evs]. simpl in *. subst cres. reflexivity.
Qed.


(** *** The part of [doit] after the evaluation *)

Lemma quiet_nil : quiet [].
Proof. intros k _ _ _ _. reflexivity. Qed.

Lemma quiet_app a b : quiet a -> quiet b -> quiet (a ++ b).
Proof.
  intros Ha Hb k K1 K2 K3 K4. rewrite occurs_app, Ha, Hb by auto. reflexivity.
Qed.

Lemma quiet_heap_dump (b : bool) : quiet (if b then [EvHeapDump] else []).
Proof.
  destruct b; [|apply quiet_nil]. intros k _ K2 _ _.
  apply occurs_single. simpl. congruence.
Qed.

Lemma quiet_trace_cr w self msg : quiet (trace_cr w self msg).
Proof. intros k K1 _ _ _. apply occurs_trace_cr. exact K1. Qed.

Lemma quiet_report self : quiet (snd (report_ok_to_jcmd_if_any self)).
Proof. intros k _ _ _ K4. apply occurs_report_ok. exact K4. Qed.

Lemma quiet_perf_checkpoint : quiet [EvPerfCheckpoint].
Proof. intros k _ _ K3 _. apply occurs_single. simpl. congruence. Qed.

(** Without the engine: the operation returns at the check of the
    failures, or at the checkpoint of the performance memory, or goes on as
    if restored when checkpoints are skipped. *)
Lemma doit_finish_stops_early w self p ok :
  negb ok && CRDoThrowCheckpointException (w_flags w) = true ->
  let r := doit_finish w self p ok in
  res_vm r = self /\ res_process r = p /\ res_aborted r = false /\
  res_trace r = (if negb ok && CRHeapDumpOnCheckpointException (w_flags w)
                 then [EvHeapDump] else []).
Proof. intros H. unfold doit_finish. rewrite H. simpl. auto. Qed.

Lemma doit_finish_perf_fails w self p ok :
  negb ok && CRDoThrowCheckpointException (w_flags w) = false ->
  w_perf_checkpoint w = false ->
  let r := doit_finish w self p ok in
  res_vm r = self /\ res_process r = p /\ res_aborted r = false /\ quiet (res_trace r).
Proof.
  intros H Hp. unfold doit_finish. rewrite H, Hp. simpl.
  repeat split. apply quiet_app; [apply quiet_heap_dump|apply quiet_perf_checkpoint].
Qed.

Lemma doit_finish_skips w self p ok :
  negb ok && CRDoThrowCheckpointException (w_flags w) = false ->
  w_perf_checkpoint w = true ->
  CRAllowToSkipCheckpoint (w_flags w) = true ->
  let r := doit_finish w self p ok in
  exists tr, quiet tr /\ res_trace r = tr ++ [EvPerfRestore] /\
    res_vm r = with_ok self true /\ res_aborted r = false.
Proof.
  intros H Hp Hs. unfold doit_finish. rewrite H, Hp, Hs. simpl.
  eexists. split; [|split; [reflexivity|auto]].
  repeat apply quiet_app; auto using quiet_heap_dump, quiet_perf_checkpoint,
    quiet_trace_cr.
Qed.

(** With the engine: what [checkpoint_restore] returns decides. *)
Lemma doit_finish_engine w self p ok :
  negb ok && CRDoThrowCheckpointException (w_flags w) = false ->
  w_perf_checkpoint w = true ->
  CRAllowToSkipCheckpoint (w_flags w) = false ->
  exists tr0, quiet tr0 /\ In EvPerfCheckpoint tr0 /\
    doit_finish w self p ok =
    let self1 := fst (report_ok_to_jcmd_if_any self) in
    let now := RestoreClock.record (w_millis w) (w_nanos w) in
    match checkpoint_restore w p 0 with
    | (JVM_CHECKPOINT_ERROR, _, evs) =>
        mk_result self1 p ((tr0 ++ evs) ++ [EvPerfRestore]) false
    | (_, shmid, evs) =>
        if shmid <=? 0
        then mk_result (with_ok self1 true) (with_clock p now)
               ((tr0 ++ evs) ++ [EvPerfRestore]) false
        else
          match read_shm w self1 p shmid with
          | (None, evs') => mk_result self1 p ((tr0 ++ evs) ++ evs') true
          | (Some (false, self2, p2), evs') =>
              mk_result (with_ok self2 true) (with_clock p2 now)
                ((tr0 ++ evs) ++ evs' ++ [EvPerfRestore]) false
          | (Some (true, self2, p2), evs') =>
              mk_result (with_ok self2 true) p2
                ((tr0 ++ evs) ++ evs' ++ [EvPerfRestore]) false
          end
    end.
Proof.
  intros H Hp Hs. unfold doit_finish. rewrite H, Hp, Hs. cbn [negb].
  cbv iota zeta.
  destruct (report_ok_to_jcmd_if_any self) as [self1 evr] eqn:Er.
  pose proof (quiet_report self) as Hq. rewrite Er in Hq. cbn [snd fst] in *.
  eexists. split; [|split].
  3:{ destruct (checkpoint_restore w p 0) as [[ret shmid] evs].
      destruct ret; reflexivity. }
  - repeat apply quiet_app; auto using quiet_heap_dump, quiet_perf_checkpoint,
      quiet_trace_cr.
  - apply in_or_app. left. apply in_or_app. left. apply in_or_app. right.
    left. reflexivity.
Qed.

End Orchestrator.

(** ** Dry run, engine failure and the restore signal *)
Section Attempt.
Import Stat Kernel Crac Policy Samples.

Lemma doit_prepare_keeps w p fds p' :
  doit_prepare w p = Some (fds, p') ->
  _crengine p' = _crengine p /\ p_clock p' = p_clock p.
Proof.
  unfold doit_prepare. destruct (FdsInfo.initialize _ _) as [[f k]|]; [|discriminate].
  destruct (Registry.mark_persistent _ _) as [[f' reg]|]; [|discriminate].
  intros H. inversion H; subst. simpl. auto.
Qed.

Lemma engine_failed_ext w p p' :
  _crengine p' = _crengine p -> engine_failed w p -> engine_failed w p'.
Proof. unfold engine_failed. intros ->. auto. Qed.

(** [doit] is the evaluation followed by the rest, unless the table cannot
    be built. *)
Lemma doit_unfold w self p :
  match doit_prepare w p with
  | None => doit w self p = mk_result self p [] true
  | Some (fds, p') =>
      let e := doit_evaluate w self p' fds in
      let self' := with_failures self (e_failures e) in
      let rf := doit_finish w self' p' (e_ok e) in
      doit w self p =
      mk_result (res_vm rf) (res_process rf)
        (print_resources w self' (e_lines e) ++ res_trace rf) (res_aborted rf)
  end.
Proof. unfold doit. destruct (doit_prepare w p) as [[fds p']|]; reflexivity. Qed.

Lemma not_occurs_not_in e tr : occurs (event_kind e) tr = false -> ~ In e tr.
Proof. intros H Hin. apply in_occurs in Hin. congruence. Qed.

(** C8 (as amended).  With CRDoThrowCheckpointException set, a dry run ends
    after the evaluation of the resources: the engine is not invoked, the
    wait for the signal is not entered, the performance memory is not
    checkpointed; nothing is done but printing the resources and, when
    asked for, dumping the heap; the operation is not ok. *)
Theorem dry_run_stops_after_evaluation w p jcmd_stream :
  CRDoThrowCheckpointException (w_flags w) = true ->
  let r := doit w (new_VM_Crac w true jcmd_stream) p in
  ~ engine_invoked r /\ ~ signal_wait_entered r /\
  ~ In EvCallCrengine (res_trace r) /\ ~ In EvPerfCheckpoint (res_trace r) /\
  _ok (res_vm r) = false /\
  (forall e, In e (res_trace r) -> e = EvHeapDump \/ exists o l, e = EvResources o l).
Proof.
  intros Hthrow r.
  assert (Hshape : _ok (res_vm r) = false /\
            forall e, In e (res_trace r) ->
              e = EvHeapDump \/ exists o l, e = EvResources o l).
  { unfold r. pose proof (doit_unfold w (new_VM_Crac w true jcmd_stream) p) as Hu.
    destruct (doit_prepare w p) as [[fds p']|].
    - cbv zeta in Hu. rewrite Hu. clear Hu. cbn [res_vm res_trace].
      set (self := new_VM_Crac w true jcmd_stream).
      set (e := doit_evaluate w self p' fds).
      assert (Hok : e_ok e = false) by (unfold e; rewrite doit_evaluate_ok; reflexivity).
      rewrite Hok.
      destruct (doit_finish_stops_early w (with_failures self (e_failures e)) p' false)
        as (Hvm & _ & _ & Htr); [simpl; exact Hthrow|].
      rewrite Hvm, Htr. split; [reflexivity|].
      intros ev Hin. apply in_app_or in Hin. destruct Hin as [Hin|Hin].
      + right. unfold print_resources in Hin.
        destruct (CRPrintResourcesOnCheckpoint _); [|contradiction].
        apply in_map_iff in Hin. destruct Hin as (l & <- & _). eauto.
      + left. destruct (_ && _); [|contradiction].
        destruct Hin as [<-|[]]. reflexivity.
    - rewrite Hu. split; [reflexivity|]. intros ev []. }
  destruct Hshape as [Hok Hev].
  assert (Hnot : forall ev, (ev <> EvHeapDump) ->
            (forall o l, ev <> EvResources o l) -> ~ In ev (res_trace r)).
  { intros ev H1 H2 Hin. destruct (Hev ev Hin) as [->|(o & l & ->)]; [congruence|].
    apply (H2 o l). reflexivity. }
  unfold engine_invoked, signal_wait_entered.
  repeat split; try (apply Hnot; [discriminate|intros; discriminate]); auto.
Qed.

Lemma dry_run_stops_after_evaluation_witness :
  let r := doit (w_app true false 0 0) (new_VM_Crac (w_app true false 0 0) true false)
             p_app in
  ~ engine_invoked r /\ ~ signal_wait_entered r /\ _ok (res_vm r) = false /\
  map _type (_failures (res_vm r))
  = [JVM_CR_FAIL_FILE; JVM_CR_FAIL_SOCK; JVM_CR_FAIL_PIPE].
Proof.
  destruct (dry_run_stops_after_evaluation (w_app true false 0 0) p_app false
              eq_refl) as (H1 & H2 & _ & _ & H5 & _).
  repeat split; auto.
Defined.

(** Without CRDoThrowCheckpointException a dry run goes on to the engine
    and to the wait for the signal. *)
Lemma dry_run_without_throw_invokes_engine :
  ~ dry_run_never_invokes (w_app false false 0 0) p_app.
Proof.
  intros H. destruct (H false) as [Hinv _]. apply Hinv.
  unfold engine_invoked. vm_compute. tauto.
Qed.

(** [checkpoint] runs [doit] once the target directory is there, and
    reports what [doit] left in the operation. *)
Lemma checkpoint_runs w p dry_run jcmd_stream :
  let c := checkpoint w p dry_run jcmd_stream in
  let r := doit w (new_VM_Crac w dry_run jcmd_stream) p in
  res_trace (snd c) <> [] ->
  snd c = r /\
  fst c = if _ok (res_vm r)
          then mk_bundle JVM_CHECKPOINT_OK
                 (RestoreParameters.args (_restore_parameters (res_vm r)))
                 (RestoreParameters.properties (_restore_parameters (res_vm r)))
                 [] []
          else mk_bundle JVM_CHECKPOINT_ERROR None []
                 (map _type (_failures (res_vm r)))
                 (map _msg (_failures (res_vm r))).
Proof.
  unfold checkpoint. destruct (CRaCCheckpointTo (w_flags w)); simpl; [|congruence].
  destruct (w_mkdir_ok w); simpl; [|congruence].
  intros _. destruct (_ok (res_vm (doit w (new_VM_Crac w dry_run jcmd_stream) p)));
    split; reflexivity.
Qed.

Lemma in_constant_event e tr :
  occurs (event_kind e) tr = true ->
  (forall e', event_kind e' = event_kind e -> e' = e) -> In e tr.
Proof.
  intros H Hc. apply occurs_in in H. destruct H as (e' & Hin & Hk).
  rewrite <- (Hc e' Hk). exact Hin.
Qed.

(** What [doit] does when it has called the engine and the engine
    failed. *)
Lemma doit_engine_failed w self p :
  engine_failed w p ->
  let r := doit w self p in
  In EvCallCrengine (res_trace r) ->
  _ok (res_vm r) = _ok self /\ ~ signal_wait_entered r /\
  (exists tr, res_trace r = tr ++ [EvPerfRestore] /\ In EvPerfCheckpoint tr) /\
  res_aborted r = false.
Proof.
  intros Hfail r. unfold r. pose proof (doit_unfold w self p) as Hu.
  destruct (doit_prepare w p) as [[fds p']|] eqn:Ep.
  2:{ rewrite Hu. simpl. contradiction. }
  cbv zeta in Hu. rewrite Hu. clear Hu. cbn [res_vm res_trace res_aborted].
  apply doit_prepare_keeps in Ep. destruct Ep as [Hce _].
  apply (engine_failed_ext w p p' Hce) in Hfail.
  set (e := doit_evaluate w self p' fds).
  set (self' := with_failures self (e_failures e)).
  assert (Hpr : forall k, k <> 0%nat ->
            occurs k (print_resources w self' (e_lines e)) = false)
    by (intros; apply occurs_print_resources; auto).
  intros Hin. apply in_occurs in Hin. simpl event_kind in Hin.
  rewrite occurs_app, Hpr in Hin by discriminate. simpl orb in Hin.
  destruct (negb (e_ok e) && CRDoThrowCheckpointException (w_flags w)) eqn:Hg.
  { destruct (doit_finish_stops_early w self' p' (e_ok e) Hg) as (_ & _ & _ & Htr).
    rewrite Htr in Hin. destruct (_ && _); discriminate Hin. }
  destruct (w_perf_checkpoint w) eqn:Hperf.
  2:{ destruct (doit_finish_perf_fails w self' p' (e_ok e) Hg Hperf) as (_ & _ & _ & Hq).
      rewrite Hq in Hin by discriminate. discriminate Hin. }
  destruct (CRAllowToSkipCheckpoint (w_flags w)) eqn:Hskip.
  { destruct (doit_finish_skips w self' p' (e_ok e) Hg Hperf Hskip)
      as (tr & Hq & Htr & _).
    rewrite Htr, occurs_app, Hq in Hin by discriminate. discriminate Hin. }
  destruct (doit_finish_engine w self' p' (e_ok e) Hg Hperf Hskip)
    as (tr0 & Hq & Hpc & Hfin).
  rewrite checkpoint_restore_engine_failed in Hfin by exact Hfail.
  cbv zeta iota in Hfin. rewrite Hfin. cbn [res_vm res_trace res_aborted].
  destruct (report_ok_keeps self') as (Hok & _). cbv zeta in Hok.
  split; [rewrite Hok; reflexivity|]. split; [|split; [|reflexivity]].
  - unfold signal_wait_entered. cbn [res_trace]. apply not_occurs_not_in.
    simpl event_kind. rewrite !occurs_app, Hpr, Hq, occurs_cons by discriminate.
    rewrite occurs_call_crengine by discriminate. reflexivity.
  - exists (print_resources w self' (e_lines e)
            ++ tr0 ++ EvCallCrengine :: snd (call_crengine w p')).
    split; [rewrite <- !app_assoc; reflexivity|].
    apply in_or_app. right. apply in_or_app. left. exact Hpc.
Qed.

(** C7.  When the engine fails (it exits with a status other than zero,
    ends otherwise than by exiting, or cannot be started) in an attempt that
    got as far as calling it, the attempt returns the checkpoint error: the
    wait for the signal is not entered, the performance memory that was
    checkpointed is restored as the last step, and the operation is not
    ok. *)
Theorem engine_failure_is_an_error w p dry_run jcmd_stream :
  engine_failed w p ->
  let c := checkpoint w p dry_run jcmd_stream in
  In EvCallCrengine (res_trace (snd c)) ->
  b_ret (fst c) = JVM_CHECKPOINT_ERROR /\
  _ok (res_vm (snd c)) = false /\
  ~ signal_wait_entered (snd c) /\
  (exists tr, res_trace (snd c) = tr ++ [EvPerfRestore] /\ In EvPerfCheckpoint tr) /\
  res_aborted (snd c) = false.
Proof.
  intros Hfail c Hin.
  assert (Hne : res_trace (snd c) <> []) by (intros E; rewrite E in Hin; contradiction).
  destruct (checkpoint_runs w p dry_run jcmd_stream Hne) as [Hr Hb].
  fold c in Hr, Hb.
  destruct (doit_engine_failed w (new_VM_Crac w dry_run jcmd_stream) p Hfail)
    as (Hok & Hsig & Hperf & Hab); [rewrite <- Hr; exact Hin|].
  rewrite <- Hr in Hok, Hsig, Hperf, Hab. simpl in Hok.
  split; [|auto]. rewrite Hb, <- Hr, Hok. reflexivity.
Qed.

(** The engine exits with status 1. *)
Lemma engine_failure_is_an_error_witness :
  let c := checkpoint (w_app false false 256 0) p_app false false in
  b_ret (fst c) = JVM_CHECKPOINT_ERROR /\ ~ signal_wait_entered (snd c) /\
  In EvPerfRestore (res_trace (snd c)).
Proof.
  assert (Hfail : engine_failed (w_app false false 256 0) p_app).
  { right. right. right. right. vm_compute. discriminate. }
  destruct (engine_failure_is_an_error (w_app false false 256 0) p_app false false Hfail)
    as (H1 & _ & H3 & (tr & Htr & _) & _).
  - vm_compute. tauto.
  - split; [exact H1|]. split; [exact H3|]. rewrite Htr.
    apply in_or_app. right. left. reflexivity.
Defined.

Lemma read_shm_events w self p shmid :
  snd (read_shm w self p shmid) = [EvShmOpen shmid; EvShmUnlink shmid].
Proof.
  unfold read_shm. destruct (w_shm w shmid); [|reflexivity].
  destruct (RestoreParameters.read_from _ _); reflexivity.
Qed.


Lemma in_shm_events id shmid :
  In (EvShmOpen id) [EvShmOpen shmid; EvShmUnlink shmid] -> id = shmid.
Proof. intros [H|[H|[]]]; congruence. Qed.




(** The signal arrives with the number of a segment that holds a block: the
    process of the start resumes with the arguments, the property and the
    restore time of the block, and the environment strings were given to
    [putenv]. *)
Lemma restore_with_block_sample :
  let c := checkpoint w_block p_stdio false false in
  fst c = mk_bundle JVM_CHECKPOINT_OK (Some args0) [[x6b; x3d; x76]] [] [] /\
  p_clock (res_process (snd c)) = RestoreClock.record 1700000000123 6000 /\
  p_putenv (res_process (snd c)) = environ0.
Proof. vm_compute. auto. Qed.

End Attempt.

(** ** Registering and deregistering persistent descriptors *)
Section RegistryLaws.
Import Registry RegistryProps.

Lemma register_search_place l d : forall i,
  match register_search l (_fd d) i with
  | (Some dup, _) => at_put l (dup - i) d = place l d /\ (i <= dup)%nat
  | (None, j) => insert_before l (j - i) d = place l d /\ (i <= j)%nat
  end.
Proof.
  induction l as [|pr l IH]; intros i; simpl.
  - rewrite Nat.sub_diag. auto.
  - destruct (Z.eqb_spec (_fd pr) (_fd d)).
    + rewrite Nat.sub_diag. auto.
    + destruct (Z.ltb_spec (_fd d) (_fd pr)).
      * rewrite Nat.sub_diag. auto.
      * specialize (IH (S i)).
        destruct (register_search l (_fd d) (S i)) as [[dup|] j];
          destruct IH as [IH Hle]; split; try lia.
        -- replace (dup - i)%nat with (S (dup - S i)) by lia.
           change (at_put (pr :: l) (S (dup - S i)) d)
             with (pr :: at_put l (dup - S i) d).
           rewrite IH. reflexivity.
        -- replace (j - i)%nat with (S (j - S i)) by lia.
           change (insert_before (pr :: l) (S (j - S i)) d)
             with (pr :: insert_before l (j - S i) d).
           rewrite IH. reflexivity.
Qed.

(** What [register_persistent_fd] leaves, once checkpoints are configured. *)
Lemma register_is_place dir reg fd st_dev st_ino :
  register_persistent_fd (Some dir) reg fd st_dev st_ino
  = Some (place (match reg with Some l => l | None => [] end) (desc fd st_dev st_ino)).
Proof.
  unfold register_persistent_fd.
  set (l := match reg with Some l => l | None => [] end).
  pose proof (register_search_place l (desc fd st_dev st_ino) 0) as H.
  simpl _fd in H.
  destruct (register_search l fd 0) as [[dup|] j]; destruct H as [H _];
    rewrite Nat.sub_0_r in H; rewrite H; reflexivity.
Qed.

Lemma place_bound l d x :
  Forall (fun b => x < _fd b) l -> x < _fd d -> Forall (fun b => x < _fd b) (place l d).
Proof.
  induction l as [|pr l IH]; intros Hl Hd; simpl.
  - constructor; auto.
  - inversion Hl; subst.
    destruct (_fd pr =? _fd d); [constructor; auto|].
    destruct (_fd d <? _fd pr); constructor; auto.
Qed.

Lemma place_increasing l d : increasing l -> increasing (place l d).
Proof.
  unfold increasing. induction l as [|pr l IH]; intros H; simpl.
  - constructor; constructor.
  - inversion H as [|? ? Hl Hpr]; subst.
    destruct (Z.eqb_spec (_fd pr) (_fd d)) as [E|E].
    + constructor; auto. rewrite <- E. exact Hpr.
    + destruct (Z.ltb_spec (_fd d) (_fd pr)).
      * constructor; auto. constructor; auto.
        eapply Forall_impl; [|exact Hpr]. simpl. intros; lia.
      * constructor; auto. apply place_bound; auto. lia.
Qed.







(** X4.  A descriptor registered below all the registered ones can be
    deregistered again, with the device and inode it was registered with: the
    registry is then as it was before. *)
Theorem register_then_deregister_lowest dir l fd st_dev st_ino fuel :
  Forall (fun pr => fd < _fd pr) l ->
  deregister_persistent_fd (S fuel) (Some dir)
    (register_persistent_fd (Some dir) (Some l) fd st_dev st_ino) fd st_dev st_ino
  = Some (Some l).
Proof.
  intros H. rewrite register_is_place.
  assert (Hp : place l (desc fd st_dev st_ino) = desc fd st_dev st_ino :: l).
  { destruct l as [|pr l']; [reflexivity|]. inversion H; subst. simpl.
    destruct (Z.eqb_spec (_fd pr) fd); [lia|].
    destruct (Z.ltb_spec fd (_fd pr)); [reflexivity|lia]. }
  rewrite Hp. unfold deregister_persistent_fd.
  rewrite deregister_search_first; [reflexivity|].
  unfold matches, desc. simpl. rewrite !Z.eqb_refl. reflexivity.
Qed.

Lemma register_then_deregister_lowest_witness :
  deregister_persistent_fd 1 (Some "cr"%string)
    (register_persistent_fd (Some "cr"%string) (Some [desc 5 1 11]) 3 (-1) 10) 3 (-1) 10
  = Some (Some [desc 5 1 11]).
Proof.
  apply (register_then_deregister_lowest "cr"%string [desc 5 1 11] 3 (-1) 10 0).
  repeat constructor.
Defined.

End RegistryLaws.

(** ** Marks of the descriptor table *)
Section MarkLaws.
Import Stat FdsInfo.

Lemma update_out l i g : (length l <= i)%nat -> update l i g = l.
Proof.
  revert i; induction l as [|x l IH]; intros [|i] H; simpl in *; auto; try lia.
  rewrite IH by lia. reflexivity.
Qed.

Lemma land_lor_zero a m m' :
  (Z.land (Z.lor a m) m' =? 0) = (Z.land a m' =? 0) && (Z.land m m' =? 0).
Proof.
  rewrite Z.land_lor_distr_l.
  destruct (Z.eqb_spec (Z.lor (Z.land a m') (Z.land m m')) 0) as [E|E].
  - apply Z.lor_eq_0_iff in E. destruct E as [-> ->]. reflexivity.
  - destruct (Z.eqb_spec (Z.land a m') 0) as [Ea|Ea]; auto.
    destruct (Z.eqb_spec (Z.land m m') 0) as [Em|Em]; auto.
    exfalso. apply E. rewrite Ea, Em. reflexivity.
Qed.

Lemma land_lnot_zero a m m' :
  Z.land m m' = 0 -> Z.land (Z.land a (Z.lnot m)) m' = Z.land a m'.
Proof.
  intros H. apply Z.bits_inj'. intros n Hn.
  rewrite !Z.land_spec, Z.lnot_spec by exact Hn.
  assert (Hb : Z.testbit (Z.land m m') n = false) by (rewrite H; apply Z.bits_0).
  rewrite Z.land_spec in Hb.
  destruct (Z.testbit a n), (Z.testbit m n), (Z.testbit m' n); simpl in *;
    congruence.
Qed.

Lemma check_mark_same l i m m' :
  (i < length l)%nat ->
  check (mark (Some l) i m) i m' = check (Some l) i m' || negb (Z.land m m' =? 0).
Proof.
  intros H. unfold check. simpl. rewrite at_update_eq by exact H. simpl.
  rewrite land_lor_zero. apply negb_andb.
Qed.

Lemma check_mark_other l i j m m' :
  i <> j -> check (mark (Some l) i m) j m' = check (Some l) j m'.
Proof.
  intros H. unfold check. simpl. rewrite at_update_neq by exact H. reflexivity.
Qed.

Lemma check_clear_other l i j m m' :
  i <> j -> check (clear (Some l) i m) j m' = check (Some l) j m'.
Proof.
  intros H. unfold check. simpl. rewrite at_update_neq by exact H. reflexivity.
Qed.

(** X5.  Marks are independent bits of one slot: after [mark(i, m)] the
    check of [m] at [i] holds, after [clear(i, m)] it fails, and neither
    changes the check of a mark that shares no bit with [m], nor any check
    at another slot. *)
Theorem mark_check_clear_laws l i m :
  (i < length l)%nat -> m <> 0 ->
  check (mark (Some l) i m) i m = true /\
  check (clear (Some l) i m) i m = false /\
  (forall m', Z.land m m' = 0 ->
     check (mark (Some l) i m) i m' = check (Some l) i m' /\
     check (clear (Some l) i m) i m' = check (Some l) i m') /\
  (forall j m', i <> j ->
     check (mark (Some l) i m) j m' = check (Some l) j m' /\
     check (clear (Some l) i m) j m' = check (Some l) j m').
Proof.
  intros H Hm. split; [|split; [|split]].
  - rewrite check_mark_same by exact H. rewrite Z.land_diag.
    destruct (Z.eqb_spec m 0); [contradiction|]. apply orb_true_r.
  - unfold check. simpl. rewrite at_update_eq by exact H. simpl.
    rewrite <- Z.land_assoc, (Z.land_comm (Z.lnot m) m), Z.land_lnot_diag,
      Z.land_0_r. reflexivity.
  - intros m' Hd. split.
    + rewrite check_mark_same by exact H. rewrite Hd. apply orb_false_r.
    + unfold check. simpl. rewrite at_update_eq by exact H. simpl.
      rewrite land_lnot_zero by exact Hd. reflexivity.
  - intros j m' Hj. split.
    + apply check_mark_other; exact Hj.
    + apply check_clear_other; exact Hj.
Qed.

Lemma mark_check_clear_laws_witness :
  check (mark (Some [default_fdinfo; default_fdinfo]) 1 M_CLASSPATH) 1 M_CLASSPATH
  = true.
Proof.
  apply (mark_check_clear_laws [default_fdinfo; default_fdinfo] 1 M_CLASSPATH).
  - simpl. lia.
  - discriminate.
Defined.

End MarkLaws.

(** ** [mark_persistent] *)
Section MarkPersistent.
Import Stat FdsInfo Registry RegistryProps.

Lemma asks_for_above l i st :
  Forall (fun b => Z.of_nat i < _fd b) l -> asks_for l i st = false.
Proof.
  unfold asks_for. induction l as [|pr l IH]; intros H; simpl; auto.
  inversion H; subst. rewrite IH by auto.
  destruct (Z.eqb_spec (_fd pr) (Z.of_nat i)); [lia|reflexivity].
Qed.

(** What the loop of [mark_persistent] leaves of an initialised table. *)
Lemma mark_entries_spec l : forall tl,
  increasing l -> Forall (fun pr => 0 <= _fd pr) l ->
  exists tl',
    mark_entries (Some tl) l = Some (Some tl') /\
    length tl' = length tl /\
    (forall i, state (at_ tl' i) = state (at_ tl i) /\
               stat_of (at_ tl' i) = stat_of (at_ tl i)) /\
    (forall i m', (i < length tl)%nat ->
       check (Some tl') i m'
       = check (Some tl) i m'
         || (negb (Z.land M_PERSISTENT m' =? 0)
             && (state (at_ tl i) =? ROOT)
             && asks_for l i (stat_of (at_ tl i)))).
Proof.
  unfold increasing.
  induction l as [|pr l IH]; intros tl Hs Hn.
  - exists tl. split; [reflexivity|]. split; [reflexivity|].
    split; [auto|]. intros i m' _. simpl asks_for.
    rewrite andb_false_r, orb_false_r. reflexivity.
  - inversion Hs as [|? ? Hs' Hpr]; subst. inversion Hn as [|? ? Hp Hn']; subst.
    cbn [mark_entries]. cbv zeta.
    destruct (Z.leb_spec (len (Some tl)) (_fd pr)) as [Hge|Hlt].
    + exists tl. split; [reflexivity|]. split; [reflexivity|].
      split; [auto|]. intros i m' Hi.
      rewrite asks_for_above; [rewrite andb_false_r, orb_false_r; reflexivity|].
      simpl in Hge. constructor; [lia|].
      eapply Forall_impl; [|exact Hpr]. simpl. intros; lia.
    + destruct (Z.ltb_spec (_fd pr) 0) as [|_]; [lia|].
      simpl in Hlt.
      assert (Hi0 : (Z.to_nat (_fd pr) < length tl)%nat) by lia.
      rewrite get_state_in by exact Hi0.
      assert (Hhead : forall i st,
        asks_for (pr :: l) i st
        = (Nat.eqb (Z.to_nat (_fd pr)) i
           && (st_dev st =? _st_dev pr) && (st_ino st =? _st_ino pr))
          || asks_for l i st).
      { intros i st. unfold asks_for. simpl. f_equal. f_equal. f_equal.
        destruct (Z.eqb_spec (_fd pr) (Z.of_nat i));
          destruct (Nat.eqb_spec (Z.to_nat (_fd pr)) i); auto; lia. }
      destruct (state (at_ tl (Z.to_nat (_fd pr))) =? ROOT) eqn:Er; cbn [negb].
      * unfold get_stat. simpl entries.
        destruct ((st_dev (stat_of (at_ tl (Z.to_nat (_fd pr)))) =? _st_dev pr)
                  && (st_ino (stat_of (at_ tl (Z.to_nat (_fd pr)))) =? _st_ino pr))
          eqn:Em.
        -- destruct (IH (update tl (Z.to_nat (_fd pr))
                      (fun x => mk_fdinfo (stat_of x) (state x)
                                  (Z.lor (mark_of x) M_PERSISTENT) (flags x))) Hs' Hn')
             as (tl' & E & Hlen & Hss & Hck).
           exists tl'. split; [exact E|]. rewrite update_length in Hlen.
           split; [exact Hlen|]. split.
           ++ intros i. destruct (Hss i) as [H1 H2]. rewrite H1, H2.
              destruct (Nat.eq_dec (Z.to_nat (_fd pr)) i) as [<-|Hne].
              ** rewrite at_update_eq by exact Hi0. auto.
              ** rewrite at_update_neq by exact Hne. auto.
           ++ intros i m' Hi. rewrite Hck by (rewrite update_length; exact Hi).
              rewrite Hhead.
              change (Some (update tl (Z.to_nat (_fd pr))
                        (fun x => mk_fdinfo (stat_of x) (state x)
                                    (Z.lor (mark_of x) M_PERSISTENT) (flags x))))
                with (mark (Some tl) (Z.to_nat (_fd pr)) M_PERSISTENT).
              destruct (Nat.eqb_spec (Z.to_nat (_fd pr)) i) as [<-|Hne].
              ** rewrite check_mark_same by exact Hi0.
                 rewrite at_update_eq by exact Hi0. cbn [state stat_of].
                 rewrite Er. apply andb_prop in Em. destruct Em as [-> ->].
                 set (nz := negb (Z.land M_PERSISTENT m' =? 0)). clearbody nz.
                 destruct (check (Some tl) (Z.to_nat (_fd pr)) m');
                   destruct nz; reflexivity.
              ** rewrite check_mark_other by exact Hne.
                 rewrite at_update_neq by exact Hne. reflexivity.
        -- destruct (IH tl Hs' Hn') as (tl' & E & Hlen & Hss & Hck).
           exists tl'. split; [exact E|]. split; [exact Hlen|].
           split; [exact Hss|]. intros i m' Hi. rewrite Hck by exact Hi. rewrite Hhead.
           destruct (Nat.eqb_spec (Z.to_nat (_fd pr)) i) as [<-|Hne];
             [|reflexivity].
           cbn [andb]. rewrite Em. reflexivity.
      * destruct (IH tl Hs' Hn') as (tl' & E & Hlen & Hss & Hck).
        exists tl'. split; [exact E|]. split; [exact Hlen|].
        split; [exact Hss|]. intros i m' Hi. rewrite Hck by exact Hi. rewrite Hhead.
        destruct (Nat.eqb_spec (Z.to_nat (_fd pr)) i) as [<-|Hne];
          [|reflexivity].
        rewrite Er. rewrite !andb_false_r. reflexivity.
Qed.

(** X6.  With the registry in increasing order of non-negative descriptor
    numbers, [mark_persistent] marks as persistent exactly the ROOT slots
    whose device and inode are those registered for their number; it changes
    no state, no stat result and no other mark, and it empties the
    registry. *)
Theorem mark_persistent_exact tl l :
  increasing l -> Forall (fun pr => 0 <= _fd pr) l ->
  exists tl',
    mark_persistent (Some tl) (Some l) = Some (Some tl', None) /\
    len (Some tl') = len (Some tl) /\
    forall i, (i < length tl)%nat ->
      get_state (Some tl') i INVALID = get_state (Some tl) i INVALID /\
      get_stat (Some tl') i = get_stat (Some tl) i /\
      check (Some tl') i M_PERSISTENT
      = check (Some tl) i M_PERSISTENT
        || ((get_state (Some tl) i INVALID =? ROOT)
            && asks_for l i (get_stat (Some tl) i)) /\
      (forall m', Z.land M_PERSISTENT m' = 0 ->
         check (Some tl') i m' = check (Some tl) i m').
Proof.
  intros Hs Hn.
  destruct (mark_entries_spec l tl Hs Hn) as (tl' & E & Hlen & Hss & Hck).
  exists tl'. unfold mark_persistent. rewrite E.
  split; [reflexivity|]. split; [simpl; rewrite Hlen; reflexivity|].
  intros i Hi. rewrite !get_state_in by (try rewrite Hlen; exact Hi).
  unfold get_stat. simpl entries. destruct (Hss i) as [H1 H2].
  split; [exact H1|]. split; [exact H2|]. split.
  - rewrite Hck by exact Hi. reflexivity.
  - intros m' Hd. rewrite Hck by exact Hi. rewrite Hd. simpl.
    apply orb_false_r.
Qed.

Lemma mark_persistent_exact_witness :
  exists tl',
    mark_persistent (Some MoreSamples.two_roots) (Some MoreSamples.one_entry)
    = Some (Some tl', None) /\
    len (Some tl') = len (Some MoreSamples.two_roots) /\
    forall i, (i < length MoreSamples.two_roots)%nat ->
      get_state (Some tl') i INVALID
      = get_state (Some MoreSamples.two_roots) i INVALID /\
      get_stat (Some tl') i = get_stat (Some MoreSamples.two_roots) i /\
      check (Some tl') i M_PERSISTENT
      = check (Some MoreSamples.two_roots) i M_PERSISTENT
        || ((get_state (Some MoreSamples.two_roots) i INVALID =? ROOT)
            && asks_for MoreSamples.one_entry i
                 (get_stat (Some MoreSamples.two_roots) i)) /\
      (forall m', Z.land M_PERSISTENT m' = 0 ->
         check (Some tl') i m' = check (Some MoreSamples.two_roots) i m').
Proof.
  apply (mark_persistent_exact MoreSamples.two_roots MoreSamples.one_entry).
  - repeat constructor.
  - repeat constructor. simpl. lia.
Defined.

Lemma place_in l d : In d (place l d).
Proof.
  induction l as [|pr l IH]; simpl; [auto|].
  destruct (_fd pr =? _fd d); [left; reflexivity|].
  destruct (_fd d <? _fd pr); [left; reflexivity|right; exact IH].
Qed.

Lemma place_forall (P : PersistentResourceDesc -> Prop) l d :
  Forall P l -> P d -> Forall P (place l d).
Proof.
  induction l as [|pr l IH]; intros Hl Hd; simpl; [constructor; auto|].
  inversion Hl; subst.
  destruct (_fd pr =? _fd d); [constructor; auto|].
  destruct (_fd d <? _fd pr); constructor; auto.
Qed.

(** X7.  Registration works: once a descriptor that is not negative has
    been registered with the device and inode numbers that its slot shows,
    converted as the constructor converts them, the next [mark_persistent]
    marks its slot persistent if it is ROOT. *)
Theorem registered_is_marked dir tl l fd dev ino :
  increasing l -> Forall (fun pr => 0 <= _fd pr) l ->
  0 <= fd < len (Some tl) ->
  get_state (Some tl) (Z.to_nat fd) INVALID = ROOT ->
  st_dev (get_stat (Some tl) (Z.to_nat fd)) = CInt.to_u64 dev ->
  st_ino (get_stat (Some tl) (Z.to_nat fd)) = CInt.to_u64 ino ->
  exists tl',
    mark_persistent (Some tl)
      (register_persistent_fd (Some dir) (Some l) fd dev ino)
    = Some (Some tl', None) /\
    check (Some tl') (Z.to_nat fd) M_PERSISTENT = true.
Proof.
  intros Hs Hn Hfd Hr Hd Hi. rewrite register_is_place.
  set (d := desc fd dev ino).
  destruct (mark_entries_spec (place l d) tl (place_increasing l d Hs)
              (place_forall _ l d Hn ltac:(simpl; lia)))
    as (tl' & E & Hlen & Hss & Hck).
  exists tl'. unfold mark_persistent. rewrite E. split; [reflexivity|].
  simpl in Hfd. assert (Hlt : (Z.to_nat fd < length tl)%nat) by lia.
  rewrite Hck by exact Hlt. rewrite get_state_in in Hr by exact Hlt.
  rewrite Hr. unfold get_stat in Hd, Hi. simpl entries in Hd, Hi.
  assert (Ha : asks_for (place l d) (Z.to_nat fd)
                 (stat_of (at_ tl (Z.to_nat fd))) = true).
  { unfold asks_for. apply existsb_exists. exists d. split; [apply place_in|].
    unfold d, desc. cbn [_fd _st_dev _st_ino]. rewrite Hd, Hi, !Z.eqb_refl.
    rewrite Z2Nat.id by lia. rewrite Z.eqb_refl. reflexivity. }
  rewrite Ha. rewrite Z.land_diag. apply orb_true_r.
Qed.

Lemma registered_is_marked_witness :
  exists tl',
    mark_persistent (Some MoreSamples.two_roots)
      (register_persistent_fd (Some "cr"%string) (Some []) 1 1 11)
    = Some (Some tl', None) /\
    check (Some tl') (Z.to_nat 1) M_PERSISTENT = true.
Proof.
  apply (registered_is_marked "cr"%string MoreSamples.two_roots [] 1 1 11).
  - constructor.
  - constructor.
  - simpl. lia.
  - reflexivity.
  - reflexivity.
  - reflexivity.
Defined.

Lemma to_u64_of_int x :
  CInt.is_int x -> 0 <= CInt.to_u64 x < 2 ^ 31 \/ 2 ^ 64 - 2 ^ 31 <= CInt.to_u64 x.
Proof.
  unfold CInt.is_int, CInt.to_u64. intros H.
  destruct (Z.le_gt_cases 0 x) as [Hp|Hneg].
  - left. rewrite Z.mod_small by lia. lia.
  - right. replace x with ((x + 2 ^ 64) + (-1) * 2 ^ 64) by lia.
    rewrite Z.mod_add by lia. rewrite Z.mod_small by lia. lia.
Qed.

Lemma asks_for_large_inode l i st :
  Forall made_from_ints l ->
  2 ^ 31 <= st_ino st < 2 ^ 64 - 2 ^ 31 ->
  asks_for l i st = false.
Proof.
  intros Hl Hst. unfold asks_for. apply not_true_is_false. intros He.
  apply existsb_exists in He. destruct He as (pr & Hin & Hm).
  rewrite Forall_forall in Hl. destruct (Hl pr Hin) as (d & n & _ & Hn & _ & En).
  apply andb_prop in Hm. destruct Hm as [_ Hm]. apply Z.eqb_eq in Hm.
  rewrite En in Hm. pose proof (to_u64_of_int n Hn). lia.
Qed.

(** X8.  The registered inode number is an [int] converted to [ino_t]:
    entries made by [register_persistent_fd] are of that form, and no such
    entry ever makes [mark_persistent] mark a descriptor whose inode number
    lies from 2^31 to below 2^64 - 2^31. *)
Theorem large_inode_never_persistent dir tl l fd dev ino i :
  increasing l -> Forall (fun pr => 0 <= _fd pr) l -> Forall made_from_ints l ->
  0 <= fd -> CInt.is_int dev -> CInt.is_int ino ->
  (i < length tl)%nat ->
  2 ^ 31 <= st_ino (get_stat (Some tl) i) < 2 ^ 64 - 2 ^ 31 ->
  exists l' tl',
    register_persistent_fd (Some dir) (Some l) fd dev ino = Some l' /\
    Forall made_from_ints l' /\
    mark_persistent (Some tl) (Some l') = Some (Some tl', None) /\
    check (Some tl') i M_PERSISTENT = check (Some tl) i M_PERSISTENT.
Proof.
  intros Hs Hn Hm Hfd Hd Hi Hlt Hino. rewrite register_is_place.
  set (d := desc fd dev ino).
  assert (Hmd : made_from_ints d) by (exists dev, ino; auto).
  pose proof (place_forall _ l d Hm Hmd) as Hm'.
  destruct (mark_entries_spec (place l d) tl (place_increasing l d Hs)
              (place_forall _ l d Hn ltac:(simpl; lia)))
    as (tl' & E & Hlen & Hss & Hck).
  exists (place l d), tl'. split; [reflexivity|]. split; [exact Hm'|].
  unfold mark_persistent. rewrite E. split; [reflexivity|].
  rewrite Hck by exact Hlt.
  rewrite (asks_for_large_inode (place l d) i (stat_of (at_ tl i)) Hm' Hino).
  rewrite andb_false_r, orb_false_r. reflexivity.
Qed.

Lemma large_inode_never_persistent_witness :
  exists l' tl',
    register_persistent_fd (Some "cr"%string) (Some []) 0 1 (-1294967296)
    = Some l' /\
    Forall made_from_ints l' /\
    mark_persistent
      (Some [mk_fdinfo (mk_stat 1 3000000000 1 0 0) ROOT 0 0]) (Some l')
    = Some (Some tl', None) /\
    check (Some tl') 0 M_PERSISTENT
    = check (Some [mk_fdinfo (mk_stat 1 3000000000 1 0 0) ROOT 0 0]) 0 M_PERSISTENT.
Proof.
  apply (large_inode_never_persistent "cr"%string
           [mk_fdinfo (mk_stat 1 3000000000 1 0 0) ROOT 0 0] [] 0 1 (-1294967296) 0).
  - constructor.
  - constructor.
  - constructor.
  - lia.
  - unfold CInt.is_int. lia.
  - unfold CInt.is_int. lia.
  - simpl. lia.
  - simpl. lia.
Defined.

End MarkPersistent.

(** ** More on the alias probe and on [initialize] *)
Section InitializeMore.
Import Stat Kernel FdsInfo Props InitProps.

(** X9.  [same_fd] answers yes exactly when the two descriptors refer to
    one open file description that honours F_SETFL and the stat results
    kept for them show one device and inode. *)
Theorem same_fd_exact f k fd1 fd2 :
  fst (same_fd f k fd1 fd2) = true <->
  same_stat (get_stat f fd1) (get_stat f fd2) = true /\
  exists id, k_fd k fd1 = Some id /\ k_fd k fd2 = Some id /\
             o_setfl (k_ofd k id) = true.
Proof.
  split.
  - intros H. destruct (same_fd_sound _ _ _ _ H) as (id & E1 & E2).
    rewrite same_fd_eq in H.
    destruct (same_stat (get_stat f fd1) (get_stat f fd2)); [|discriminate].
    split; [reflexivity|]. exists id. split; [exact E1|]. split; [exact E2|].
    simpl negb in H. cbv iota in H.
    destruct (negb (flags_of k fd1 =? flags_of k fd2)); [discriminate|].
    cbv zeta in H.
    destruct (o_setfl (k_ofd k id)) eqn:Es; [reflexivity|].
    rewrite (fcntl_setfl_refused _ _ _ _ E1 Es) in H.
    destruct (Z.eqb_spec (flags_of k fd1) (Z.lxor (flags_of k fd1) O_NONBLOCK))
      as [E|]; [|discriminate].
    symmetry in E. apply lxor_nonblock_neq in E. contradiction.
  - intros (Hs & id & E1 & E2 & Es). eapply same_fd_complete; eauto.
Qed.

Lemma readfdlink_frame k k' i n :
  kframe k k' -> k_fd k i <> None -> readfdlink k' i n = readfdlink k i n.
Proof.
  intros (_ & _ & _ & _ & Hr & _) Ho. unfold readfdlink.
  rewrite Hr by exact Ho. reflexivity.
Qed.

Lemma readfdlink_ok k i n target :
  k_readlink k i = Some target -> (fst (readfdlink k i n) =? -1) = false.
Proof.
  intros E. unfold readfdlink. rewrite E. simpl.
  destruct (Z.eqb_spec (Z.of_nat (Nat.min (String.length target) n)) (-1)); auto; lia.
Qed.

(** The second loop of [initialize] goes on past descriptor [i] when the
    link of [i] can be read. *)
Lemma classify_fd_goes_on k0 raw i l k :
  classify_inv k0 (scan k0 raw) i l k ->
  (i < length (scan k0 raw))%nat ->
  (k_fd k0 i <> None -> k_readlink k0 i <> None) ->
  exists f' k', classify_fd (Some l) k i = Some (f', k').
Proof.
  intros Hinv Hi Hr. unfold classify_fd.
  destruct (alias_loop (Some l) k i 0 i) as [f1 k1] eqn:Ea.
  destruct (alias_loop_settles k0 raw i l k Hinv Hi f1 k1 Ea)
    as (Hk & l1 & -> & Hlen1 & _ & _ & _ & Hcl).
  destruct Hinv as (Hlen & Hk0 & _).
  rewrite get_state_in by lia.
  destruct (Z.eqb_spec (state (at_ l1 i)) ROOT) as [Er|]; [|eauto].
  assert (Ho : k_fd k0 i <> None).
  { intros E. destruct Hcl as (Hc & _).
    destruct (Hc E) as [Hcc|(j & id & _ & Hd & _)].
    - rewrite Hcc in Er. discriminate.
    - rewrite Hd in Er. revert Er. apply dup_state_not_root. }
  specialize (Hr Ho). destruct (k_readlink k0 i) as [target|] eqn:Et;
    [|congruence].
  assert (Hf : kframe k0 k1) by (eapply kframe_trans; eauto).
  pose proof (readfdlink_ok k1 i PATH_MAX target) as Hok.
  destruct Hf as (_ & _ & _ & _ & Hrl & _). rewrite Hrl in Hok by exact Ho.
  specialize (Hok Et).
  destruct (readfdlink k1 i PATH_MAX) as [r fdpath]. simpl fst in Hok.
  rewrite Hok. destruct (_ || _ || _); eauto.
Qed.

Lemma classify_from_goes_on k0 raw n : forall i l k,
  classify_inv k0 (scan k0 raw) i l k ->
  (i + n = length (scan k0 raw))%nat ->
  (forall x, k_fd k0 x <> None -> k_readlink k0 x <> None) ->
  exists f' k', classify_from (Some l) k i n = Some (f', k').
Proof.
  induction n as [|n IH]; intros i l k Hinv Hn Hr; simpl; [eauto|].
  destruct (classify_fd_goes_on k0 raw i l k Hinv) as (f1 & k1 & E);
    [lia|apply Hr|].
  rewrite E.
  destruct (classify_fd_step k0 raw i l k Hinv ltac:(lia) f1 k1 E)
    as (l1 & -> & Hinv1).
  apply (IH (S i) l1 k1 Hinv1); [lia|exact Hr].
Qed.

(** X10.  [initialize] completes when the link of every descriptor open
    at its start can be read.  The table then ends with the highest
    descriptor open at the start, within the limit on open files; the slot
    of a descriptor open at the start is not CLOSED and holds what [fstat]
    gave; a CLOSED slot was closed at the start and a ROOT slot was open;
    and a slot whose descriptor is closed when [initialize] returns is
    CLOSED. *)
Theorem initialize_table_extent k raw :
  (forall x, k_fd k x <> None -> k_readlink k x <> None) ->
  exists f k',
    initialize k raw = Some (f, k') /\
    0 <= len f <= Z.of_nat (k_open_max k) /\
    (forall fd, (fd < k_open_max k)%nat -> k_fd k fd <> None ->
       Z.of_nat fd < len f) /\
    (0 < len f -> k_fd k (Z.to_nat (len f - 1)) <> None) /\
    (forall i, Z.of_nat i < len f ->
       (get_state f i INVALID = CLOSED -> k_fd k i = None) /\
       (get_state f i INVALID = ROOT -> k_fd k i <> None) /\
       (k_fd k' i = None -> get_state f i INVALID = CLOSED) /\
       (forall id, k_fd k i = Some id ->
          get_state f i INVALID <> CLOSED /\
          get_stat f i = o_stat (k_ofd k id))).
Proof.
  intros Hr.
  destruct (classify_from_goes_on k raw (length (scan k raw)) 0 (scan k raw) k
              (classify_inv_init k raw) eq_refl Hr) as (f & k' & E).
  exists f, k'. split; [exact E|].
  destruct (initialize_inv k raw f k' E) as (l & -> & Hlen & Hk & Hstat & _ & Hcl).
  simpl len. rewrite Hlen, scan_length.
  pose proof (scan_len_le k (k_open_max k)) as Hle.
  split; [lia|]. split; [|split].
  - intros fd Hfd Ho.
    destruct (Nat.lt_ge_cases fd (scan_len k (k_open_max k))) as [|Hge]; [lia|].
    exfalso. apply Ho. apply (scan_len_covers k (k_open_max k)). lia.
  - intros Hpos.
    replace (Z.to_nat (Z.of_nat (scan_len k (k_open_max k)) - 1))
      with (scan_len k (k_open_max k) - 1)%nat by lia.
    apply scan_len_last. lia.
  - intros i Hi.
    assert (Hi' : (i < length (scan k raw))%nat) by (rewrite scan_length; lia).
    rewrite get_state_in by lia.
    destruct (Hcl i Hi') as (Hc & Ho & _).
    assert (Hopen : forall id, k_fd k i = Some id -> state (at_ l i) <> CLOSED).
    { intros id Ek Es. destruct (Ho id Ek) as [Hroot|(j & _ & Hdup & _)].
      - rewrite Hroot in Es. discriminate.
      - rewrite Hdup in Es. revert Es. apply dup_state_not_closed. }
    assert (Hclosed : k_fd k i = None ->
              state (at_ l i) = CLOSED \/
              exists j id, state (at_ l i) = DUP_OF_0 + Z.of_nat j /\
                           k_fd k' i = Some id).
    { intros Ek. destruct (Hc Ek) as [Hcc|(j & id & _ & Hd & _ & _ & Hki)];
        [auto|eauto]. }
    split; [|split; [|split]].
    + intros Es. destruct (k_fd k i) as [id|] eqn:Ek; [|reflexivity].
      exfalso. apply (Hopen id eq_refl). exact Es.
    + intros Es Ek. destruct (Hclosed Ek) as [Hcc|(j & id & Hd & _)].
      * rewrite Hcc in Es. discriminate.
      * rewrite Hd in Es. revert Es. apply dup_state_not_root.
    + intros Ek'. destruct (k_fd k i) as [id|] eqn:Ek.
      * destruct Hk as (Hfd & _). rewrite (Hfd _ _ Ek) in Ek'. discriminate.
      * destruct (Hclosed eq_refl) as [Hcc|(j & id & _ & Hki)];
          [exact Hcc|congruence].
    + intros id Ek. split; [apply (Hopen id Ek)|].
      unfold get_stat. simpl entries. rewrite Hstat.
      apply (scan_state_open k raw i id Hi' Ek).
Qed.

Lemma initialize_table_extent_witness :
  exists f k',
    initialize Samples.k_dup Samples.raw0 = Some (f, k') /\
    0 <= len f <= Z.of_nat (k_open_max Samples.k_dup) /\
    (forall fd, (fd < k_open_max Samples.k_dup)%nat ->
       k_fd Samples.k_dup fd <> None -> Z.of_nat fd < len f) /\
    (0 < len f -> k_fd Samples.k_dup (Z.to_nat (len f - 1)) <> None) /\
    (forall i, Z.of_nat i < len f ->
       (get_state f i INVALID = CLOSED -> k_fd Samples.k_dup i = None) /\
       (get_state f i INVALID = ROOT -> k_fd Samples.k_dup i <> None) /\
       (k_fd k' i = None -> get_state f i INVALID = CLOSED) /\
       (forall id, k_fd Samples.k_dup i = Some id ->
          get_state f i INVALID <> CLOSED /\
          get_stat f i = o_stat (k_ofd Samples.k_dup id))).
Proof.
  apply (initialize_table_extent Samples.k_dup Samples.raw0).
  intros x _. simpl.
  do 4 (destruct x as [|x]; [discriminate|]). discriminate.
Defined.

(** The inner loop changes one state at most, to a duplicate, and no
    mark. *)
Lemma alias_loop_marks n l k i j f' k' :
  alias_loop (Some l) k i j n = (f', k') ->
  kframe k k' /\
  exists l', f' = Some l' /\ length l' = length l /\
    (forall x, stat_of (at_ l' x) = stat_of (at_ l x) /\
               mark_of (at_ l' x) = mark_of (at_ l x)) /\
    (forall x, x <> i -> state (at_ l' x) = state (at_ l x)) /\
    (state (at_ l' i) = ROOT -> state (at_ l i) = ROOT).
Proof.
  intros Ea. apply alias_loop_spec in Ea.
  destruct Ea as [Hk [[-> _]|(y & _ & _ & _ & -> & _)]]; (split; [exact Hk|]).
  - exists l. auto 6.
  - eexists. split; [reflexivity|]. split; [apply update_length|]. split; [|split].
    + intros x. destruct (Nat.eq_dec i x) as [<-|Hne].
      * destruct (Nat.lt_ge_cases i (length l)) as [Hi|Hi].
        -- rewrite at_update_eq by exact Hi. auto.
        -- rewrite update_out by exact Hi. auto.
      * rewrite at_update_neq by exact Hne. auto.
    + intros x Hx. rewrite at_update_neq by auto. reflexivity.
    + destruct (Nat.lt_ge_cases i (length l)) as [Hi|Hi].
      * rewrite at_update_eq by exact Hi. cbn [state]. intros Hr.
        exfalso. revert Hr. apply dup_state_not_root.
      * rewrite update_out by exact Hi. auto.
Qed.

(** The mark that the body of the second loop leaves at descriptor [i];
    the link is read in the kernel state the body ends with. *)
Lemma classify_fd_marks l k i f' k' :
  classify_fd (Some l) k i = Some (f', k') ->
  kframe k k' /\
  exists l', f' = Some l' /\ length l' = length l /\
    (forall x, stat_of (at_ l' x) = stat_of (at_ l x)) /\
    (forall x, x <> i -> state (at_ l' x) = state (at_ l x) /\
                         mark_of (at_ l' x) = mark_of (at_ l x)) /\
    (state (at_ l' i) = ROOT -> state (at_ l i) = ROOT) /\
    mark_of (at_ l' i)
    = if (state (at_ l' i) =? ROOT) && cant_restore k' (stat_of (at_ l' i)) i
      then Z.lor (mark_of (at_ l i)) M_CANT_RESTORE
      else mark_of (at_ l i).
Proof.
  unfold classify_fd.
  destruct (alias_loop (Some l) k i 0 i) as [f1 k1] eqn:Ea.
  apply alias_loop_marks in Ea.
  destruct Ea as (Hk & l1 & -> & Hlen & Hsm & Hst & Hroot).
  assert (Hsame : forall x, stat_of (at_ l1 x) = stat_of (at_ l x))
    by (intros x; apply Hsm).
  assert (Hkeep : forall x, x <> i ->
            state (at_ l1 x) = state (at_ l x) /\
            mark_of (at_ l1 x) = mark_of (at_ l x))
    by (intros x Hx; split; [apply Hst; exact Hx|apply Hsm]).
  assert (Hmi : mark_of (at_ l1 i) = mark_of (at_ l i)) by apply Hsm.
  destruct (Nat.lt_ge_cases i (length l1)) as [Hi|Hi].
  - rewrite get_state_in by exact Hi.
    destruct (state (at_ l1 i) =? ROOT) eqn:Er.
    + unfold cant_restore.
      destruct (readfdlink k1 i PATH_MAX) as [r fdpath] eqn:Erl.
      destruct (r =? -1); [discriminate|].
      unfold get_stat. simpl entries.
      destruct ((st_nlink (stat_of (at_ l1 i)) =? 0) || strstr fdpath "(deleted)"
                || nfs_silly_rename fdpath) eqn:Ec;
        intros H; inversion H; subst k'; subst; (split; [exact Hk|]).
      * eexists. split; [reflexivity|]. split; [rewrite update_length; exact Hlen|].
        split; [|split; [|split]].
        -- intros x. destruct (Nat.eq_dec i x) as [<-|Hne].
           ++ rewrite at_update_eq by exact Hi. apply Hsame.
           ++ rewrite at_update_neq by exact Hne. apply Hsame.
        -- intros x Hx. rewrite at_update_neq by auto. apply Hkeep. exact Hx.
        -- rewrite at_update_eq by exact Hi. cbn [state]. exact Hroot.
        -- rewrite at_update_eq by exact Hi. cbn [state stat_of mark_of].
           rewrite Erl. cbn [snd]. rewrite Er, Ec, Hmi. reflexivity.
      * exists l1. split; [reflexivity|]. split; [exact Hlen|].
        split; [exact Hsame|]. split; [exact Hkeep|]. split; [exact Hroot|].
        rewrite Erl. cbn [snd]. rewrite Er, Ec. exact Hmi.
    + intros H; inversion H; subst. split; [exact Hk|].
      exists l1. split; [reflexivity|]. split; [exact Hlen|].
      split; [exact Hsame|]. split; [exact Hkeep|]. split; [exact Hroot|].
      rewrite Er. exact Hmi.
  - rewrite get_state_out by exact Hi. simpl.
    intros H; inversion H; subst. split; [exact Hk|].
    exists l1. split; [reflexivity|]. split; [exact Hlen|].
    split; [exact Hsame|]. split; [exact Hkeep|]. split; [exact Hroot|].
    assert (Hinv : state (at_ l1 i) = INVALID)
      by (unfold at_; rewrite nth_overflow by exact Hi; reflexivity).
    rewrite Hinv. change (INVALID =? ROOT) with false. exact Hmi.
Qed.

Lemma cant_restore_frame k k' st i :
  kframe k k' -> k_fd k i <> None -> cant_restore k' st i = cant_restore k st i.
Proof.
  intros H Ho. unfold cant_restore.
  rewrite (readfdlink_frame k k' i PATH_MAX H Ho). reflexivity.
Qed.

(** A canonical slot of the table after the first loop is an open
    descriptor. *)
Lemma scan_root_open k raw x :
  state (at_ (scan k raw) x) = ROOT -> k_fd k x <> None.
Proof.
  intros Hr E. destruct (Nat.lt_ge_cases x (length (scan k raw))) as [Hx|Hx].
  - rewrite (scan_state_closed k raw x Hx E) in Hr. discriminate.
  - unfold at_ in Hr. rewrite nth_overflow in Hr by exact Hx. discriminate.
Qed.

Lemma classify_from_marks k0 l0 n : forall i l k f' k',
  kframe k0 k -> marks_inv k0 l0 i l ->
  (forall x, state (at_ l x) = ROOT -> k_fd k0 x <> None) ->
  classify_from (Some l) k i n = Some (f', k') ->
  exists l', f' = Some l' /\ marks_inv k0 l0 (i + n) l'.
Proof.
  induction n as [|n IH]; intros i l k f' k' Hk Hm Hro; simpl.
  - intros H; inversion H; subst. exists l. rewrite Nat.add_0_r. auto.
  - destruct (classify_fd (Some l) k i) as [[f1 k1]|] eqn:E; [|discriminate].
    apply classify_fd_marks in E.
    destruct E as (Hk1 & l1 & -> & Hlen & Hstat & Hkeep & Hroot & Hmi).
    intros H. replace (i + S n)%nat with (S i + n)%nat by lia.
    assert (Hk01 : kframe k0 k1) by (eapply kframe_trans; eauto).
    assert (Hro1 : forall x, state (at_ l1 x) = ROOT -> k_fd k0 x <> None).
    { intros x Hx. destruct (Nat.eq_dec x i) as [->|Hne].
      - apply Hro, Hroot, Hx.
      - apply Hro. destruct (Hkeep x Hne) as [<- _]. exact Hx. }
    apply (IH (S i) l1 k1 f' k'); [exact Hk01| |exact Hro1|exact H].
    destruct Hm as [Hrest Hdone]. split.
    + intros x Hx. destruct (Hkeep x) as [_ ->]; [lia|]. apply Hrest. lia.
    + intros x Hx. destruct (Nat.eq_dec x i) as [->|Hne].
      * rewrite Hmi. rewrite (Hrest i) by lia.
        destruct (Z.eqb_spec (state (at_ l1 i)) ROOT) as [Er|Er];
          [|reflexivity].
        rewrite (cant_restore_frame k0 k1 _ i Hk01 (Hro1 i Er)). reflexivity.
      * destruct (Hkeep x Hne) as [-> ->]. rewrite Hstat. apply Hdone. lia.
Qed.

(** X11.  After [initialize] an open descriptor is marked [M_CANT_RESTORE]
    exactly when it is ROOT and its link count is zero, or the link read
    from /proc/self/fd holds (deleted), or names an NFS silly rename; an
    open descriptor has no other mark. *)
Theorem initialize_marks k raw f k' i :
  initialize k raw = Some (f, k') ->
  Z.of_nat i < len f -> k_fd k i <> None ->
  check f i M_CANT_RESTORE
  = (get_state f i INVALID =? ROOT) && cant_restore k (get_stat f i) i /\
  (forall m, Z.land M_CANT_RESTORE m = 0 -> check f i m = false).
Proof.
  intros E Hi Ho. pose proof E as E'. unfold initialize in E'.
  destruct (classify_from_marks k (scan k raw) (length (scan k raw)) 0 (scan k raw)
              k f k' (kframe_refl k)) as (l & -> & _ & Hm);
    [|apply scan_root_open|exact E'|].
  { split; [auto|]. intros x Hx. lia. }
  destruct (initialize_inv k raw _ k' E) as (l2 & El & Hlen & _).
  inversion El; subst l2. simpl in Hi.
  assert (Hi' : (i < length (scan k raw))%nat) by lia.
  specialize (Hm i Hi').
  assert (H0 : mark_of (at_ (scan k raw) i) = 0).
  { rewrite scan_at by exact Hi'. unfold scan_fd, fstat.
    destruct (k_fd k i); [reflexivity|congruence]. }
  rewrite H0 in Hm. rewrite get_state_in by lia.
  unfold check, get_stat. simpl entries. rewrite Hm.
  destruct ((state (at_ l i) =? ROOT) && cant_restore k (stat_of (at_ l i)) i).
  - split; [reflexivity|]. intros m Hd. simpl Z.lor.
    change 2 with M_CANT_RESTORE. rewrite Hd. reflexivity.
  - split; [reflexivity|]. intros m _. reflexivity.
Qed.

Lemma initialize_marks_witness :
  exists f k', initialize Samples.k_dup Samples.raw0 = Some (f, k') /\
    check f 3 M_CANT_RESTORE
    = (get_state f 3 INVALID =? ROOT)
      && cant_restore Samples.k_dup (get_stat f 3) 3.
Proof.
  destruct (initialize Samples.k_dup Samples.raw0) as [[f k']|] eqn:E.
  2:{ vm_compute in E. discriminate E. }
  exists f, k'. split; [reflexivity|].
  assert (Hlen : len f = 4).
  { vm_compute in E. inversion E. reflexivity. }
  apply (initialize_marks Samples.k_dup Samples.raw0 f k' 3 E).
  - rewrite Hlen. reflexivity.
  - discriminate.
Defined.

End InitializeMore.

(** ** Link names *)
Section LinkNames.
Import Stat Kernel FdsInfo PathProps.

Lemma substring0_length n : forall s,
  String.length (String.substring 0 n s) = Nat.min n (String.length s).
Proof.
  induction n as [|n IH]; intros [|c s]; simpl; auto.
Qed.

Lemma substring0_prefix n : forall s,
  String.prefix (String.substring 0 n s) s = true.
Proof.
  induction n as [|n IH]; intros [|c s]; simpl; auto.
  rewrite IH. destruct (ascii_dec c c); [reflexivity|congruence].
Qed.

Lemma substring0_all n : forall s,
  (String.length s <= n)%nat -> String.substring 0 n s = s.
Proof.
  induction n as [|n IH]; intros [|c s] H; simpl in *; auto; try lia.
  rewrite IH by lia. reflexivity.
Qed.

(** X12.  [readfdlink] leaves a string that fits the buffer with its NUL
    and is the beginning of the link target: the whole target when that is
    shorter than the buffer; otherwise the target is cut to one character
    less than the buffer, and the value returned is the buffer length, not
    an error. *)
Theorem readfdlink_cut k fd buflen target :
  k_readlink k fd = Some target -> (0 < buflen)%nat ->
  (String.length (snd (readfdlink k fd buflen)) < buflen)%nat /\
  String.prefix (snd (readfdlink k fd buflen)) target = true /\
  ((String.length target < buflen)%nat ->
     readfdlink k fd buflen = (Z.of_nat (String.length target), target)) /\
  ((buflen <= String.length target)%nat ->
     fst (readfdlink k fd buflen) = Z.of_nat buflen /\
     String.length (snd (readfdlink k fd buflen)) = (buflen - 1)%nat).
Proof.
  intros E Hb. unfold readfdlink. rewrite E. cbv zeta. simpl fst. simpl snd.
  split; [|split; [|split]].
  - rewrite substring0_length.
    destruct (Nat.ltb_spec (Nat.min (String.length target) buflen) buflen); lia.
  - apply substring0_prefix.
  - intros Hl. rewrite Nat.min_l by lia.
    destruct (Nat.ltb_spec (String.length target) buflen); [|lia].
    rewrite substring0_all by lia. reflexivity.
  - intros Hl. rewrite Nat.min_r by lia.
    rewrite Nat.ltb_irrefl. rewrite substring0_length. split; [reflexivity|lia].
Qed.

Lemma readfdlink_cut_witness :
  readfdlink Samples.k_dup 3 4 = (4, "/tm"%string) /\
  fst (readfdlink Samples.k_dup 3 4) = Z.of_nat 4.
Proof.
  split; [reflexivity|].
  apply (readfdlink_cut Samples.k_dup 3 4 "/tmp/data"%string);
    [reflexivity|lia|simpl; lia].
Defined.

Lemma basename_from_no_slash s : forall cur,
  contains slash s = false -> basename_from s cur = cur.
Proof.
  induction s as [|c s IH]; intros cur H; simpl in *; auto.
  apply orb_false_iff in H. destruct H as [-> H]. apply IH. exact H.
Qed.

Lemma basename_from_append dir base : forall cur,
  contains slash base = false ->
  basename_from (dir ++ String slash base) cur = base.
Proof.
  induction dir as [|c dir IH]; intros cur H; simpl.
  - apply basename_from_no_slash. exact H.
  - destruct (Ascii.eqb c slash); apply IH; exact H.
Qed.

Lemma xdigit_at_shift c s a : xdigit_at (String c s) (S a) = xdigit_at s a.
Proof. reflexivity. Qed.

Lemma forallb_xdigit_shift c s n : forall a,
  forallb (xdigit_at (String c s)) (seq (S a) n) = forallb (xdigit_at s) (seq a n).
Proof.
  induction n as [|n IH]; intros a; simpl; auto.
  rewrite IH. reflexivity.
Qed.

Lemma forallb_xdigit_split n : forall s,
  forallb (xdigit_at s) (seq 0 n) = true <->
  exists hex rest, s = (hex ++ rest)%string /\ String.length hex = n /\
                   all_xdigits hex = true.
Proof.
  induction n as [|n IH]; intros s.
  - simpl. split; auto. intros _. exists EmptyString, s. auto.
  - change (seq 0 (S n)) with (0%nat :: seq 1 n). cbn [forallb].
    destruct s as [|c s].
    + simpl. split; [discriminate|]. intros (hex & rest & E & Hl & _).
      destruct hex; simpl in *; discriminate.
    + rewrite forallb_xdigit_shift. unfold xdigit_at at 1. simpl String.get.
      rewrite andb_true_iff, IH. split.
      * intros (Hc & hex & rest & -> & Hl & Hx).
        exists (String c hex), rest. simpl. rewrite Hc, Hx, Hl. auto.
      * intros (hex & rest & E & Hl & Hx).
        destruct hex as [|c' hex]; simpl in *; [discriminate|].
        inversion E; subst. apply andb_true_iff in Hx. destruct Hx as [Hc Hx].
        split; [exact Hc|]. exists hex, rest. auto.
Qed.

Lemma nfs_prefix_split base :
  String.prefix NFS_PREF base = true <->
  exists tail, base = (NFS_PREF ++ tail)%string.
Proof.
  unfold NFS_PREF. split.
  - intros H. apply String.prefix_correct in H. simpl String.length in H.
    destruct base as [|a [|b [|c [|d tail]]]]; simpl in H; try discriminate.
    injection H as E1 E2 E3 E4 _. subst a b c d. exists tail. reflexivity.
  - intros (tail & ->). simpl.
    repeat (match goal with |- context [ascii_dec ?a ?a] =>
              destruct (ascii_dec a a); [|congruence] end).
    destruct tail; reflexivity.
Qed.

(** X13.  [nfs_silly_rename] looks at the part after the last slash only,
    and accepts exactly the names that start with .nfs followed by 24
    hexadecimal digits, whatever comes after them. *)
Theorem nfs_silly_rename_exact dir base :
  contains slash base = false ->
  nfs_silly_rename (dir ++ String slash base) = nfs_silly_rename base /\
  (nfs_silly_rename base = true <->
   exists hex rest,
     base = (NFS_PREF ++ hex ++ rest)%string /\
     String.length hex = 24%nat /\ all_xdigits hex = true).
Proof.
  intros H. unfold nfs_silly_rename. cbv zeta.
  rewrite basename_from_append by exact H.
  rewrite basename_from_no_slash by exact H.
  split; [reflexivity|].
  change (NFS_LEN - NFS_PREF_LEN)%nat with 24%nat.
  change NFS_PREF_LEN with 4%nat.
  destruct (String.prefix NFS_PREF base) eqn:Ep; cbn [negb].
  - apply nfs_prefix_split in Ep. destruct Ep as (tail & ->).
    unfold NFS_PREF. cbn [append]. rewrite !forallb_xdigit_shift.
    rewrite forallb_xdigit_split. split.
    + intros (hex & rest & -> & Hl & Hx). exists hex, rest. auto.
    + intros (hex & rest & E & Hl & Hx). inversion E; subst. eauto.
  - split; [discriminate|]. intros (hex & rest & -> & _).
    assert (Ht : String.prefix NFS_PREF (NFS_PREF ++ hex ++ rest) = true)
      by (apply nfs_prefix_split; eauto).
    congruence.
Qed.

Lemma nfs_silly_rename_exact_witness :
  contains slash ".nfs0000000000a1b2c30000002f" = false /\
  nfs_silly_rename ("/mnt" ++ String slash ".nfs0000000000a1b2c30000002f")
  = nfs_silly_rename ".nfs0000000000a1b2c30000002f".
Proof.
  split; [reflexivity|].
  exact (proj1 (nfs_silly_rename_exact "/mnt" ".nfs0000000000a1b2c30000002f"
                 eq_refl)).
Defined.

End LinkNames.

(** ** The class path marking passes *)
Section ClassPathMarks.
Import Stat FdsInfo PathProps Crac.

Lemma same_shape_refl l : same_shape l l.
Proof. split; auto. Qed.

Lemma same_shape_mark l l1 i m :
  same_shape l l1 ->
  same_shape l (update l1 i (fun x => mk_fdinfo (stat_of x) (state x)
                                        (Z.lor (mark_of x) m) (FdsInfo.flags x))).
Proof.
  intros [Hlen Hs]. split; [rewrite update_length; exact Hlen|].
  intros x. destruct (Nat.eq_dec i x) as [<-|Hne].
  - destruct (Nat.lt_ge_cases i (length l1)) as [Hi|Hi].
    + rewrite at_update_eq by exact Hi. apply Hs.
    + rewrite update_out by exact Hi. apply Hs.
  - rewrite at_update_neq by exact Hne. apply Hs.
Qed.

(** One pass that marks the slots of [idx] chosen by a test [c] which does
    not depend on the marks. *)
Lemma mark_pass (c : FdsInfo.t -> nat -> bool) (P : nat -> bool) m l :
  (forall l', same_shape l l' -> forall i, c (Some l') i = P i) ->
  forall idx l1, same_shape l l1 ->
  exists l2,
    fold_left (fun f i => if c f i then mark f i m else f) idx (Some l1) = Some l2 /\
    same_shape l l2 /\
    forall x m', (x < length l)%nat ->
      check (Some l2) x m'
      = check (Some l1) x m'
        || (existsb (Nat.eqb x) idx && P x && negb (Z.land m m' =? 0)).
Proof.
  intros Hc. induction idx as [|a idx IH]; intros l1 Hs.
  - exists l1. split; [reflexivity|]. split; [exact Hs|].
    intros x m' _. simpl. rewrite orb_false_r. reflexivity.
  - cbn [fold_left]. rewrite (Hc l1 Hs a).
    destruct (P a) eqn:Ea.
    + destruct (IH _ (same_shape_mark l l1 a m Hs)) as (l2 & E & Hs2 & Hck).
      exists l2. split; [exact E|]. split; [exact Hs2|].
      intros x m' Hx. rewrite Hck by exact Hx. cbn [existsb].
      change (Some (update l1 a (fun x0 => mk_fdinfo (stat_of x0) (state x0)
                                     (Z.lor (mark_of x0) m) (FdsInfo.flags x0))))
        with (mark (Some l1) a m).
      destruct (Nat.eqb_spec x a) as [->|Hne].
      * rewrite check_mark_same by (destruct Hs as [-> _]; exact Hx).
        rewrite Ea. cbn [orb andb].
        generalize (negb (Z.land m m' =? 0)). intros nz.
        destruct (check (Some l1) a m'), nz, (existsb (Nat.eqb a) idx);
          reflexivity.
      * rewrite check_mark_other by auto. reflexivity.
    + destruct (IH _ Hs) as (l2 & E & Hs2 & Hck).
      exists l2. split; [exact E|]. split; [exact Hs2|].
      intros x m' Hx. rewrite Hck by exact Hx. cbn [existsb].
      destruct (Nat.eqb_spec x a) as [->|Hne]; [|reflexivity].
      rewrite Ea. cbn [orb andb].
      destruct (existsb (Nat.eqb a) idx); reflexivity.
Qed.

Lemma existsb_seq x n : existsb (Nat.eqb x) (seq 0 n) = (x <? n)%nat.
Proof.
  destruct (Nat.ltb_spec x n) as [H|H].
  - apply existsb_exists. exists x. split; [apply in_seq; lia|apply Nat.eqb_refl].
  - apply not_true_is_false. intros He. apply existsb_exists in He.
    destruct He as (y & Hy & E). apply in_seq in Hy. apply Nat.eqb_eq in E. lia.
Qed.

Lemma table_len_some l : table_len (Some l) = length l.
Proof. unfold table_len. simpl. lia. Qed.

(** The pass over a whole table. *)
Lemma mark_table_pass (c : FdsInfo.t -> nat -> bool) (P : nat -> bool) m l l1 :
  (forall l', same_shape l l' -> forall i, c (Some l') i = P i) ->
  same_shape l l1 ->
  exists l2,
    fold_left (fun f i => if c f i then mark f i m else f)
      (seq 0 (table_len (Some l1))) (Some l1) = Some l2 /\
    same_shape l l2 /\
    forall x m', (x < length l)%nat ->
      check (Some l2) x m'
      = check (Some l1) x m' || (P x && negb (Z.land m m' =? 0)).
Proof.
  intros Hc Hs.
  destruct (mark_pass c P m l Hc (seq 0 (table_len (Some l1))) l1 Hs)
    as (l2 & E & Hs2 & Hck).
  exists l2. split; [exact E|]. split; [exact Hs2|].
  intros x m' Hx. rewrite Hck by exact Hx. rewrite existsb_seq, table_len_some.
  destruct Hs as [-> _].
  destruct (Nat.ltb_spec x (length l)); [reflexivity|lia].
Qed.

(** X14.  [mark_classpath_entry] marks as class path every slot of the
    table, whatever its state, whose stat result shows the device and inode
    of the path given, and nothing else; a path that [stat] rejects leaves
    the table as it is.  States, stat results and other marks stay. *)
Theorem mark_classpath_entry_exact w l cp :
  exists l',
    mark_classpath_entry w (Some l) cp = Some l' /\
    same_shape l l' /\
    forall i, (i < length l)%nat ->
      check (Some l') i M_CLASSPATH
      = check (Some l) i M_CLASSPATH
        || match w_stat w cp with
           | Some st => same_stat st (get_stat (Some l) i)
           | None => false
           end /\
      (forall m', Z.land M_CLASSPATH m' = 0 ->
         check (Some l') i m' = check (Some l) i m').
Proof.
  unfold mark_classpath_entry. destruct (w_stat w cp) as [st|].
  - destruct (mark_table_pass (fun f i => same_stat st (get_stat f i))
                (fun i => same_stat st (get_stat (Some l) i)) M_CLASSPATH l l)
      as (l2 & E & Hs2 & Hck).
    { intros l' [_ Hs] i. unfold get_stat. simpl entries.
      destruct (Hs i) as [-> _]. reflexivity. }
    { apply same_shape_refl. }
    exists l2. split; [exact E|]. split; [exact Hs2|].
    intros i Hi. split.
    + rewrite Hck by exact Hi. rewrite andb_true_r. reflexivity.
    + intros m' Hd. rewrite Hck by exact Hi. rewrite Hd.
      rewrite andb_false_r, orb_false_r. reflexivity.
  - exists l. split; [reflexivity|]. split; [apply same_shape_refl|].
    intros i _. split; [rewrite orb_false_r; reflexivity|reflexivity].
Qed.

(** The passes of [mark_all_in], one per directory entry. *)
Lemma mark_dents_pass l dents : forall l1,
  same_shape l l1 ->
  exists l2,
    fold_left
      (fun fds d_ino =>
         fold_left
           (fun fds i =>
              if negb (get_state fds i INVALID =? ROOT) then fds
              else if d_ino =? st_ino (get_stat fds i)
                   then mark fds i M_CLASSPATH else fds)
           (seq 0 (table_len fds)) fds)
      dents (Some l1) = Some l2 /\
    same_shape l l2 /\
    forall x m', (x < length l)%nat ->
      check (Some l2) x m'
      = check (Some l1) x m'
        || ((state (at_ l x) =? ROOT)
            && existsb (fun d => d =? st_ino (stat_of (at_ l x))) dents
            && negb (Z.land M_CLASSPATH m' =? 0)).
Proof.
  induction dents as [|d dents IH]; intros l1 Hs.
  - exists l1. split; [reflexivity|]. split; [exact Hs|].
    intros x m' _. simpl. rewrite andb_false_r, orb_false_r. reflexivity.
  - cbn [fold_left].
    destruct (mark_table_pass
                (fun f i => (get_state f i INVALID =? ROOT)
                            && (d =? st_ino (get_stat f i)))
                (fun i => (i <? length l)%nat && (state (at_ l i) =? ROOT)
                          && (d =? st_ino (stat_of (at_ l i))))
                M_CLASSPATH l l1) as (l2 & E & Hs2 & Hck).
    { intros l' [Hlen Hs'] i. unfold get_state, get_stat. simpl.
      destruct (Hs' i) as [-> ->]. rewrite Hlen.
      destruct (Nat.ltb_spec i (length l));
        destruct (Z.ltb_spec (Z.of_nat i) (Z.of_nat (length l))); try lia;
        reflexivity. }
    { exact Hs. }
    assert (Ef : forall idx f0,
      fold_left
        (fun fds i =>
           if negb (get_state fds i INVALID =? ROOT) then fds
           else if d =? st_ino (get_stat fds i)
                then mark fds i M_CLASSPATH else fds) idx f0
      = fold_left
          (fun f i => if (get_state f i INVALID =? ROOT)
                         && (d =? st_ino (get_stat f i))
                      then mark f i M_CLASSPATH else f) idx f0).
    { induction idx as [|a idx IHi]; intros f0; [reflexivity|].
      cbn [fold_left]. rewrite IHi.
      destruct (get_state f0 a INVALID =? ROOT); reflexivity. }
    rewrite Ef, E.
    destruct (IH l2 Hs2) as (l3 & E3 & Hs3 & Hck3).
    exists l3. split; [exact E3|]. split; [exact Hs3|].
    intros x m' Hx. rewrite Hck3, Hck by exact Hx. cbn [existsb].
    destruct (Nat.ltb_spec x (length l)); [|lia]. cbn [andb].
    generalize (negb (Z.land M_CLASSPATH m' =? 0)). intros nz.
    destruct (check (Some l1) x m'), (state (at_ l x) =? ROOT),
      (d =? st_ino (stat_of (at_ l x))),
      (existsb (fun d0 => d0 =? st_ino (stat_of (at_ l x))) dents), nz;
      reflexivity.
Qed.

(** X15.  [mark_all_in] marks as class path the ROOT slots whose inode
    number is that of an entry of the directory, and nothing else; the
    device is not compared.  A directory that cannot be opened leaves the
    table as it is. *)
Theorem mark_all_in_exact w l dirpath :
  exists l',
    mark_all_in w (Some l) dirpath = Some l' /\
    same_shape l l' /\
    forall i, (i < length l)%nat ->
      check (Some l') i M_CLASSPATH
      = check (Some l) i M_CLASSPATH
        || ((get_state (Some l) i INVALID =? ROOT)
            && match w_dir w dirpath with
               | Some dents =>
                   existsb (fun d => d =? st_ino (get_stat (Some l) i)) dents
               | None => false
               end) /\
      (forall m', Z.land M_CLASSPATH m' = 0 ->
         check (Some l') i m' = check (Some l) i m').
Proof.
  unfold mark_all_in. destruct (w_dir w dirpath) as [dents|].
  - destruct (mark_dents_pass l dents l (same_shape_refl l))
      as (l2 & E & Hs2 & Hck).
    exists l2. split; [exact E|]. split; [exact Hs2|].
    intros i Hi. rewrite get_state_in by exact Hi. split.
    + rewrite Hck by exact Hi. rewrite andb_true_r. reflexivity.
    + intros m' Hd. rewrite Hck by exact Hi. rewrite Hd.
      rewrite andb_false_r, orb_false_r. reflexivity.
  - exists l. split; [reflexivity|]. split; [apply same_shape_refl|].
    intros i _. split; [rewrite andb_false_r, orb_false_r; reflexivity|reflexivity].
Qed.

Lemma append_snoc cp c a :
  ((cp ++ String c EmptyString) ++ a)%string = (cp ++ String c a)%string.
Proof. induction cp as [|x cp IH]; simpl; [reflexivity|rewrite IH; reflexivity]. Qed.

Lemma append_empty_r s : (s ++ EmptyString)%string = s.
Proof. induction s as [|x s IH]; simpl; [reflexivity|rewrite IH; reflexivity]. Qed.

Lemma do_classpaths_from_component w fn a : forall fds cp rest,
  contains colon a = false ->
  do_classpaths_from w fn fds cp (a ++ rest)
  = do_classpaths_from w fn fds (cp ++ a) rest.
Proof.
  induction a as [|c a IH]; intros fds cp rest H; simpl in *.
  - rewrite append_empty_r. reflexivity.
  - apply orb_false_iff in H. destruct H as [Hc H]. rewrite Hc.
    rewrite IH by exact H. rewrite append_snoc. reflexivity.
Qed.

(** X16.  [do_classpaths] hands every component that a colon follows to
    the function given, from left to right, and the last component to
    [mark_classpath_entry], whatever the function given is: a path without
    a colon goes to [mark_classpath_entry] alone. *)
Theorem do_classpaths_components w fn fds a b :
  contains colon a = false ->
  do_classpaths w fn fds a = mark_classpath_entry w fds a /\
  do_classpaths w fn fds (a ++ String colon b)
  = do_classpaths w fn (fn fds a) b.
Proof.
  intros H. unfold do_classpaths. split.
  - rewrite <- (append_empty_r a) at 1.
    rewrite do_classpaths_from_component by exact H. reflexivity.
  - rewrite do_classpaths_from_component by exact H. reflexivity.
Qed.

Lemma do_classpaths_components_witness :
  do_classpaths (Samples.w_app true false 0 0) (mark_all_in (Samples.w_app true false 0 0))
    Samples.baseline ("/ext" ++ String colon "/app/app.jar")
  = do_classpaths (Samples.w_app true false 0 0) (mark_all_in (Samples.w_app true false 0 0))
      (mark_all_in (Samples.w_app true false 0 0) Samples.baseline "/ext")
      "/app/app.jar".
Proof.
  exact (proj2 (do_classpaths_components (Samples.w_app true false 0 0)
                  (mark_all_in (Samples.w_app true false 0 0)) Samples.baseline
                  "/ext" "/app/app.jar" eq_refl)).
Defined.

End ClassPathMarks.

(** ** Writing and reading the restore parameter block *)
Section BlockMore.
Import RestoreParameters BlockProps BlockSize.

(** A write of a whole buffer succeeds exactly when the segment has room
    for it. *)
Lemma write_check_error_exact f buf :
  buf <> [] ->
  exists f',
    write_check_error f buf (Z.of_nat (length buf))
    = ((sh_pos f + length buf <=? sh_limit f)%nat, f') /\
    sh_limit f' = sh_limit f /\
    ((sh_pos f + length buf <= sh_limit f)%nat ->
     sh_pos f' = (sh_pos f + length buf)%nat).
Proof.
  intros Hne. unfold write_check_error, write.
  assert (Hl : (0 < length buf)%nat) by (destruct buf; [congruence|simpl; lia]).
  destruct (Z.ltb_spec (Z.of_nat (length buf)) 0); [lia|].
  rewrite Nat2Z.id.
  set (n := Nat.min (length buf) (sh_limit f - sh_pos f)).
  destruct (Z.eqb_spec (Z.of_nat n) (Z.of_nat (length buf))) as [E|E]; simpl negb;
    cbv iota; eexists.
  - split; [apply f_equal2; [|reflexivity]|split; [reflexivity|]].
    + symmetry. apply Nat.leb_le. unfold n in E. lia.
    + simpl. intros _. unfold n in *. lia.
  - split; [apply f_equal2; [|reflexivity]|split; [reflexivity|]].
    + symmetry. apply Nat.leb_gt. unfold n in E. lia.
    + simpl. intros Hfit. unfold n in *. lia.
Qed.

Lemma write_props_exact props : forall f,
  (sh_pos f <= sh_limit f)%nat ->
  Forall (fun p => (length (prop_text p) < 4096)%nat) props ->
  exists f',
    write_props f props
    = Some ((sh_pos f + length (packed (map prop_text props)) <=? sh_limit f)%nat, f') /\
    sh_limit f' = sh_limit f /\
    ((sh_pos f + length (packed (map prop_text props)) <= sh_limit f)%nat ->
     sh_pos f' = (sh_pos f + length (packed (map prop_text props)))%nat).
Proof.
  induction props as [|p props IH]; intros f Hin Hs.
  - exists f. simpl. unfold packed. simpl. rewrite Nat.add_0_r.
    destruct (Nat.leb_spec (sh_pos f) (sh_limit f)); [auto|lia].
  - inversion Hs as [|? ? Hp Hps]; subst. cbn [write_props snprintf_prop].
    rewrite to_int_in_range by (unfold CInt.is_int; lia).
    assert (H1 : (0 < length (prop_text p))%nat)
      by (unfold prop_text; rewrite !length_app; simpl; lia).
    destruct (Z.ltb_spec 0 (Z.of_nat (length (prop_text p)))); [|lia].
    destruct (Z.ltb_spec (Z.of_nat (length (prop_text p))) 4096); [|lia].
    cbn [andb]. rewrite firstn_all2 by lia.
    replace (Z.of_nat (length (prop_text p)) + 1)
      with (Z.of_nat (length (prop_text p ++ [x00])))
      by (rewrite length_app; simpl; lia).
    destruct (write_check_error_exact f (prop_text p ++ [x00]))
      as (f1 & E & Hlim & Hpos); [destruct (prop_text p); discriminate|].
    rewrite E. cbn [map]. rewrite packed_length_cons.
    rewrite length_app in *. simpl length in *.
    destruct (Nat.leb_spec (sh_pos f + (length (prop_text p) + 1)) (sh_limit f))
      as [Hfit|Hno]; cbn [negb].
    + destruct (IH f1 ltac:(rewrite Hpos, Hlim by exact Hfit; lia) Hps)
        as (f2 & E2 & Hlim2 & Hpos2).
      rewrite E2. rewrite Hpos, Hlim in * by exact Hfit.
      exists f2. split; [|split; [congruence|]].
      * f_equal. f_equal.
        destruct (Nat.leb_spec
                    (sh_pos f + (length (prop_text p) + 1)
                     + length (packed (map prop_text props))) (sh_limit f));
          destruct (Nat.leb_spec
                      (sh_pos f + (length (prop_text p) + 1
                                   + length (packed (map prop_text props))))
                      (sh_limit f)); auto; lia.
      * intros H2. rewrite Hpos2 by lia. lia.
    + exists f1. split; [|split; [exact Hlim|intros; lia]].
      f_equal. f_equal. symmetry. apply Nat.leb_gt. lia.
Qed.

Lemma write_env_exact env : forall f,
  (sh_pos f <= sh_limit f)%nat ->
  Forall (fun e => Z.of_nat (length e) + 1 < 2 ^ 31) env ->
  exists f',
    write_env f env
    = ((sh_pos f + length (packed env) <=? sh_limit f)%nat, f') /\
    sh_limit f' = sh_limit f /\
    ((sh_pos f + length (packed env) <= sh_limit f)%nat ->
     sh_pos f' = (sh_pos f + length (packed env))%nat).
Proof.
  induction env as [|e env IH]; intros f Hin Hs.
  - exists f. simpl. unfold packed. simpl. rewrite Nat.add_0_r.
    destruct (Nat.leb_spec (sh_pos f) (sh_limit f)); [auto|lia].
  - inversion Hs as [|? ? He Henv]; subst. cbn [write_env].
    rewrite to_int_in_range by (unfold CInt.is_int; lia).
    replace (Z.of_nat (length e) + 1) with (Z.of_nat (length (e ++ [x00])))
      by (rewrite length_app; simpl; lia).
    destruct (write_check_error_exact f (e ++ [x00]))
      as (f1 & E & Hlim & Hpos); [destruct e; discriminate|].
    rewrite E. rewrite packed_length_cons.
    rewrite length_app in *. simpl length in *.
    destruct (Nat.leb_spec (sh_pos f + (length e + 1)) (sh_limit f))
      as [Hfit|Hno]; cbn [negb].
    + destruct (IH f1 ltac:(rewrite Hpos, Hlim by exact Hfit; lia) Henv)
        as (f2 & E2 & Hlim2 & Hpos2).
      rewrite E2. rewrite Hpos, Hlim in * by exact Hfit.
      exists f2. split; [|split; [congruence|]].
      * f_equal.
        destruct (Nat.leb_spec
                    (sh_pos f + (length e + 1) + length (packed env)) (sh_limit f));
          destruct (Nat.leb_spec
                      (sh_pos f + (length e + 1 + length (packed env)))
                      (sh_limit f)); auto; lia.
      * intros H2. rewrite Hpos2 by lia. lia.
    + exists f1. split; [|split; [exact Hlim|intros; lia]].
      f_equal. symmetry. apply Nat.leb_gt. lia.
Qed.

(** X17.  With every property text shorter than 4096 and the sizes within
    an int, [write_to] always returns, and it returns true exactly when the
    segment has room for the whole block from the file offset on; the
    offset is then past the block. *)
Theorem write_to_fits f environ props a time counter :
  Forall (fun p => (length (prop_text p) < 4096)%nat) props ->
  Z.of_nat (length (packed environ)) < 2 ^ 31 ->
  Z.of_nat (length a) + 1 < 2 ^ 31 ->
  exists f',
    write_to f environ props a time counter
    = Some ((sh_pos f + block_size environ props a <=? sh_limit f)%nat, f') /\
    ((sh_pos f + block_size environ props a <= sh_limit f)%nat ->
     sh_pos f' = (sh_pos f + block_size environ props a)%nat).
Proof.
  intros Hp He Ha. unfold write_to, block_size. cbv zeta.
  set (hdr := mk_header time counter (system_props_length props)
                (env_vars_size environ)).
  pose proof (header_bytes_length hdr) as Hh.
  destruct (write_check_error_exact f (header_bytes hdr))
    as (f1 & E1 & L1 & P1).
  { intros E. rewrite E in Hh. discriminate. }
  rewrite Hh in E1, P1. rewrite E1.
  destruct (Nat.leb_spec (sh_pos f + sizeof_header) (sh_limit f)) as [F1|F1];
    cbn [negb].
  2:{ exists f1. split; [|intros; lia]. f_equal. f_equal. symmetry.
      apply Nat.leb_gt. lia. }
  specialize (P1 F1).
  destruct (write_props_exact props f1 ltac:(lia) Hp) as (f2 & E2 & L2 & P2).
  rewrite E2. rewrite P1, L1 in *.
  destruct (Nat.leb_spec
              (sh_pos f + sizeof_header + length (packed (map prop_text props)))
              (sh_limit f)) as [F2|F2].
  2:{ exists f2. split; [|intros; lia]. f_equal. f_equal. symmetry.
      apply Nat.leb_gt. lia. }
  specialize (P2 F2).
  destruct (write_env_exact environ f2 ltac:(lia) (packed_entries_fit environ He))
    as (f3 & E3 & L3 & P3).
  rewrite E3. rewrite P2, L2 in *.
  destruct (Nat.leb_spec
              (sh_pos f + sizeof_header + length (packed (map prop_text props))
               + length (packed environ)) (sh_limit f)) as [F3|F3]; cbn [negb].
  2:{ exists f3. split; [|intros; lia]. f_equal. f_equal. symmetry.
      apply Nat.leb_gt. lia. }
  specialize (P3 F3).
  rewrite to_int_in_range by (unfold CInt.is_int; lia).
  replace (Z.of_nat (length a) + 1) with (Z.of_nat (length (a ++ [x00])))
    by (rewrite length_app; simpl; lia).
  destruct (write_check_error_exact f3 (a ++ [x00]))
    as (f4 & E4 & L4 & P4); [destruct a; discriminate|].
  rewrite E4. rewrite length_app in *. simpl length in *.
  rewrite P3, L3 in *.
  exists f4. split.
  - f_equal. f_equal.
    destruct (Nat.leb_spec
                (sh_pos f + sizeof_header + length (packed (map prop_text props))
                 + length (packed environ) + (length a + 1)) (sh_limit f));
      destruct (Nat.leb_spec
                  (sh_pos f
                   + (sizeof_header + length (packed (map prop_text props))
                      + length (packed environ) + (length a + 1)))
                  (sh_limit f)); auto; lia.
  - intros H. rewrite P4 by lia. lia.
Qed.

Lemma write_to_fits_witness :
  exists f',
    write_to Samples.seg0 Samples.environ0 Samples.props0 Samples.args0 5 6
    = Some ((sh_pos Samples.seg0
             + block_size Samples.environ0 Samples.props0 Samples.args0
             <=? sh_limit Samples.seg0)%nat, f') /\
    ((sh_pos Samples.seg0
      + block_size Samples.environ0 Samples.props0 Samples.args0
      <= sh_limit Samples.seg0)%nat ->
     sh_pos f'
     = (sh_pos Samples.seg0
        + block_size Samples.environ0 Samples.props0 Samples.args0)%nat).
Proof.
  apply (write_to_fits Samples.seg0 Samples.environ0 Samples.props0
           Samples.args0 5 6).
  - repeat constructor.
  - reflexivity.
  - reflexivity.
Defined.








End BlockMore.

(** ** More on the attempt as a whole *)
Section AttemptMore.
Import Stat Kernel Crac Policy Props.

(** What the part of [doit] after the loop leaves alone. *)
Lemma doit_finish_keeps w self p ok :
  let r := doit_finish w self p ok in
  _persistent_resources (res_process r) = _persistent_resources p /\
  _crengine (res_process r) = _crengine p /\
  _vm_inited_fds (res_process r) = _vm_inited_fds p /\
  p_kernel (res_process r) = p_kernel p /\
  _failures (res_vm r) = _failures self /\
  _dry_run (res_vm r) = _dry_run self /\
  _attach_op (res_vm r) = _attach_op self.
Proof.
  unfold doit_finish. cbv zeta.
  destruct (negb ok && CRDoThrowCheckpointException (w_flags w));
    [simpl; repeat split|].
  destruct (negb (w_perf_checkpoint w)); [simpl; repeat split|].
  destruct (CRAllowToSkipCheckpoint (w_flags w)).
  - simpl. repeat split.
  - unfold report_ok_to_jcmd_if_any.
    destruct (checkpoint_restore w p 0) as [[ret shmid] evs].
    destruct (_attach_op self) eqn:Ea;
      destruct ret; simpl; try (repeat split; auto; fail);
      destruct (shmid <=? 0); simpl; try (repeat split; auto; fail);
      unfold read_shm; cbn [_restore_parameters];
      destruct (w_shm w shmid) as [src|]; simpl; try (repeat split; auto; fail);
      destruct (RestoreParameters.read_from _ src); simpl; repeat split; auto.
Qed.

Lemma doit_prepare_drains w p fds p' :
  doit_prepare w p = Some (fds, p') ->
  _persistent_resources p' = None /\
  _vm_inited_fds p' = _vm_inited_fds p /\ _crengine p' = _crengine p.
Proof.
  unfold doit_prepare. destruct (FdsInfo.initialize _ _) as [[f k]|]; [|discriminate].
  unfold Registry.mark_persistent. simpl _persistent_resources.
  destruct (_persistent_resources p) as [l|].
  - destruct (Registry.mark_entries _ l); [|discriminate].
    intros H; inversion H; subst. simpl. auto.
  - intros H; inversion H; subst. simpl. auto.
Qed.

Lemma doit_aborted_prepare w self p :
  doit_prepare w p = None -> res_aborted (doit w self p) = true.
Proof. intros H. unfold doit. rewrite H. reflexivity. Qed.

(** X19.  Every attempt that gets to the evaluation of the descriptors
    forgets all registered persistent descriptors, whatever its outcome (a
    dry run and a failed attempt too); it changes neither the snapshot of the
    start nor the engine path. *)
Theorem attempt_forgets_registry w self p :
  res_aborted (doit w self p) = false ->
  let r := doit w self p in
  _persistent_resources (res_process r) = None /\
  _vm_inited_fds (res_process r) = _vm_inited_fds p /\
  _crengine (res_process r) = _crengine p.
Proof.
  intros Ha. pose proof (doit_unfold w self p) as Hu.
  destruct (doit_prepare w p) as [[fds p']|] eqn:Ep.
  - cbv zeta in Hu. rewrite Hu. cbn [res_process].
    destruct (doit_prepare_drains w p fds p' Ep) as (D1 & D2 & D3).
    match goal with |- context [doit_finish ?a ?b ?c ?d] =>
      destruct (doit_finish_keeps a b c d) as (K1 & K2 & K3 & _) end.
    rewrite K1, K2, K3. auto.
  - rewrite (doit_aborted_prepare w self p Ep) in Ha. discriminate.
Qed.

Lemma attempt_forgets_registry_witness :
  let p := with_registry Samples.p_app (Some [Registry.desc 6 2049 1234]) in
  let r := doit (Samples.w_app true false 0 0)
             (new_VM_Crac (Samples.w_app true false 0 0) true false) p in
  _persistent_resources (res_process r) = None /\
  _vm_inited_fds (res_process r) = _vm_inited_fds p /\
  _crengine (res_process r) = _crengine p.
Proof.
  apply (attempt_forgets_registry (Samples.w_app true false 0 0)
           (new_VM_Crac (Samples.w_app true false 0 0) true false)
           (with_registry Samples.p_app (Some [Registry.desc 6 2049 1234]))).
  vm_compute. reflexivity.
Defined.

(** The verdict of the evaluation decides the result under
    CRDoThrowCheckpointException. *)
Lemma doit_strict_ok w self p fds p' :
  CRDoThrowCheckpointException (w_flags w) = true ->
  doit_prepare w p = Some (fds, p') ->
  _ok self = false ->
  _ok (res_vm (doit w self p)) = true ->
  e_ok (doit_evaluate w self p' fds) = true.
Proof.
  intros Ht Ep Hs Hok. pose proof (doit_unfold w self p) as Hu.
  rewrite Ep in Hu. cbv zeta in Hu. rewrite Hu in Hok. cbn [res_vm] in Hok.
  destruct (e_ok (doit_evaluate w self p' fds)) eqn:Ee; [reflexivity|].
  match type of Hok with context [doit_finish ?a ?b ?c ?d] =>
    destruct (doit_finish_stops_early a b c d) as (K & _) end.
  { rewrite Ht. reflexivity. }
  rewrite K in Hok. simpl in Hok. congruence.
Qed.

(** X20.  With CRDoThrowCheckpointException, [checkpoint] returns
    JVM_CHECKPOINT_OK only for an attempt that is no dry run and in which
    no descriptor was found blocking. *)
Theorem strict_success_is_clean w p dry_run jcmd_stream fds p' :
  CRDoThrowCheckpointException (w_flags w) = true ->
  doit_prepare w p = Some (fds, p') ->
  b_ret (fst (checkpoint w p dry_run jcmd_stream)) = JVM_CHECKPOINT_OK ->
  dry_run = false /\
  blocked w (new_VM_Crac w dry_run jcmd_stream) p' fds
    (seq 0 (table_len fds)) = [] /\
  b_err_codes (fst (checkpoint w p dry_run jcmd_stream)) = [].
Proof.
  intros Ht Ep Hok. unfold checkpoint in *.
  destruct (CRaCCheckpointTo (w_flags w)); [|discriminate].
  destruct (negb (w_mkdir_ok w)); [discriminate|].
  destruct (_ok (res_vm (doit w (new_VM_Crac w dry_run jcmd_stream) p))) eqn:Eo;
    [|discriminate].
  pose proof (doit_strict_ok w (new_VM_Crac w dry_run jcmd_stream) p fds p'
                Ht Ep eq_refl Eo) as He.
  rewrite doit_evaluate_ok in He. apply andb_prop in He. destruct He as [Hd Hb].
  simpl in Hd. split; [destruct dry_run; [discriminate|reflexivity]|].
  split; [|reflexivity].
  destruct (blocked _ _ _ _ _); [reflexivity|discriminate].
Qed.

Lemma strict_success_is_clean_witness :
  exists fds p',
    doit_prepare (Samples.w_app true false 0 0) Samples.p_stdio = Some (fds, p') /\
    blocked (Samples.w_app true false 0 0)
      (new_VM_Crac (Samples.w_app true false 0 0) false false) p' fds
      (seq 0 (table_len fds)) = [].
Proof.
  destruct (doit_prepare (Samples.w_app true false 0 0) Samples.p_stdio)
    as [[fds p']|] eqn:E; [|vm_compute in E; discriminate E].
  exists fds, p'. split; [reflexivity|].
  apply (strict_success_is_clean (Samples.w_app true false 0 0) Samples.p_stdio
           false false fds p' eq_refl E).
  vm_compute. reflexivity.
Defined.

(** X21.  What [checkpoint] returns with JVM_CHECKPOINT_ERROR: the codes
    and the messages of the failure records of the blocking descriptors, one
    of each per descriptor and in the order of the descriptor numbers; no
    arguments and no properties. *)
Theorem checkpoint_error_lists w p dry_run jcmd_stream fds p' :
  doit_prepare w p = Some (fds, p') ->
  let b := fst (checkpoint w p dry_run jcmd_stream) in
  let bl := blocked w (new_VM_Crac w dry_run jcmd_stream) p' fds
              (seq 0 (table_len fds)) in
  b_ret b = JVM_CHECKPOINT_ERROR ->
  b_err_codes b = map _type bl /\ b_err_msgs b = map _msg bl /\
  b_new_args b = None /\ b_new_props b = [].
Proof.
  intros Ep b bl. unfold b, checkpoint.
  destruct (CRaCCheckpointTo (w_flags w)); [|discriminate].
  destruct (negb (w_mkdir_ok w)); [discriminate|].
  destruct (_ok (res_vm (doit w (new_VM_Crac w dry_run jcmd_stream) p)));
    [discriminate|].
  intros _. cbn [fst b_err_codes b_err_msgs b_new_args b_new_props].
  pose proof (doit_unfold w (new_VM_Crac w dry_run jcmd_stream) p) as Hu.
  rewrite Ep in Hu. cbv zeta in Hu. rewrite Hu. cbn [res_vm].
  match goal with |- context [doit_finish ?a ?b ?c ?d] =>
    destruct (doit_finish_keeps a b c d) as (_ & _ & _ & _ & K & _) end.
  rewrite K. cbn [with_failures _failures].
  rewrite doit_evaluate_failures. auto.
Qed.

Lemma checkpoint_error_lists_witness :
  exists fds p',
    doit_prepare (Samples.w_app true false 0 0) Samples.p_app = Some (fds, p') /\
    b_err_codes (fst (checkpoint (Samples.w_app true false 0 0) Samples.p_app
                        false false))
    = map _type (blocked (Samples.w_app true false 0 0)
                   (new_VM_Crac (Samples.w_app true false 0 0) false false)
                   p' fds (seq 0 (table_len fds))).
Proof.
  destruct (doit_prepare (Samples.w_app true false 0 0) Samples.p_app)
    as [[fds p']|] eqn:E; [|vm_compute in E; discriminate E].
  exists fds, p'. split; [reflexivity|].
  apply (checkpoint_error_lists (Samples.w_app true false 0 0) Samples.p_app
           false false fds p' E).
  vm_compute. reflexivity.
Defined.

Lemma occurs_checkpoint_restore w p shmid k :
  (k < 5 \/ 10 < k)%nat -> occurs k (snd (checkpoint_restore w p shmid)) = false.
Proof.
  intros Hk. unfold checkpoint_restore.
  pose proof (occurs_call_crengine w p k ltac:(lia) ltac:(lia)) as Hc.
  destruct (call_crengine w p) as [cres evs]. simpl snd in Hc.
  assert (H5 : Nat.eqb 5 k = false) by (apply Nat.eqb_neq; lia).
  assert (H8 : Nat.eqb 8 k = false) by (apply Nat.eqb_neq; lia).
  assert (H9 : Nat.eqb 9 k = false) by (apply Nat.eqb_neq; lia).
  assert (H10 : Nat.eqb 10 k = false) by (apply Nat.eqb_neq; lia).
  destruct (cres <? 0); cbn [snd].
  - rewrite occurs_cons. cbn [event_kind]. rewrite H5, Hc. reflexivity.
  - destruct (CRTraceStartupTime (w_flags w));
      destruct (negb (w_si_code w =? SI_QUEUE) || (w_si_int w <? 0)); cbn [snd];
      rewrite ?occurs_app, ?occurs_cons, ?occurs_eintr_loop; cbn [event_kind];
      rewrite ?H5, ?H8, ?H9, ?H10, ?Hc; reflexivity.
Qed.

(** Whether the performance memory is restored, for the part of [doit]
    after the loop. *)
Lemma doit_finish_perf w self p ok :
  let r := doit_finish w self p ok in
  occurs 13 (res_trace r)
  = negb (res_aborted r) && occurs 3 (res_trace r) && w_perf_checkpoint w.
Proof.
  unfold doit_finish. cbv zeta.
  destruct (negb ok && CRHeapDumpOnCheckpointException (w_flags w));
    destruct (negb ok && CRDoThrowCheckpointException (w_flags w));
    try reflexivity;
    (destruct (w_perf_checkpoint w); [|reflexivity]); cbn [negb];
    (destruct (CRAllowToSkipCheckpoint (w_flags w));
     [ change (0 <=? 0) with true; cbn [res_trace res_aborted];
       rewrite !occurs_app;
       rewrite !occurs_trace_cr by discriminate; reflexivity | ]);
    pose proof (occurs_checkpoint_restore w p 0 13 ltac:(lia)) as H13;
    pose proof (occurs_checkpoint_restore w p 0 3 ltac:(lia)) as H3;
    pose proof (occurs_report_ok self 13 ltac:(discriminate)) as R13;
    pose proof (occurs_report_ok self 3 ltac:(discriminate)) as R3;
    destruct (report_ok_to_jcmd_if_any self) as [self1 evr];
    destruct (checkpoint_restore w p 0) as [[ret shmid] evs];
    cbn [snd] in *;
    destruct ret; cbn [res_trace res_aborted];
    try (rewrite !occurs_app, !occurs_trace_cr by discriminate;
         rewrite ?R13, ?R3, ?H13, ?H3; reflexivity);
    (destruct (shmid <=? 0); cbn [res_trace res_aborted];
     [ rewrite !occurs_app, !occurs_trace_cr by discriminate;
       rewrite ?R13, ?R3, ?H13, ?H3; reflexivity | ]);
    pose proof (read_shm_events w self1 p shmid) as Hs;
    destruct (read_shm w self1 p shmid) as [[[[b s2] p2]|] ev2];
    cbn [snd] in Hs; subst ev2;
    try destruct b; cbn [res_trace res_aborted];
    rewrite !occurs_app, !occurs_trace_cr by discriminate;
    rewrite ?R13, ?R3, ?H13, ?H3; reflexivity.
Qed.

(** X22.  In every attempt [PerfMemoryLinux::restore] is called exactly
    when [PerfMemoryLinux::checkpoint] was called and succeeded, on the
    paths that fail as on the one that succeeds, unless the VM stops on a
    read outside the restore parameter buffer. *)
Theorem perf_memory_restored w self p :
  res_aborted (doit w self p) = false ->
  (In EvPerfRestore (res_trace (doit w self p)) <->
   In EvPerfCheckpoint (res_trace (doit w self p)) /\ w_perf_checkpoint w = true).
Proof.
  intros Ha. pose proof (doit_unfold w self p) as Hu.
  destruct (doit_prepare w p) as [[fds p']|] eqn:Ep.
  2:{ rewrite (doit_aborted_prepare w self p Ep) in Ha. discriminate. }
  cbv zeta in Hu. rewrite Hu in *. cbn [res_trace res_aborted] in *.
  match goal with |- context [doit_finish ?a ?b ?c ?d] =>
    pose proof (doit_finish_perf a b c d) as Hp;
    set (rf := doit_finish a b c d) in * end.
  cbv zeta in Hp. rewrite Ha in Hp. cbn [negb andb] in Hp.
  set (pr := print_resources w (with_failures self
               (e_failures (doit_evaluate w self p' fds)))
               (e_lines (doit_evaluate w self p' fds))) in *.
  assert (P13 : occurs 13 pr = false)
    by (apply occurs_print_resources; discriminate).
  assert (P3 : occurs 3 pr = false)
    by (apply occurs_print_resources; discriminate).
  split.
  - intros Hin. apply in_occurs in Hin. cbn [event_kind] in Hin.
    rewrite occurs_app, P13, Hp in Hin. cbn [orb] in Hin.
    apply andb_prop in Hin. destruct Hin as [H3 Hw]. split; [|exact Hw].
    apply in_or_app. right.
    apply (in_constant_event EvPerfCheckpoint); [exact H3|].
    intros e' He. destruct e'; try discriminate. reflexivity.
  - intros [Hin Hw]. apply in_occurs in Hin. cbn [event_kind] in Hin.
    rewrite occurs_app, P3 in Hin. cbn [orb] in Hin.
    apply in_or_app. right.
    apply (in_constant_event EvPerfRestore);
      [cbn [event_kind]; rewrite Hp, Hin, Hw; reflexivity|].
    intros e' He. destruct e'; try discriminate. reflexivity.
Qed.

Lemma perf_memory_restored_witness :
  In EvPerfRestore
    (res_trace (doit (Samples.w_app false false 256 0)
                  (new_VM_Crac (Samples.w_app false false 256 0) false false)
                  Samples.p_app)) <->
  In EvPerfCheckpoint
    (res_trace (doit (Samples.w_app false false 256 0)
                  (new_VM_Crac (Samples.w_app false false 256 0) false false)
                  Samples.p_app)) /\
  w_perf_checkpoint (Samples.w_app false false 256 0) = true.
Proof.
  apply (perf_memory_restored (Samples.w_app false false 256 0)
           (new_VM_Crac (Samples.w_app false false 256 0) false false)
           Samples.p_app).
  vm_compute. reflexivity.
Defined.






(** X24.  The snapshot that [vm_create_start] takes when checkpoints are
    configured makes rule 1 of the resource policy accept every descriptor
    number that was open, below the limit on open files, when the VM
    started.  Every number it accepts is below the limit and open when
    [vm_create_start] returns, and was open when the VM started unless its
    slot is a duplicate (of a descriptor that the alias probe opened
    meanwhile). *)
Theorem baseline_is_open_at_start w p p' dir :
  CRaCCheckpointTo (w_flags w) = Some dir ->
  vm_create_start w p = Some p' ->
  forall i,
    ((i < k_open_max (p_kernel p))%nat /\ k_fd (p_kernel p) i <> None ->
     in_baseline p' i) /\
    (in_baseline p' i ->
     (i < k_open_max (p_kernel p))%nat /\ k_fd (p_kernel p') i <> None /\
     (k_fd (p_kernel p) i <> None \/
      exists j, (j < i)%nat /\
        FdsInfo.get_state (_vm_inited_fds p') i FdsInfo.CLOSED
        = FdsInfo.DUP_OF_0 + Z.of_nat j)).
Proof.
  intros Hc. unfold vm_create_start. rewrite Hc.
  destruct (FdsInfo.initialize (p_kernel p) (w_raw w)) as [[f k']|] eqn:E;
    [|discriminate].
  intros H; inversion H; subst p'; clear H. intros i.
  unfold in_baseline. cbn [_vm_inited_fds p_kernel].
  destruct (initialize_inv _ _ f k' E) as (l & -> & Hlen & Hk & _ & _ & Hcl).
  rewrite scan_length in Hlen.
  pose proof (scan_len_le (p_kernel p) (k_open_max (p_kernel p))) as Hle.
  destruct Hk as (Hfd & _).
  destruct (Nat.lt_ge_cases i (length l)) as [Hi|Hi].
  - rewrite get_state_in by exact Hi.
    destruct (Hcl i ltac:(rewrite scan_length; lia)) as (Hclosed & Hopen & _).
    split.
    + intros [_ Ho] Hs. destruct (k_fd (p_kernel p) i) as [id|] eqn:Ek;
        [|congruence].
      destruct (Hopen id eq_refl) as [Hr|(j & _ & Hd & _)].
      * rewrite Hr in Hs. discriminate.
      * rewrite Hd in Hs. revert Hs. apply dup_state_not_closed.
    + intros Hs. split; [lia|].
      destruct (k_fd (p_kernel p) i) as [id|] eqn:Ek.
      * split; [rewrite (Hfd _ _ Ek); discriminate|left; discriminate].
      * destruct (Hclosed eq_refl) as [Hcc|(j & id & Hj & Hd & _ & _ & Hki)];
          [contradiction|].
        split; [rewrite Hki; discriminate|]. right. exists j. auto.
  - rewrite get_state_out by exact Hi. split; [|congruence].
    intros [Hlt Ho]. exfalso. apply Ho.
    apply (scan_len_covers (p_kernel p) (k_open_max (p_kernel p))). lia.
Qed.

Lemma baseline_is_open_at_start_witness :
  exists p',
    vm_create_start (Samples.w_app true false 0 0) Samples.p_stdio = Some p' /\
    ((2 < k_open_max (p_kernel Samples.p_stdio))%nat /\
     k_fd (p_kernel Samples.p_stdio) 2 <> None -> in_baseline p' 2).
Proof.
  destruct (vm_create_start (Samples.w_app true false 0 0) Samples.p_stdio)
    as [p'|] eqn:E; [|vm_compute in E; discriminate E].
  exists p'. split; [reflexivity|].
  apply (baseline_is_open_at_start (Samples.w_app true false 0 0)
           Samples.p_stdio p' "cr"%string eq_refl E).
Defined.

End AttemptMore.

(** ** The order of the steps *)
Section StepOrder.
Import Crac Protocol.

Lemma sorted_app (R : event -> event -> Prop) a b :
  StronglySorted R a -> StronglySorted R b ->
  (forall x y, In x a -> In y b -> R x y) ->
  StronglySorted R (a ++ b).
Proof.
  induction a as [|x a IH]; intros Ha Hb Hab; simpl; [exact Hb|].
  inversion Ha as [|? ? Hsa Hx]; subst. constructor.
  - apply IH; auto. intros u v Hu Hv. apply Hab; [right; exact Hu|exact Hv].
  - apply Forall_app. split; [exact Hx|].
    apply Forall_forall. intros y Hy. apply Hab; [left; reflexivity|exact Hy].
Qed.

Lemma seg_nil lo hi : seg lo hi [].
Proof. split; constructor. Qed.

Lemma seg_single lo hi e : (lo <= phase e < hi)%nat -> seg lo hi [e].
Proof.
  intros H. split; [repeat constructor|]. constructor; [exact H|constructor].
Qed.

Lemma seg_weaken lo hi lo' hi' tr :
  seg lo hi tr -> (lo' <= lo)%nat -> (hi <= hi')%nat -> seg lo' hi' tr.
Proof.
  intros [Ho Hb] Hl Hh. split; [exact Ho|].
  eapply Forall_impl; [|exact Hb]. simpl. intros; lia.
Qed.

Lemma seg_app lo mid hi a b :
  (lo <= mid <= hi)%nat -> seg lo mid a -> seg mid hi b -> seg lo hi (a ++ b).
Proof.
  intros Hm [Oa Ba] [Ob Bb]. split.
  - apply sorted_app; auto. intros x y Hx Hy. left.
    rewrite Forall_forall in Ba, Bb. specialize (Ba x Hx). specialize (Bb y Hy).
    lia.
  - apply Forall_app. split.
    + eapply Forall_impl; [|exact Ba]. simpl. intros; lia.
    + eapply Forall_impl; [|exact Bb]. simpl. intros; lia.
Qed.

Lemma seg_all_same lo hi n tr :
  (lo <= n < hi)%nat ->
  Forall (fun e => phase e = n /\ repeatable e = true) tr -> seg lo hi tr.
Proof.
  intros Hn. induction tr as [|e tr IH]; intros H; [apply seg_nil|].
  inversion H as [|? ? [He Hr] Ht]; subst. destruct (IH Ht) as [Ho Hb]. split.
  - constructor; [exact Ho|]. eapply Forall_impl; [|exact Ht].
    simpl. intros a [Ha _]. right. split; [congruence|exact Hr].
  - constructor; [lia|exact Hb].
Qed.

Lemma seg_eintr_loop lo hi e n :
  repeatable e = true -> (lo <= phase e < hi)%nat -> seg lo hi (eintr_loop e n).
Proof.
  intros Hr Hp. apply (seg_all_same lo hi (phase e)); [exact Hp|].
  induction n as [|n IH]; simpl; repeat constructor; auto.
Qed.

Lemma seg_print_resources w self lines : seg 0 1 (print_resources w self lines).
Proof.
  unfold print_resources. destruct (CRPrintResourcesOnCheckpoint (w_flags w));
    [|apply seg_nil].
  apply (seg_all_same 0 1 0); [lia|].
  induction lines as [|l lines IH]; simpl; constructor; auto.
Qed.

Lemma seg_trace_cr w self msg : seg 3 4 (trace_cr w self msg).
Proof.
  unfold trace_cr. destruct (CRTrace (w_flags w)); [|apply seg_nil].
  apply seg_single. simpl. lia.
Qed.

Lemma seg_report self : seg 4 5 (snd (report_ok_to_jcmd_if_any self)).
Proof.
  unfold report_ok_to_jcmd_if_any. destruct (_attach_op self); simpl;
    [apply seg_single; simpl; lia|apply seg_nil].
Qed.

Lemma seg_fork_waits lo hi n :
  (lo <= 6)%nat -> (8 <= hi)%nat -> seg lo hi (EvFork :: eintr_loop EvWaitpid n).
Proof.
  intros Hl Hh. change (seg lo hi ([EvFork] ++ eintr_loop EvWaitpid n)).
  apply (seg_app lo 7 hi); [lia|apply seg_single; simpl; lia|].
  apply seg_eintr_loop; [reflexivity|simpl; lia].
Qed.

Lemma seg_call_crengine w p : seg 6 8 (snd (call_crengine w p)).
Proof.
  unfold call_crengine. destruct (_crengine p); [|apply seg_nil].
  destruct (w_fork w =? -1); [apply seg_single; simpl; lia|].
  destruct ((w_waitpid w =? -1) || negb (WIFEXITED (w_status w)));
    cbn [snd]; apply seg_fork_waits; lia.
Qed.

Lemma seg_checkpoint_restore w p shmid :
  seg 5 11 (snd (checkpoint_restore w p shmid)).
Proof.
  unfold checkpoint_restore. pose proof (seg_call_crengine w p) as Hc.
  destruct (call_crengine w p) as [cres evs]. cbn [snd] in Hc.
  assert (H1 : seg 5 8 (EvCallCrengine :: evs)).
  { change (seg 5 8 ([EvCallCrengine] ++ evs)).
    apply (seg_app 5 6 8); [lia|apply seg_single; simpl; lia|exact Hc]. }
  destruct (cres <? 0); cbn [snd].
  - apply (seg_weaken 5 8); [exact H1|lia|lia].
  - assert (H2 : seg 5 9 ((EvCallCrengine :: evs)
                          ++ eintr_loop EvSigwaitinfo (w_sig_eintr w))).
    { apply (seg_app 5 8 9); [lia|exact H1|].
      apply seg_eintr_loop; [reflexivity|simpl; lia]. }
    destruct (CRTraceStartupTime (w_flags w));
      destruct (negb (w_si_code w =? SI_QUEUE) || (w_si_int w <? 0)); cbn [snd].
    + apply (seg_app 5 10 11); [lia| |apply seg_single; simpl; lia].
      apply (seg_app 5 9 10); [lia|exact H2|apply seg_single; simpl; lia].
    + apply (seg_weaken 5 10); [|lia|lia].
      apply (seg_app 5 9 10); [lia|exact H2|apply seg_single; simpl; lia].
    + apply (seg_app 5 10 11); [lia| |apply seg_single; simpl; lia].
      apply (seg_weaken 5 9); [exact H2|lia|lia].
    + apply (seg_weaken 5 9); [exact H2|lia|lia].
Qed.

Lemma seg_shm id : seg 11 13 [EvShmOpen id; EvShmUnlink id].
Proof.
  change (seg 11 13 ([EvShmOpen id] ++ [EvShmUnlink id])).
  apply (seg_app 11 12 13); [lia| |]; apply seg_single; simpl; lia.
Qed.

Ltac lower b :=
  lazymatch b with
  | [EvPerfRestore] => constr:(13%nat)
  | [EvPerfCheckpoint] => constr:(2%nat)
  | [EvHeapDump] => constr:(1%nat)
  | [EvShmOpen _; EvShmUnlink _] => constr:(11%nat)
  | trace_cr _ _ _ => constr:(3%nat)
  | ?x ++ _ => lower x
  | _ => lazymatch goal with H : seg ?l _ b |- _ => constr:(l) end
  end.

Ltac seg_auto :=
  lazymatch goal with
  | |- seg ?lo ?hi (?a ++ ?b) =>
      let m := lower b in
      apply (seg_app lo m hi); [lia|seg_auto|seg_auto]
  | |- seg _ _ [] => apply seg_nil
  | |- seg _ _ [EvShmOpen _; EvShmUnlink _] =>
      eapply seg_weaken; [apply seg_shm|lia|lia]
  | |- seg _ _ [_] => apply seg_single; simpl; lia
  | |- seg _ _ (trace_cr _ _ _) =>
      eapply seg_weaken; [apply seg_trace_cr|lia|lia]
  | |- seg _ _ ?x =>
      lazymatch goal with
      | H : seg _ _ x |- _ => eapply seg_weaken; [exact H|lia|lia]
      end
  end.

Lemma seg_doit_finish w self p ok : seg 1 14 (res_trace (doit_finish w self p ok)).
Proof.
  unfold doit_finish. cbv zeta.
  destruct (negb ok && CRHeapDumpOnCheckpointException (w_flags w));
    destruct (negb ok && CRDoThrowCheckpointException (w_flags w));
    cbn [res_trace]; try seg_auto;
    (destruct (negb (w_perf_checkpoint w)); cbn [res_trace]; [seg_auto|]);
    (destruct (CRAllowToSkipCheckpoint (w_flags w));
     [ change (0 <=? 0) with true; cbn [res_trace]; seg_auto | ]);
    pose proof (seg_checkpoint_restore w p 0) as Hcr;
    pose proof (seg_report self) as Hrep;
    destruct (report_ok_to_jcmd_if_any self) as [self1 evr];
    destruct (checkpoint_restore w p 0) as [[ret shmid] evs];
    cbn [snd] in *;
    destruct ret; cbn [res_trace]; try seg_auto;
    (destruct (shmid <=? 0); cbn [res_trace]; [seg_auto|]);
    pose proof (read_shm_events w self1 p shmid) as Hs;
    destruct (read_shm w self1 p shmid) as [[[[b s2] p2]|] ev2];
    cbn [snd] in Hs; subst ev2;
    try destruct b; cbn [res_trace]; seg_auto.
Qed.

(** X25.  The steps of an attempt come in one order, each at most once but
    for the lines of the resource listing and the calls of [waitpid] and
    [sigwaitinfo] repeated when interrupted: the listing, the heap dump,
    the checkpoint of the performance memory, the trace line, the answer
    to jcmd, the engine (fork, then wait), the wait for the restore signal,
    the shared memory (open, then unlink), and the restore of the
    performance memory last. *)
Theorem attempt_steps_in_order w self p : in_order (res_trace (doit w self p)).
Proof.
  pose proof (doit_unfold w self p) as Hu.
  destruct (doit_prepare w p) as [[fds p']|].
  - cbv zeta in Hu. rewrite Hu. cbn [res_trace].
    apply (seg_app 0 1 14); [lia|apply seg_print_resources|apply seg_doit_finish].
  - rewrite Hu. constructor.
Qed.

End StepOrder.

(** ** File times *)
Section FileTimesLaws.
Import FileTimes.

Lemma to_jlong_in_range_small x : CInt.is_jlong x -> CInt.to_jlong x = x.
Proof.
  unfold CInt.is_jlong, CInt.to_jlong, CInt.signed. intros H.
  destruct (Z.ltb_spec (x mod 2 ^ 64) (2 ^ (64 - 1))) as [Hlt|Hge].
  - destruct (Z.le_gt_cases 0 x) as [Hp|Hn].
    + rewrite Z.mod_small in * by lia. reflexivity.
    + replace x with (x + 1 * 2 ^ 64 - 2 ^ 64) in Hlt at 1 by lia.
      replace (x + 1 * 2 ^ 64 - 2 ^ 64) with ((x + 2 ^ 64) + (-1) * 2 ^ 64) in Hlt
        by lia.
      rewrite Z.mod_add in Hlt by lia. rewrite Z.mod_small in Hlt by lia. lia.
  - destruct (Z.le_gt_cases 0 x) as [Hp|Hn].
    + rewrite Z.mod_small in Hge by lia. lia.
    + replace x with ((x + 2 ^ 64) + (-1) * 2 ^ 64) at 1 by lia.
      rewrite Z.mod_add by lia. rewrite Z.mod_small by lia. lia.
Qed.

(** X26.  When the modification times are less than 2^31 seconds apart
    and the nanoseconds are within a second, [compare_file_modified_times]
    is negative, zero or positive as the first file is older than, as old
    as, or newer than the second. *)
Theorem compare_file_modified_times_sign mtime file1 file2 :
  - 2 ^ 31 <= tv_sec (mtime file1) - tv_sec (mtime file2) < 2 ^ 31 ->
  0 <= tv_nsec (mtime file1) < 1000000000 ->
  0 <= tv_nsec (mtime file2) < 1000000000 ->
  let r := compare_file_modified_times mtime file1 file2 in
  (r < 0 <-> older mtime file1 file2) /\
  (r = 0 <-> mtime file1 = mtime file2) /\
  (0 < r <-> older mtime file2 file1).
Proof.
  intros Hs H1 H2. unfold compare_file_modified_times, get_mtime, older.
  cbv zeta.
  rewrite (to_jlong_in_range_small (tv_sec (mtime file1) - tv_sec (mtime file2)))
    by (unfold CInt.is_jlong; lia).
  rewrite (to_jlong_in_range_small (tv_nsec (mtime file1) - tv_nsec (mtime file2)))
    by (unfold CInt.is_jlong; lia).
  rewrite !to_int_in_range by (unfold CInt.is_int; lia).
  assert (Heq : mtime file1 = mtime file2 <->
                tv_sec (mtime file1) = tv_sec (mtime file2) /\
                tv_nsec (mtime file1) = tv_nsec (mtime file2)).
  { destruct (mtime file1), (mtime file2). simpl. split.
    - intros H; inversion H; auto.
    - intros [-> ->]. reflexivity. }
  rewrite Heq.
  destruct (Z.eqb_spec (tv_sec (mtime file1) - tv_sec (mtime file2)) 0); lia.
Qed.

Lemma compare_file_modified_times_sign_witness :
  let mtime := fun f => if String.eqb f "a" then mk_timespec 1700000000 5
                        else mk_timespec 1700000000 900 in
  compare_file_modified_times mtime "a" "b" < 0 <-> older mtime "a" "b".
Proof.
  apply (compare_file_modified_times_sign
           (fun f => if String.eqb f "a" then mk_timespec 1700000000 5
                     else mk_timespec 1700000000 900) "a" "b");
    simpl; lia.
Defined.

End FileTimesLaws.

(** ** The committed bottom of the stack *)
Section StackBottomLaws.
Import StackBottom.

Variable mincore : nat -> Z -> mincore_result.
Variables ntop page_sz pages m : Z.
Hypothesis Hpage : 0 < page_sz.
Hypothesis Hpages : 1 <= pages < 2 ^ 31 - 1.
Hypothesis Hm : 0 <= m <= pages.
Hypothesis Hfit : pages * page_sz <= ntop.
Hypothesis Htop : ntop + page_sz < 2 ^ 64.
Hypothesis Hmap : mapped_from_top mincore ntop page_sz pages m.

Lemma page_address i :
  1 <= i <= pages ->
  uptr (ntop - uptr (i * page_sz)) = ntop - i * page_sz.
Proof.
  intros Hi. unfold uptr.
  assert (0 <= i * page_sz <= pages * page_sz) by nia.
  rewrite (Z.mod_small (i * page_sz)) by lia.
  apply Z.mod_small. lia.
Qed.

(** The loop ends with the last page probed next to the border between
    the mapped and the unmapped pages. *)
Lemma search_ends fuel : forall imin imax nbot ret calls,
  1 <= imin <= m + 1 -> m + 1 <= imax <= pages + 1 ->
  imax - imin < Z.of_nat fuel ->
  (imin = imax ->
   nbot + page_sz + (if ret =? -1 then page_sz else 0)
   = ntop - (m - 1) * page_sz /\ 0 <= nbot) ->
  exists nbot' ret',
    search fuel mincore ntop page_sz imin imax nbot ret calls = Some (nbot', ret') /\
    nbot' + page_sz + (if ret' =? -1 then page_sz else 0)
    = ntop - (m - 1) * page_sz /\ 0 <= nbot'.
Proof.
  induction fuel as [|fuel IH]; intros imin imax nbot ret calls H1 H2 Hf Hend;
    [lia|].
  cbn [search]. destruct (Z.ltb_spec imin imax) as [Hlt|Hge].
  - cbv zeta.
    assert (Hu : u32 (imax + imin) = imax + imin)
      by (unfold u32; apply Z.mod_small; lia).
    rewrite Hu.
    assert (Hmid : imin <= (imax + imin) / 2 < imax).
    { split; [apply Z.div_le_lower_bound; lia|apply Z.div_lt_upper_bound; lia]. }
    set (imid := (imax + imin) / 2) in *.
    rewrite page_address by lia.
    rewrite (Hmap calls imid) by lia.
    assert (Hnb : 0 <= ntop - imid * page_sz) by nia.
    destruct (Z.leb_spec imid m) as [Hle|Hgt].
    + assert (Hu1 : u32 (imid + 1) = imid + 1)
        by (unfold u32; apply Z.mod_small; lia).
      rewrite Hu1. apply IH; try lia.
      intros E. change (0 =? -1) with false. cbv iota.
      assert (imid = m) by lia. subst imid. split; [nia|lia].
    + apply IH; try lia.
      intros E. change (-1 =? -1) with true. cbv iota.
      assert (imid = m + 1) by lia. split; [nia|lia].
  - exists nbot, ret. split; [reflexivity|]. apply Hend. lia.
Qed.

End StackBottomLaws.

Section StackBottomResult.
Import StackBottom.

(** X27.  For a stack of at least one page whose mapped pages are the [m]
    highest ones, and with [mincore] never interrupted,
    [get_stack_commited_bottom] finds the border by bisection in no more
    rounds than there are pages, and returns the address one page above the
    lowest mapped page (one page above the top when no page is mapped). *)
Theorem get_stack_commited_bottom_border mincore page_sz bottom size m fuel :
  0 < page_sz -> 0 <= bottom -> 0 <= size ->
  bottom + size + page_sz < 2 ^ 64 ->
  1 <= size / page_sz < 2 ^ 31 - 1 ->
  0 <= m <= size / page_sz ->
  mapped_from_top mincore (bottom + size) page_sz (size / page_sz) m ->
  size / page_sz < Z.of_nat fuel ->
  get_stack_commited_bottom fuel mincore page_sz bottom size
  = Some (bottom + size - (m - 1) * page_sz).
Proof.
  intros Hp Hb Hs Htop Hpages Hm Hmap Hfuel.
  unfold get_stack_commited_bottom. cbv zeta.
  assert (Hnt : uptr (bottom + size) = bottom + size)
    by (unfold uptr; apply Z.mod_small; lia).
  assert (Hpg : u32 (size / page_sz) = size / page_sz)
    by (unfold u32; apply Z.mod_small; lia).
  rewrite Hnt, Hpg.
  assert (Hp1 : u32 (size / page_sz + 1) = size / page_sz + 1)
    by (unfold u32; apply Z.mod_small; lia).
  rewrite Hp1.
  assert (Hfit : size / page_sz * page_sz <= bottom + size).
  { pose proof (Z.mul_div_le size page_sz Hp). lia. }
  destruct (search_ends mincore (bottom + size) page_sz (size / page_sz) m
              Hp Hpages Hm Hfit ltac:(lia) Hmap fuel
              1 (size / page_sz + 1) bottom 0 0%nat)
    as (nbot & ret & E & Hres & Hn0); try lia.
  rewrite E. f_equal.
  assert (Hlow : 0 <= m * page_sz <= size / page_sz * page_sz) by nia.
  destruct (ret =? -1).
  - assert (Hu : uptr (nbot + page_sz) = nbot + page_sz)
      by (unfold uptr; apply Z.mod_small; lia).
    rewrite Hu. unfold uptr. rewrite Z.mod_small; lia.
  - unfold uptr. rewrite Z.mod_small; lia.
Qed.

Lemma get_stack_commited_bottom_border_witness :
  get_stack_commited_bottom 9
    (fun _ a => if 65536 + 8 * 4096 - 3 * 4096 <=? a then InCore else Enomem)
    4096 65536 (8 * 4096)
  = Some (65536 + 8 * 4096 - (3 - 1) * 4096).
Proof.
  apply (get_stack_commited_bottom_border
           (fun _ a => if 65536 + 8 * 4096 - 3 * 4096 <=? a then InCore else Enomem)
           4096 65536 (8 * 4096) 3 9); try (vm_compute; intuition congruence).
  intros calls i Hi. cbv beta.
  change (8 * 4096 / 4096) with 8 in Hi.
  destruct (Z.leb_spec i 3); destruct (Z.leb_spec (65536 + 8 * 4096 - 3 * 4096)
                                         (65536 + 8 * 4096 - i * 4096));
    auto; lia.
Defined.

End StackBottomResult.

(** ** The path of the engine *)
Section EnginePath.
Import Engine PathProps.

Lemma cut_last_slash_none s :
  contains FdsInfo.slash s = false -> cut_last_slash s = None.
Proof.
  induction s as [|c s IH]; intros H; simpl in *; [reflexivity|].
  apply orb_false_iff in H. destruct H as [Hc H]. rewrite IH by exact H.
  rewrite Hc. reflexivity.
Qed.

Lemma cut_last_slash_append home base :
  contains FdsInfo.slash base = false ->
  cut_last_slash (home ++ String FdsInfo.slash base) = Some home.
Proof.
  intros H. induction home as [|c home IH]; simpl.
  - rewrite cut_last_slash_none by exact H. reflexivity.
  - rewrite IH. reflexivity.
Qed.

(** X28.  A CREngine that does not start with a slash is looked up in the
    directory two path elements above the path of the JVM library, when
    that directory, a slash, the CREngine and a NUL fit the buffer of
    JVM_MAXPATHLEN characters: [compute_crengine] succeeds exactly when
    [stat] accepts that path, which it then keeps, and otherwise leaves the
    engine as it was.  A CREngine that starts with a slash is kept as it is,
    without [stat]. *)
Theorem compute_crengine_path maxpathlen engine home a b stat_ok old :
  contains FdsInfo.slash a = false -> contains FdsInfo.slash b = false ->
  Z.of_nat (String.length home) < 2 ^ 31 ->
  (is_absolute engine = false ->
   (String.length home + 1 + String.length engine + 1 <= maxpathlen)%nat) ->
  let jvm_path :=
    ((home ++ String FdsInfo.slash a) ++ String FdsInfo.slash b)%string in
  let path := (home ++ String FdsInfo.slash EmptyString ++ engine)%string in
  compute_crengine maxpathlen (Some engine) jvm_path stat_ok old
  = if is_absolute engine then Some (true, Some engine)
    else Some (stat_ok path, if stat_ok path then Some path else old).
Proof.
  intros Ha Hb Hl Hfit. cbv zeta. unfold compute_crengine.
  destruct (is_absolute engine); [reflexivity|]. specialize (Hfit eq_refl).
  unfold cr_util_path. rewrite cut_last_slash_append by exact Hb.
  rewrite cut_last_slash_append by exact Ha.
  rewrite to_int_in_range by (unfold CInt.is_int; lia).
  destruct (Z.ltb_spec (Z.of_nat (String.length home)) 0); [lia|].
  rewrite Nat2Z.id. rewrite substring0_all by lia.
  destruct (Nat.ltb_spec maxpathlen
              (String.length home + 1 + String.length engine + 1)); [lia|].
  destruct (stat_ok _); reflexivity.
Qed.

Lemma compute_crengine_path_witness :
  compute_crengine 4096 (Some "criu"%string)
    (("/jdk" ++ String FdsInfo.slash "lib") ++ String FdsInfo.slash "libjvm.so")
    (fun _ => true) None
  = Some (true, Some "/jdk/criu"%string).
Proof.
  apply (compute_crengine_path 4096 "criu" "/jdk" "lib" "libjvm.so"
           (fun _ => true) None);
    [reflexivity|reflexivity|simpl; lia|intros _; simpl; lia].
Defined.

(** A CREngine too long for the buffer: the [strcat] calls write past
    it. *)
Lemma compute_crengine_overflow maxpathlen engine home a b stat_ok old :
  contains FdsInfo.slash a = false -> contains FdsInfo.slash b = false ->
  Z.of_nat (String.length home) < 2 ^ 31 ->
  is_absolute engine = false ->
  (maxpathlen < String.length home + 1 + String.length engine + 1)%nat ->
  compute_crengine maxpathlen (Some engine)
    ((home ++ String FdsInfo.slash a) ++ String FdsInfo.slash b) stat_ok old
  = None.
Proof.
  intros Ha Hb Hl Habs Hbig. unfold compute_crengine. rewrite Habs.
  unfold cr_util_path. rewrite cut_last_slash_append by exact Hb.
  rewrite cut_last_slash_append by exact Ha.
  rewrite to_int_in_range by (unfold CInt.is_int; lia).
  destruct (Z.ltb_spec (Z.of_nat (String.length home)) 0); [lia|].
  rewrite Nat2Z.id. rewrite substring0_all by lia.
  destruct (Nat.ltb_spec maxpathlen
              (String.length home + 1 + String.length engine + 1));
    [reflexivity|lia].
Qed.

End EnginePath.
